(** * Milk-Track: receipt ingestion, validation, persistence and aggregation

    A shallow embedding of the TypeScript sources of the application
    (the [App] component, [receiptService], the [Records] view and the
    row-level policies of the SQL schema) together with the properties
    the specification states about them.

    Conventions of the embedding.
    - JavaScript numbers are binary64 values: a finite number is the
      rational it denotes ([Q]), and parsing, addition and multiplication
      round their exact result to the nearest binary64 value, to the one
      with an even significand on a tie ([JS.round64]).  The sign of zero
      is not kept.  The pixel sizes of [compressImage] are computed on
      exact rationals.
    - JavaScript strings are Rocq strings, one character per code unit:
      the strings of the embedding are those whose code units are below
      256, and letter case conversion covers the letters of that range.
    - Objects read by key ([ParsedData], the form data) are finite maps
      from property names to values; an absent property reads as
      [JUndefined].
    - Effects of the backend (storage bucket, [receipts] table, clock) are
      threaded explicitly through a [Backend] state. *)

From Stdlib Require Import ZArith QArith Qround Qabs Qpower Lia Lqa Ascii String.
From Stdlib Require Qcanon.
From stdpp Require Import base option list gmap strings pretty sorting.

Open Scope string_scope.
Open Scope Z_scope.
Open Scope list_scope.

(** ** JavaScript values, numbers and strings *)

Module JS.

(** A JavaScript number: [NaN], an infinity, or a finite value. *)
Inductive Num : Type :=
  | NaN
  | Inf (negative : bool)
  | Fin (q : Q).

Definition isNaN (n : Num) : bool :=
  match n with NaN => true | _ => false end.

(** *** Rounding to binary64 *)

(** The quotient [a / b] of a non-negative [a], rounded to the nearest
    integer and to the even one on a tie. *)
Definition roundHalfEven (a : Z) (b : positive) : Z :=
  let k := a / Zpos b in
  match (2 * (a mod Zpos b) ?= Zpos b) with
  | Lt => k
  | Gt => k + 1
  | Eq => if Z.even k then k else k + 1
  end.

(** The fraction [n / d] divided by [2^e]. *)
Definition scaleBy (n : Z) (d : positive) (e : Z) : Z * positive :=
  if 0 <=? e then (n, (d * Z.to_pos (2 ^ e))%positive)
  else (n * 2 ^ (- e), d).

(** The rational [m * 2^x], in lowest terms. *)
Definition dyadic (m x : Z) : Q :=
  if 0 <=? x then inject_Z (m * 2 ^ x)
  else Qred (m # Z.to_pos (2 ^ (- x))).

(** The binary exponent of the positive fraction [n / d]: the [e] with
    [2^e <= n / d < 2^(e+1)]. *)
Definition exponentOf (n : Z) (d : positive) : Z :=
  let e0 := Z.log2 n - Z.log2 (Zpos d) in
  let '(a0, b0) := scaleBy n d e0 in
  if a0 <? Zpos b0 then e0 - 1 else e0.

(** The binary64 value nearest to the positive fraction [n / d]: a
    significand of at most 53 bits at the exponent of [n / d], which is
    not taken below that of the subnormal numbers; [None] when the
    rounded value is [2^1024] or more. *)
Definition round64pos (n : Z) (d : positive) : option Q :=
  let x := Z.max (exponentOf n d - 52) (-1074) in
  let '(a, b) := scaleBy n d x in
  let m := roundHalfEven a b in
  if 1024 <=? Z.log2 m + x then None else Some (dyadic m x).

(** The number a real result is rounded to. *)
Definition round64 (q : Q) : Num :=
  match Qnum q with
  | 0 => Fin 0
  | Zpos n =>
      match round64pos (Zpos n) (Qden q) with
      | Some v => Fin v
      | None => Inf false
      end
  | Zneg n =>
      match round64pos (Zpos n) (Qden q) with
      | Some v => Fin (- v)
      | None => Inf true
      end
  end.

(** [a + b] on numbers. *)
Definition add (a b : Num) : Num :=
  match a, b with
  | NaN, _ | _, NaN => NaN
  | Inf s, Inf t => if Bool.eqb s t then Inf s else NaN
  | Inf s, Fin _ | Fin _, Inf s => Inf s
  | Fin x, Fin y => round64 (x + y)
  end.

(** [a * b] on numbers. *)
Definition mul (a b : Num) : Num :=
  match a, b with
  | NaN, _ | _, NaN => NaN
  | Inf s, Inf t => Inf (xorb s t)
  | Inf s, Fin y | Fin y, Inf s =>
      match (y ?= 0)%Q with
      | Eq => NaN
      | Lt => Inf (negb s)
      | Gt => Inf s
      end
  | Fin x, Fin y => round64 (x * y)
  end.

(** [a < b]; every comparison with [NaN] is false. *)
Definition lt (a b : Num) : bool :=
  match a, b with
  | NaN, _ | _, NaN => false
  | Inf s, Inf t => s && negb t
  | Inf s, Fin _ => s
  | Fin _, Inf t => negb t
  | Fin x, Fin y => negb (Qle_bool y x)
  end.

Definition gt (a b : Num) : bool := lt b a.

(** *** Characters *)

Definition code (c : ascii) : N := N_of_ascii c.

Definition isDigit (c : ascii) : bool :=
  (48 <=? code c)%N && (code c <=? 57)%N.

Definition digitValue (c : ascii) : Z := Z.of_N (code c) - 48.

(** White space skipped by [parseFloat] and trimmed by [Number]:
    tab, line feed, vertical tab, form feed, carriage return, space and
    no-break space. *)
Definition isWhite (c : ascii) : bool :=
  ((9 <=? code c)%N && (code c <=? 13)%N) || (code c =? 32)%N ||
  (code c =? 160)%N.

(** The capital letters among the code units below 256: [A] to [Z] and
    the accented capitals [U+00C0] to [U+00DE], the multiplication sign
    [U+00D7] apart. *)
Definition isUpper (c : ascii) : bool :=
  ((65 <=? code c)%N && (code c <=? 90)%N) ||
  ((192 <=? code c)%N && (code c <=? 222)%N && negb (code c =? 215)%N).

(** The small letter of a capital is 32 code units further. *)
Definition lowerChar (c : ascii) : ascii :=
  if isUpper c then ascii_of_N (code c + 32) else c.

(** *** Strings as character lists *)

Definition chars (s : string) : list ascii := String.list_ascii_of_string s.
Definition str (l : list ascii) : string := String.string_of_list_ascii l.

(** [s.toLowerCase()] *)
Definition toLowerCase (s : string) : string := str (map lowerChar (chars s)).

Fixpoint isPrefix (p l : list ascii) : bool :=
  match p, l with
  | [], _ => true
  | _ :: _, [] => false
  | a :: p', b :: l' => if Ascii.eqb a b then isPrefix p' l' else false
  end.

Fixpoint occursIn (p l : list ascii) : bool :=
  isPrefix p l ||
  match l with
  | [] => false
  | _ :: l' => occursIn p l'
  end.

(** [s.includes(p)] *)
Definition includes (s p : string) : bool := occursIn (chars p) (chars s).

(** [s.padStart(n, c)] for a one-character filler. *)
Definition padStart (s : string) (n : nat) (c : ascii) : string :=
  str (replicate (n - length (chars s)) c ++ chars s).

(** [String(n)] for a non-negative integer. *)
Definition StringOfInt (n : Z) : string :=
  if n <? 0 then "-" +:+ pretty (Z.to_N (- n)) else pretty (Z.to_N n).

(** *** Decimal literals *)

Fixpoint spanDigits (l : list ascii) : list ascii * list ascii :=
  match l with
  | c :: l' =>
      if isDigit c
      then let '(ds, r) := spanDigits l' in (c :: ds, r)
      else ([], l)
  | [] => ([], [])
  end.

Definition digitsValue (ds : list ascii) : Z :=
  fold_left (fun acc c => 10 * acc + digitValue c) ds 0.

Definition pow10 (e : Z) : Q :=
  if e <? 0 then 1 # Pos.pow 10 (Z.to_pos (- e))
  else inject_Z (10 ^ e).

(** The optional exponent part [e[+-]digits] of a decimal literal: the
    exponent and the text left after it.  Without a digit after the
    marker the literal ends before the marker. *)
Definition exponentPart (l : list ascii) : Z * list ascii :=
  match l with
  | c :: r =>
      if Ascii.eqb c "e" || Ascii.eqb c "E" then
        let '(neg, r1) :=
          match r with
          | s :: r' =>
              if Ascii.eqb s "-" then (true, r')
              else if Ascii.eqb s "+" then (false, r')
              else (false, r)
          | [] => (false, r)
          end in
        let '(ds, rest) := spanDigits r1 in
        match ds with
        | [] => (0, l)
        | _ => ((if neg then - digitsValue ds else digitsValue ds), rest)
        end
      else (0, l)
  | [] => (0, l)
  end.

(** The longest prefix of [l] that is a [StrDecimalLiteral]: the number
    its decimal value rounds to and the text left after it, or [None]
    when no prefix is one. *)
Definition decimalLiteral (l : list ascii) : option (Num * list ascii) :=
  let '(neg, r) :=
    match l with
    | s :: r' =>
        if Ascii.eqb s "-" then (true, r')
        else if Ascii.eqb s "+" then (false, r')
        else (false, l)
    | [] => (false, l)
    end in
  if isPrefix (chars "Infinity") r then Some (Inf neg, drop 8 r)
  else
    let '(ip, r1) := spanDigits r in
    let '(fp, r2) :=
      match r1 with
      | d :: r' =>
          if Ascii.eqb d "."
          then (let '(fp, r2) := spanDigits r' in
                match ip, fp with
                | [], [] => ([], r1)
                | _, _ => (fp, r2)
                end)
          else ([], r1)
      | [] => ([], r1)
      end in
    match ip, fp with
    | [], [] => None
    | _, _ =>
        let '(e, rest) := exponentPart r2 in
        let mant := inject_Z (digitsValue (ip ++ fp)) in
        let v := Qred (mant * pow10 (e - Z.of_nat (length fp))) in
        Some (round64 (if neg then - v else v), rest)
    end.

Fixpoint skipWhite (l : list ascii) : list ascii :=
  match l with
  | c :: l' => if isWhite c then skipWhite l' else l
  | [] => []
  end.

(** [parseFloat(s)]: leading white space is skipped, the longest decimal
    literal is read, trailing text is ignored. *)
Definition parseFloat (s : string) : Num :=
  match decimalLiteral (skipWhite (chars s)) with
  | Some (n, _) => n
  | None => NaN
  end.

(** The value of [c] as a digit of the given base, [None] when it is
    not one. *)
Definition digitOfBase (base : Z) (c : ascii) : option Z :=
  let n := Z.of_N (code c) in
  let v :=
    if isDigit c then n - 48
    else if (97 <=? n) && (n <=? 102) then n - 87
    else if (65 <=? n) && (n <=? 70) then n - 55
    else 16 in
  if v <? base then Some v else None.

Definition digitsOfBase (base : Z) (ds : list ascii) : option Z :=
  fold_left (fun acc c =>
               match acc, digitOfBase base c with
               | Some a, Some v => Some (base * a + v)
               | _, _ => None
               end)
            ds (Some 0).

(** A [NonDecimalIntegerLiteral]: [0b], [0o] or [0x], in either case,
    followed by digits of that base. *)
Definition nonDecimalLiteral (l : list ascii) : option Num :=
  match l with
  | z :: p :: d :: ds =>
      let base :=
        if Ascii.eqb p "b" || Ascii.eqb p "B" then Some 2
        else if Ascii.eqb p "o" || Ascii.eqb p "O" then Some 8
        else if Ascii.eqb p "x" || Ascii.eqb p "X" then Some 16
        else None in
      match Ascii.eqb z "0", base with
      | true, Some b =>
          match digitsOfBase b (d :: ds) with
          | Some v => Some (round64 (inject_Z v))
          | None => None
          end
      | _, _ => None
      end
  | _ => None
  end.

(** [Number(s)] for a string: white space is trimmed at both ends, the
    empty string is [0], and the whole text has to be one numeric
    literal, decimal or not. *)
Definition Number (s : string) : Num :=
  let t := skipWhite (chars s) in
  let t := reverse (skipWhite (reverse t)) in
  match t with
  | [] => Fin 0
  | _ =>
      match nonDecimalLiteral t with
      | Some n => n
      | None =>
          match decimalLiteral t with
          | Some (n, []) => n
          | _ => NaN
          end
      end
  end.

(** [x.toFixed(d)]: the decimal numeral with [d] fraction digits closest
    to the value [x] denotes, the larger one on a tie (magnitudes from
    [10^21] on, which JavaScript prints in exponent notation, are outside
    the embedding). *)
Definition scaled (d : nat) (a : Q) : Z :=
  Qfloor (a * inject_Z (10 ^ Z.of_nat d) + (1 # 2)).

(** The numeral of [n] units of [10^-d], with [d] fraction digits. *)
Definition numeral (neg : bool) (n : Z) (d : nat) : string :=
  let p := 10 ^ Z.of_nat d in
  let body :=
    match d with
    | O => StringOfInt n
    | _ => StringOfInt (n / p) +:+ "." +:+
           padStart (StringOfInt (n mod p)) d "0"
    end in
  if neg then "-" +:+ body else body.

Definition toFixed (x : Num) (d : nat) : string :=
  match x with
  | NaN => "NaN"
  | Inf neg => if neg then "-Infinity" else "Infinity"
  | Fin q => numeral (negb (Qle_bool 0 q)) (scaled d (Qabs q)) d
  end.

(** Run-time values held in the objects of the client.  The wire format
    of the extraction result is text-typed ([ParsedData] declares every
    field as [string]), so a property holds a string, [null], or is
    [undefined]. *)
Inductive Value : Type :=
  | JUndefined
  | JNull
  | JStr (s : string).

(** Truthiness, as used by [||], [?:] and [if]. *)
Definition truthy (v : Value) : bool :=
  match v with
  | JStr s => negb (String.eqb s "")
  | _ => false
  end.

(** [a || b] *)
Definition or (a b : Value) : Value := if truthy a then a else b.

(** An object read by key. *)
Abbreviation Object := (gmap string Value).

(** [o.k]: an absent property reads as [undefined]. *)
Definition get (o : Object) (k : string) : Value := default JUndefined (o !! k).

(** [{ ...a, ...b }]: the properties of [b] override those of [a]. *)
Definition spread (a b : Object) : Object := b ∪ a.

End JS.

(** The settlement of a promise. *)
Inductive Result (A : Type) : Type :=
  | Resolved (a : A)
  | Rejected (reason : string).
Arguments Resolved {A} a.
Arguments Rejected {A} reason.

(** ** Files, images and blobs *)

(** A decoded picture: [img.width] and [img.height]. *)
Record Image : Type := mkImage { width : Z; height : Z }.

(** An encoded picture: its pixel size, its MIME type and, for a lossy
    encoding, the quality factor it was encoded with. *)
Record Blob : Type := mkBlob {
  blob_width : Z;
  blob_height : Z;
  blob_type : string;
  blob_quality : Q
}.

(** The readings of a [Date] in local time: [getDate()], [getMonth()]
    (zero-based) and [getFullYear()]. *)
Record JSDate : Type := mkDate {
  getDate : Z;
  getMonth : Z;
  getFullYear : Z
}.

(** A [File] chosen by the user.  [lastModified] is its time stamp in
    milliseconds; [picture] is the bitmap the browser decodes from its
    bytes, [None] when the bytes are not an image. *)
Record File : Type := mkFile {
  file_name : string;
  lastModified : Z;
  picture : option Image
}.

(** A [canvas] element: its bitmap size. *)
Record Canvas : Type := mkCanvas { canvas_width : Z; canvas_height : Z }.

(** [canvas.toBlob(cb, type, quality)]: the callback receives [null]
    when the bitmap has no pixels, and the encoded bitmap otherwise. *)
Definition toBlob (c : Canvas) (type : string) (quality : Q) : option Blob :=
  if (canvas_width c <=? 0) || (canvas_height c <=? 0) then None
  else Some (mkBlob (canvas_width c) (canvas_height c) type quality).

(** ** ImageNormalizer: [compressImage] *)

Module ImageNormalizer.

Definition maxSize : Z := 1600.

(** The values of [width] and [height] after the two branches of
    [compressImage]. *)
Definition newDimensions (img : Image) : Q * Q :=
  let w := inject_Z (width img) in
  let h := inject_Z (height img) in
  let m := inject_Z maxSize in
  if (width img >? height img) && (width img >? maxSize)
  then (m, (h * m / w)%Q)
  else if height img >? maxSize
  then ((w * m / h)%Q, m)
  else (w, h).

(** [canvas.width = width; canvas.height = height]: the assignment keeps
    the integer part. *)
Definition canvasOf (img : Image) : Canvas :=
  let '(w, h) := newDimensions img in mkCanvas (Qfloor w) (Qfloor h).

Definition compressImage (file : File) : Result Blob :=
  match picture file with
  | None => Rejected "error"
  | Some img =>
      match toBlob (canvasOf img) "image/jpeg" (85 # 100) with
      | Some blob => Resolved blob
      | None => Rejected "Compression failed"
      end
  end.

End ImageNormalizer.

(** ** Form validation (react-hook-form, as used by [register]) *)

Module Form.

(** The options given to [register]: [required], [min] and [max] with
    their messages, and [pattern] with its message.  A bound is held as
    the decimal literal of the source; the number it is compared as is
    the binary64 value of that literal. *)
Record Rules : Type := mkRules {
  required : bool;
  min : option (Q * string);
  max : option (Q * string);
  pattern : option ((string -> bool) * string)
}.

Definition noRules : Rules := mkRules false None None None.

(** An entry of [formState.errors]. *)
Record FieldError : Type := mkError {
  error_field : string;
  error_type : string;
  error_message : string
}.

(** [String(v)] *)
Definition toString (v : JS.Value) : string :=
  match v with
  | JS.JUndefined => "undefined"
  | JS.JNull => "null"
  | JS.JStr s => s
  end.

(** A field is empty when its value is the empty string or it has no
    value. *)
Definition isEmpty (v : JS.Value) : bool :=
  match v with
  | JS.JStr s => String.eqb s ""
  | _ => true
  end.

(** The built-in validation of one field, in the order the library
    applies it: [required], then [min]/[max] on a non-empty value that
    reads as a number, then [pattern] on a non-empty string.  The first
    failing rule is reported. *)
Definition validateField (name : string) (r : Rules) (v : JS.Value)
  : option FieldError :=
  if required r && isEmpty v then Some (mkError name "required" "")
  else
    let n := JS.Number (toString v) in
    let exceedMax :=
      match max r with
      | Some (m, _) => negb (isEmpty v) && JS.gt n (JS.round64 m)
      | None => false
      end in
    let exceedMin :=
      match min r with
      | Some (m, _) => negb (isEmpty v) && JS.lt n (JS.round64 m)
      | None => false
      end in
    if exceedMax then
      Some (mkError name "max" (from_option snd "" (max r)))
    else if exceedMin then
      Some (mkError name "min" (from_option snd "" (min r)))
    else
      match pattern r, v with
      | Some (re, msg), JS.JStr s =>
          if negb (isEmpty v) && negb (re s)
          then Some (mkError name "pattern" msg)
          else None
      | _, _ => None
      end.

(** The error of the field [name] among [fields] for the value [v]. *)
Definition errorOf (fields : list (string * Rules)) (name : string)
    (v : JS.Value) : option FieldError :=
  match List.find (fun f => String.eqb (fst f) name) fields with
  | Some (_, r) => validateField name r v
  | None => None
  end.

(** All the errors of the mounted fields for the values [data]. *)
Definition validate (fields : list (string * Rules)) (data : JS.Object)
  : list FieldError :=
  omap (fun '(name, r) => validateField name r (JS.get data name)) fields.

End Form.

(** ** The backend: profiles, the [receipts] table and the bucket *)

Module Supabase.

Inductive Role : Type := admin | member | viewer.

Record Profile : Type := mkProfile {
  profile_id : string;
  profile_email : string;
  role : Role
}.

(** A row of the table [receipts].  The columns [uploaded_by_name],
    [fat_kg] and [snf_kg] admit [NULL]; the time stamps are instants in
    milliseconds. *)
Record Row : Type := mkRow {
  id : string;
  user_id : string;
  uploaded_by_name : option string;
  date : string;
  quantity : string;
  fat : string;
  clr : string;
  fat_kg : option string;
  snf_kg : option string;
  base_rate : string;
  rate : string;
  amount : string;
  image_url : string;
  created_at : Z;
  updated_at : Z
}.

(** The backend as the client sees it.  [clock] is the current instant
    ([Date.now()] on the client, [now()] on the server); [issued] counts
    the row identifiers given out, so [gen_random_uuid()] is modelled by
    a fresh name. *)
Record Backend : Type := mkBackend {
  profiles : list Profile;
  receipts : list Row;
  bucket : list (string * Blob);
  clock : Z;
  issued : N
}.

(** [EXISTS (SELECT 1 FROM profiles WHERE profiles.id = auth.uid() AND
    profiles.role IN (...))] *)
Definition hasRole (allowed : Role -> bool) (auth : option string)
    (b : Backend) : bool :=
  match auth with
  | None => false
  | Some uid =>
      existsb (fun p => String.eqb (profile_id p) uid && allowed (role p))
              (profiles b)
  end.

Definition adminOrMember (r : Role) : bool :=
  match r with admin | member => true | viewer => false end.

(** Policy "Everyone can view all receipts": [FOR SELECT TO authenticated
    USING (true)]. *)
Definition canSelect (auth : option string) (r : Row) : bool :=
  match auth with Some _ => true | None => false end.

(** Policy "Admin and Members can insert receipts". *)
Definition canInsert (auth : option string) (b : Backend) : bool :=
  hasRole adminOrMember auth b.

(** Policy "Admin and Members can upload" of the bucket. *)
Definition canUpload (auth : option string) (b : Backend) : bool :=
  hasRole adminOrMember auth b.

Definition supabaseUrl : string := "https://lqvzffcsqgofexhyridv.supabase.co".

(** [supabase.storage.from("receipts").upload(path, blob, ...)]: refused
    by the policy, refused when the path is taken, stored otherwise. *)
Definition upload (auth : option string) (path : string) (blob : Blob)
    (b : Backend) : Result Backend :=
  if negb (canUpload auth b) then
    Rejected "new row violates row-level security policy"
  else if existsb (fun o => String.eqb (fst o) path) (bucket b) then
    Rejected "The resource already exists"
  else
    Resolved (mkBackend (profiles b) (receipts b) (bucket b ++ [(path, blob)])
                        (clock b) (issued b)).

Definition getPublicUrl (path : string) : string :=
  supabaseUrl +:+ "/storage/v1/object/public/receipts/" +:+ path.

(** The value sent for a column: [undefined] is left out of the request
    and the column takes its default, [NULL]. *)
Definition column (v : JS.Value) : option string :=
  match v with
  | JS.JStr s => Some s
  | _ => None
  end.

(** The object given to [insert]. *)
Record Payload : Type := mkPayload {
  p_user_id : string;
  p_date : JS.Value;
  p_quantity : JS.Value;
  p_fat : JS.Value;
  p_clr : JS.Value;
  p_fat_kg : JS.Value;
  p_snf_kg : JS.Value;
  p_base_rate : JS.Value;
  p_rate : JS.Value;
  p_amount : JS.Value;
  p_image_url : JS.Value
}.

(** [user_id uuid REFERENCES auth.users]: every account has its profile
    (created by the sign-up trigger), so the accounts are the profile
    identifiers. *)
Definition isAccount (uid : string) (b : Backend) : bool :=
  existsb (fun p => String.eqb (profile_id p) uid) (profiles b).

(** [supabase.from("receipts").insert([payload]).select().single()]:
    the insert policy is checked first, then the constraints of the
    table; the new row gets its identifier and time stamps from the
    server. *)
Definition insert (auth : option string) (p : Payload) (b : Backend)
  : Result (Row * Backend) :=
  if negb (canInsert auth b) then
    Rejected "new row violates row-level security policy"
  else if negb (isAccount (p_user_id p) b) then
    Rejected "insert violates foreign key constraint"
  else
    match column (p_date p), column (p_quantity p), column (p_fat p),
          column (p_clr p), column (p_base_rate p), column (p_rate p),
          column (p_amount p), column (p_image_url p) with
    | Some d, Some q, Some f, Some c, Some br, Some r, Some a, Some u =>
        let row := mkRow ("receipt-" +:+ pretty (issued b)) (p_user_id p) None
                         d q f c (column (p_fat_kg p)) (column (p_snf_kg p))
                         br r a u (clock b) (clock b) in
        Resolved (row,
                  mkBackend (profiles b) (receipts b ++ [row]) (bucket b)
                            (clock b) (N.succ (issued b)))
    | _, _, _, _, _, _, _, _ =>
        Rejected "null value violates not-null constraint"
    end.

End Supabase.

(** ** [receiptService] *)

Module ReceiptService.
Import Supabase.

(** The argument [receiptData] of [saveReceipt]. *)
Record ReceiptData : Type := mkData {
  d_date : JS.Value;
  d_quantity : JS.Value;
  d_fat : JS.Value;
  d_clr : JS.Value;
  d_fat_kg : JS.Value;
  d_snf_kg : JS.Value;
  d_base_rate : JS.Value;
  d_rate : JS.Value;
  d_amount : JS.Value;
  d_image_url : JS.Value
}.

(** [saveReceipt(userId, receiptData, imageBlob)], run in the session of
    [auth]: the image, when given, is uploaded under
    [userId/Date.now().jpg] and its public address is stored with the
    row; the promise resolves to the identifier of the new row.  A
    refused insert leaves the uploaded image in the bucket. *)
Definition saveReceipt (auth : option string) (userId : string)
    (receiptData : ReceiptData) (imageBlob : option Blob) (b : Backend)
  : Result string * Backend :=
  let uploaded :=
    match imageBlob with
    | Some blob =>
        let fileName := userId +:+ "/" +:+ JS.StringOfInt (clock b) +:+ ".jpg" in
        match upload auth fileName blob b with
        | Rejected e => Rejected e
        | Resolved b1 => Resolved (getPublicUrl fileName, b1)
        end
    | None => Resolved ("", b)
    end in
  match uploaded with
  | Rejected e => (Rejected e, b)
  | Resolved (publicUrl, b1) =>
      let payload :=
        mkPayload userId (d_date receiptData) (d_quantity receiptData)
                  (d_fat receiptData) (d_clr receiptData)
                  (d_fat_kg receiptData) (d_snf_kg receiptData)
                  (d_base_rate receiptData) (d_rate receiptData)
                  (d_amount receiptData) (JS.JStr publicUrl) in
      match insert auth payload b1 with
      | Rejected e => (Rejected e, b1)
      | Resolved (data, b2) => (Resolved (id data), b2)
      end
  end.

(** [ORDER BY created_at DESC] *)
Definition newerFirst (x y : Row) : Prop := created_at y <= created_at x.

#[export] Instance newerFirst_dec (x y : Row) : Decision (newerFirst x y).
Proof. unfold newerFirst. apply _. Defined.

(** [getUserReceipts(userId)], run in the session of [auth]:
    [select("*").eq("user_id", userId).order("created_at", { ascending:
    false })] over the rows the select policy shows. *)
Definition getUserReceipts (auth : option string) (userId : string)
    (b : Backend) : Result (list Row) :=
  let visible := List.filter (canSelect auth) (receipts b) in
  let data := List.filter (fun r => String.eqb (user_id r) userId) visible in
  Resolved (merge_sort newerFirst data).

End ReceiptService.

(** ** The [App] component *)

Module App.

Inductive EntryMode : Type := camera | manual.
Inductive View : Type := upload | records.

(** The signed-in user ([useAuth]). *)
Record User : Type := mkUser { id : string; email : string }.

(** The state of the component ([useState]) together with the messages
    shown by [alert], oldest first. *)
Record State : Type := mkState {
  user : option User;
  currentView : View;
  entryMode : EntryMode;
  selectedImage : option string;
  compressedBlob : option Blob;
  parsedData : option JS.Object;
  isProcessing : bool;
  isEditing : bool;
  isSaving : bool;
  alerts : list string
}.

(** The state on the first render, for the user of the session. *)
Definition initial (u : option User) : State :=
  mkState u upload camera None None None false false false [].

Definition setSelectedImage (v : option string) (st : State) : State :=
  mkState (user st) (currentView st) (entryMode st) v (compressedBlob st)
          (parsedData st) (isProcessing st) (isEditing st) (isSaving st)
          (alerts st).
Definition setCompressedBlob (v : option Blob) (st : State) : State :=
  mkState (user st) (currentView st) (entryMode st) (selectedImage st) v
          (parsedData st) (isProcessing st) (isEditing st) (isSaving st)
          (alerts st).
Definition setParsedData (v : option JS.Object) (st : State) : State :=
  mkState (user st) (currentView st) (entryMode st) (selectedImage st)
          (compressedBlob st) v (isProcessing st) (isEditing st)
          (isSaving st) (alerts st).
Definition setIsProcessing (v : bool) (st : State) : State :=
  mkState (user st) (currentView st) (entryMode st) (selectedImage st)
          (compressedBlob st) (parsedData st) v (isEditing st)
          (isSaving st) (alerts st).
Definition setIsEditing (v : bool) (st : State) : State :=
  mkState (user st) (currentView st) (entryMode st) (selectedImage st)
          (compressedBlob st) (parsedData st) (isProcessing st) v
          (isSaving st) (alerts st).
Definition setIsSaving (v : bool) (st : State) : State :=
  mkState (user st) (currentView st) (entryMode st) (selectedImage st)
          (compressedBlob st) (parsedData st) (isProcessing st)
          (isEditing st) v (alerts st).
Definition alert (msg : string) (st : State) : State :=
  mkState (user st) (currentView st) (entryMode st) (selectedImage st)
          (compressedBlob st) (parsedData st) (isProcessing st)
          (isEditing st) (isSaving st) (alerts st ++ [msg]).

Definition processingFailed : string :=
  "Failed to process image. Please check your API key and try again.".
Definition nl : string := String "010"%char EmptyString.
Definition apiKeyMissing : string :=
  "Please add your Gemini API key to .env.local file:" +:+ nl +:+
  "VITE_GEMINI_API_KEY=your_api_key_here" +:+ nl +:+ nl +:+
  "Get your free API key from: https://makersuite.google.com/app/apikey"
  +:+ nl +:+ nl +:+ "Then restart the dev server.".
Definition savedMessage : string := "Receipt saved successfully!".
Definition saveFailed : string := "Failed to save receipt. Please try again.".

(** [responseText.match(/\{[\s\S]*\}/)]: the text from the first opening
    brace that has a closing brace after it up to the last closing
    brace. *)
Fixpoint fromFirstBrace (l : list ascii) : option (list ascii) :=
  match l with
  | [] => None
  | c :: r => if Ascii.eqb c "{" then Some r else fromFirstBrace r
  end.

Fixpoint upToLastBrace (l : list ascii) : option (list ascii) :=
  match l with
  | [] => None
  | c :: r =>
      match upToLastBrace r with
      | Some p => Some (c :: p)
      | None => if Ascii.eqb c "}" then Some [c] else None
      end
  end.

Definition jsonMatch (responseText : string) : option string :=
  match fromFirstBrace (JS.chars responseText) with
  | Some r =>
      match upToLastBrace r with
      | Some p => Some (JS.str ("{"%char :: p))
      | None => None
      end
  | None => None
  end.

(** The date pattern of the edit form:
    [/^(0[1-9]|[12][0-9]|3[01])\/(0[1-9]|1[012])\/\d{4}$/]. *)
Definition inRange (lo hi c : ascii) : bool :=
  (JS.code lo <=? JS.code c)%N && (JS.code c <=? JS.code hi)%N.

Definition datePattern (s : string) : bool :=
  match JS.chars s with
  | [d1; d2; s1; m1; m2; s2; y1; y2; y3; y4] =>
      ((Ascii.eqb d1 "0" && inRange "1" "9" d2) ||
       (inRange "1" "2" d1 && inRange "0" "9" d2) ||
       (Ascii.eqb d1 "3" && inRange "0" "1" d2)) &&
      Ascii.eqb s1 "/" &&
      ((Ascii.eqb m1 "0" && inRange "1" "9" m2) ||
       (Ascii.eqb m1 "1" && inRange "0" "2" m2)) &&
      Ascii.eqb s2 "/" &&
      JS.isDigit y1 && JS.isDigit y2 && JS.isDigit y3 && JS.isDigit y4
  | _ => false
  end.

(** The options of the fields of the edit form. *)
Definition range (lo : Q) (lomsg : string) (hi : Q) (himsg : string)
  : Form.Rules :=
  Form.mkRules false (Some (lo, lomsg)) (Some (hi, himsg)) None.

Definition editRules : list (string * Form.Rules) :=
  [ ("date", Form.mkRules false None None
               (Some (datePattern, "Use DD/MM/YYYY format")));
    ("quantity", range (1 # 10) "Min 0.1" 500 "Max 500");
    ("fat", range 2 "Min 2%" 11 "Max 11%");
    ("clr", range 15 "Min 15" 40 "Max 40");
    ("fatKg", range (1 # 100) "Min 0.01" 50 "Max 50");
    ("snfKg", range (1 # 100) "Min 0.01" 50 "Max 50");
    ("baseRate", range (1 # 10) "Min ₹0.1" 100 "Max ₹100");
    ("rate", range 1 "Min ₹1" 200 "Max ₹200");
    ("amount", range 1 "Min ₹1" 100000 "Max ₹100k") ].

(** The options of the manual entry form. *)
Definition requiredOnly : Form.Rules := Form.mkRules true None None None.

Definition manualRules : list (string * Form.Rules) :=
  [ ("date", requiredOnly); ("quantity", requiredOnly);
    ("fat", requiredOnly); ("snfKg", requiredOnly);
    ("rate", requiredOnly); ("amount", requiredOnly) ].

Definition hasImage (st : State) : bool :=
  match selectedImage st with
  | Some url => negb (String.eqb url "")
  | None => false
  end.

Definition hasData (st : State) : bool :=
  match parsedData st with Some _ => true | None => false end.

(** The fields whose inputs are rendered, with their options: the
    manual entry form while nothing is loaded and the entry mode is
    manual, the edit form while the extracted data is being edited. *)
Definition mountedRules (st : State) : list (string * Form.Rules) :=
  match currentView st with
  | records => []
  | upload =>
      if negb (hasImage st) && negb (hasData st) then
        match entryMode st with
        | camera => []
        | manual => manualRules
        end
      else if hasData st && negb (isProcessing st) && isEditing st
      then editRules
      else []
  end.

(** [handleSubmit(callback)]: the callback runs when no mounted field has
    an error. *)
Definition handleSubmit (callback : JS.Object -> State -> State)
    (data : JS.Object) (st : State) : State :=
  match Form.validate (mountedRules st) data with
  | [] => callback data st
  | _ => st
  end.

(** [onSubmit]: the edited values are merged over the parsed data. *)
Definition onSubmit (data : JS.Object) (st : State) : State :=
  setIsEditing false
    (setParsedData (Some (JS.spread (default ∅ (parsedData st)) data)) st).

Definition handleReset (st : State) : State :=
  setIsEditing false
    (setParsedData None (setCompressedBlob None (setSelectedImage None st))).

(** [s.split(sep)] for a one-character separator. *)
Fixpoint split (sep : ascii) (l : list ascii) : list (list ascii) :=
  match l with
  | [] => [[]]
  | c :: r =>
      if Ascii.eqb c sep then [] :: split sep r
      else match split sep r with
           | p :: ps => (c :: p) :: ps
           | [] => [[c]]
           end
  end.

(** The callback of the manual entry form. *)
Definition manualEntry (data : JS.Object) (st : State) : State :=
  let snfValue := JS.or (JS.get data "snfKg") (JS.JStr "0") in
  let fatValue := JS.or (JS.get data "fat") (JS.JStr "0") in
  let clr :=
    JS.toFixed
      (JS.add (JS.parseFloat (Form.toString snfValue))
              (JS.mul (JS.Fin (1 # 4)) (JS.parseFloat (Form.toString fatValue))))
      2 in
  let formattedDate :=
    match JS.get data "date" with
    | JS.JStr d =>
        if negb (String.eqb d "") && JS.includes d "-" then
          let parts := map JS.str (split "-" (JS.chars d)) in
          let year := nth 0 parts "undefined" in
          let month := nth 1 parts "undefined" in
          let day := nth 2 parts "undefined" in
          JS.JStr (day +:+ "/" +:+ month +:+ "/" +:+ year)
        else JS.JStr d
    | v => v
    end in
  setParsedData
    (Some (list_to_map
             [ ("rawText", JS.JStr "Manual entry");
               ("date", formattedDate);
               ("quantity", JS.get data "quantity");
               ("fat", JS.get data "fat");
               ("snfKg", JS.get data "snfKg");
               ("clr", JS.JStr clr);
               ("rate", JS.get data "rate");
               ("amount", JS.get data "amount") ]))
    st.

(** The same options in the earlier revision of the component, which
    has no entry modes: only the upper bound of [baseRate] differs. *)
Definition editRulesLegacy : list (string * Form.Rules) :=
  [ ("date", Form.mkRules false None None
               (Some (datePattern, "Use DD/MM/YYYY format")));
    ("quantity", range (1 # 10) "Min 0.1" 500 "Max 500");
    ("fat", range 2 "Min 2%" 11 "Max 11%");
    ("clr", range 15 "Min 15" 40 "Max 40");
    ("fatKg", range (1 # 100) "Min 0.01" 50 "Max 50");
    ("snfKg", range (1 # 100) "Min 0.01" 50 "Max 50");
    ("baseRate", range (1 # 10) "Min ₹0.1" 5 "Max ₹5");
    ("rate", range 1 "Min ₹1" 200 "Max ₹200");
    ("amount", range 1 "Min ₹1" 100000 "Max ₹100k") ].

(** The object built for [saveReceipt] by both branches of
    [handleSaveReceipt]. *)
Definition receiptData (parsedData : JS.Object) : ReceiptService.ReceiptData :=
  ReceiptService.mkData
    (JS.or (JS.get parsedData "date") (JS.JStr ""))
    (JS.or (JS.get parsedData "quantity") (JS.JStr ""))
    (JS.or (JS.get parsedData "fat") (JS.JStr ""))
    (JS.or (JS.get parsedData "clr") (JS.JStr ""))
    (JS.get parsedData "fatKg")
    (JS.get parsedData "snfKg")
    (JS.or (JS.get parsedData "baseRate") (JS.JStr ""))
    (JS.or (JS.get parsedData "rate") (JS.JStr ""))
    (JS.or (JS.get parsedData "amount") (JS.JStr ""))
    (JS.JStr "").

(** The placeholder picture of a manual entry: a 400 x 300 canvas
    encoded at quality 0.8. *)
Definition manualBlob : option Blob :=
  toBlob (mkCanvas 400 300) "image/jpeg" (8 # 10).

(** The common tail of both branches: save, then report. *)
Definition saveAndReport (u : User) (data : JS.Object) (blob : option Blob)
    (st : State) (b : Supabase.Backend) : State * Supabase.Backend :=
  let st1 := setIsSaving true st in
  let '(r, b') :=
    ReceiptService.saveReceipt (Some (id u)) (id u) (receiptData data) blob b in
  let st2 :=
    match r with
    | Resolved _ => handleReset (alert savedMessage st1)
    | Rejected _ => alert saveFailed st1
    end in
  (setIsSaving false st2, b').

(** [handleSaveReceipt], in the session of the signed-in user. *)
Definition handleSaveReceipt (st : State) (b : Supabase.Backend)
  : State * Supabase.Backend :=
  match user st, parsedData st with
  | Some u, Some data =>
      match entryMode st, compressedBlob st with
      | manual, None => saveAndReport u data manualBlob st b
      | _, None => (st, b)
      | _, Some blob => saveAndReport u data (Some blob) st b
      end
  | _, _ => (st, b)
  end.

Section Browser.

(** The environment of the page: the configured API key, [JSON.parse]
    ([None] when it throws), the local-time reading of a time stamp
    ([new Date(ms)]) and [URL.createObjectURL]. *)
Variable apiKey : JS.Value.
Variable JSON_parse : string -> option JS.Object.
Variable newDate : Z -> JSDate.
Variable createObjectURL : Blob -> string.

(** [getImageCaptureDate]: the file's last-modified date as
    [DD/MM/YYYY]. *)
Definition getImageCaptureDate (file : File) : string :=
  let fileDate := newDate (lastModified file) in
  let day := JS.padStart (JS.StringOfInt (getDate fileDate)) 2 "0" in
  let month := JS.padStart (JS.StringOfInt (getMonth fileDate + 1)) 2 "0" in
  let year := JS.StringOfInt (getFullYear fileDate) in
  day +:+ "/" +:+ month +:+ "/" +:+ year.

(** The body of [if (jsonMatch) ... else throw]: the new parsed data, or
    [None] when the response has no span or the span does not parse. *)
Definition extract (file : File) (responseText : string) : option JS.Object :=
  match jsonMatch responseText with
  | Some span =>
      match JSON_parse span with
      | Some extractedData =>
          let captureDate := getImageCaptureDate file in
          Some (JS.spread
                  (list_to_map
                     [ ("rawText", JS.JStr responseText);
                       ("date", JS.or (JS.get extractedData "date")
                                      (JS.JStr captureDate)) ])
                  extractedData)
      | None => None
      end
  | None => None
  end.

(** [handleImageUpload] for the chosen file and the settlement of
    [model.generateContent]. *)
Definition handleImageUpload (chosen : option File) (response : Result string)
    (st : State) : State :=
  match chosen with
  | None => st
  | Some file =>
      if negb (JS.truthy apiKey) then alert apiKeyMissing st
      else
        let st0 := setParsedData None (setIsProcessing true st) in
        let st1 :=
          match ImageNormalizer.compressImage file with
          | Rejected _ => alert processingFailed st0
          | Resolved compressed =>
              let st' :=
                setSelectedImage (Some (createObjectURL compressed))
                                 (setCompressedBlob (Some compressed) st0) in
              match response with
              | Rejected _ => alert processingFailed st'
              | Resolved responseText =>
                  match extract file responseText with
                  | Some data => setParsedData (Some data) st'
                  | None => alert processingFailed st'
                  end
              end
          end in
        setIsProcessing false st1
  end.

End Browser.

End App.

(** ** date-fns, as used by the [Records] view *)

Module DateFns.

Definition isLeapYear (y : Z) : bool :=
  ((y mod 4 =? 0) && negb (y mod 100 =? 0)) || (y mod 400 =? 0).

Definition daysInMonth (y m : Z) : Z :=
  if m =? 2 then (if isLeapYear y then 29 else 28)
  else if (m =? 4) || (m =? 6) || (m =? 9) || (m =? 11) then 30
  else 31.

(** A numeric token of width [n]: one to [n] digits, as many as there
    are. *)
Fixpoint digitsUpTo (n : nat) (l : list ascii) : list ascii * list ascii :=
  match n, l with
  | S n', c :: r =>
      if JS.isDigit c
      then let '(ds, rest) := digitsUpTo n' r in (c :: ds, rest)
      else ([], l)
  | _, _ => ([], l)
  end.

Definition literal (c : ascii) (l : list ascii) : option (list ascii) :=
  match l with
  | x :: r => if Ascii.eqb x c then Some r else None
  | [] => None
  end.

(** [parse(s, 'dd/MM/yyyy', new Date())]: day, month and year of the
    parsed date, or [None] for an invalid date.  Each token takes up to
    its width in digits, the year is positive, the day exists in the
    month, and only white space may follow. *)
Definition parse (s : string) : option (Z * Z * Z) :=
  let '(dd, r1) := digitsUpTo 2 (JS.chars s) in
  match dd, literal "/" r1 with
  | _ :: _, Some r2 =>
      let '(mm, r3) := digitsUpTo 2 r2 in
      match mm, literal "/" r3 with
      | _ :: _, Some r4 =>
          let '(yy, r5) := digitsUpTo 4 r4 in
          let d := JS.digitsValue dd in
          let m := JS.digitsValue mm in
          let y := JS.digitsValue yy in
          match yy with
          | _ :: _ =>
              if forallb JS.isWhite r5 && (0 <? y) && (1 <=? m) && (m <=? 12)
                 && (1 <=? d) && (d <=? daysInMonth y m)
              then Some (d, m, y)
              else None
          | [] => None
          end
      | _, _ => None
      end
  | _, _ => None
  end.

Definition monthName (m : Z) : string :=
  nth (Z.to_nat (m - 1))
      [ "January"; "February"; "March"; "April"; "May"; "June"; "July";
        "August"; "September"; "October"; "November"; "December" ] "".

(** [format(date, 'MMMM yyyy')] *)
Definition format (date : Z * Z * Z) : string :=
  let '(_, m, y) := date in
  monthName m +:+ " " +:+ JS.padStart (JS.StringOfInt y) 4 "0".

(** The label of a date text, [None] when formatting the invalid date
    throws. *)
Definition monthYear (s : string) : option string := format <$> parse s.

End DateFns.

(** ** The [Records] view *)

Module Records.

(** A receipt as the view holds it: the properties of the row in their
    order. *)
Definition Receipt : Type := list (string * JS.Value).

(** [r.k] *)
Definition prop (r : Receipt) (k : string) : JS.Value :=
  default JS.JUndefined (snd <$> List.find (fun kv => String.eqb (fst kv) k) r).

(** [Object.values(r)] *)
Definition Object_values (r : Receipt) : list JS.Value := map snd r.

(** The predicate of [receipts.filter] for a non-empty filter text. *)
Definition matchesFilter (globalFilter : string) (r : Receipt) : bool :=
  existsb (fun val => JS.includes (JS.toLowerCase (Form.toString val))
                                  (JS.toLowerCase globalFilter))
          (Object_values r).

Definition filtered (globalFilter : string) (receipts : list Receipt)
  : list Receipt :=
  if String.eqb globalFilter "" then receipts
  else List.filter (matchesFilter globalFilter) receipts.

(** The groups: month labels with their receipts, in the order the
    labels were first met (a label is never an integer index, so this is
    the property order of the object). *)
Definition Grouped : Type := list (string * list Receipt).

(** [groups[monthYear].push(receipt)], creating the group when needed. *)
Fixpoint push (monthYear : string) (receipt : Receipt) (groups : Grouped)
  : Grouped :=
  match groups with
  | [] => [(monthYear, [receipt])]
  | (k, rs) :: rest =>
      if String.eqb k monthYear then (k, rs ++ [receipt]) :: rest
      else (k, rs) :: push monthYear receipt rest
  end.

Section Grouping.

(** The label of a date text: [format(parse(...), 'MMMM yyyy')], [None]
    when it throws. *)
Variable monthYear : string -> option string.

(** The label of a receipt; a date that is not a string makes the parse
    throw. *)
Definition labelOf (receipt : Receipt) : option string :=
  match prop receipt "date" with
  | JS.JStr d => monthYear d
  | _ => None
  end.

(** The step of the [reduce]. *)
Definition step (groups : Grouped) (receipt : Receipt) : Grouped :=
  match labelOf receipt with
  | Some label => push label receipt groups
  | None => groups
  end.

Definition groupReceiptsByMonth (globalFilter : string)
    (receipts : list Receipt) : Grouped :=
  fold_left step (filtered globalFilter receipts) [].

End Grouping.

(** [monthReceipts.reduce((sum, r) => sum + parseFloat(r.amount), 0)] *)
Definition sumAmounts (monthReceipts : list Receipt) : JS.Num :=
  fold_left (fun sum r => JS.add sum (JS.parseFloat (Form.toString (prop r "amount"))))
            monthReceipts (JS.Fin 0).

(** The cell of the totals row. *)
Definition monthTotal (monthReceipts : list Receipt) : string :=
  JS.toFixed (sumAmounts monthReceipts) 2.

End Records.

(** ** [aiRecordService] and the policies of [ai_records] *)

Module AIRecordService.

(** A row of the table [ai_records]; [ai_date] is a [DATE], held as a
    day number. *)
Record AIRecord : Type := mkAIRecord {
  id : string;
  user_id : string;
  animal_tag : string;
  ai_date : Z;
  created_at : Z;
  updated_at : Z
}.

(** The table with the clock of the server and the count of the
    identifiers given out. *)
Record Table : Type := mkTable {
  ai_records : list AIRecord;
  clock : Z;
  issued : N
}.

(** The four policies compare [auth.uid()] with the owner of the row;
    without a session [auth.uid()] is [NULL] and the comparison is not
    true. *)
Definition owns (auth : option string) (owner : string) : bool :=
  match auth with
  | Some uid => String.eqb uid owner
  | None => false
  end.

(** [ORDER BY ai_date DESC] *)
Definition laterFirst (x y : AIRecord) : Prop := ai_date y <= ai_date x.

#[export] Instance laterFirst_dec (x y : AIRecord) : Decision (laterFirst x y).
Proof. unfold laterFirst. apply _. Defined.

Section Dates.

(** The input conversion of the type [DATE]: the day number of a date
    text, [None] for a text the server does not read as a date. *)
Variable date_in : string -> option Z.

(** [saveAIRecord(userId, animalTag, aiDate)] in the session of [auth]:
    the date text is converted, the insert policy is checked, and the
    new row gets its identifier and time stamps from the server. *)
Definition saveAIRecord (auth : option string) (userId animalTag aiDate : string)
    (t : Table) : Result string * Table :=
  match date_in aiDate with
  | None => (Rejected "invalid input syntax for type date", t)
  | Some day =>
      if negb (owns auth userId) then
        (Rejected "new row violates row-level security policy", t)
      else
        let data := mkAIRecord ("ai-" +:+ pretty (issued t)) userId animalTag
                               day (clock t) (clock t) in
        (Resolved (id data),
         mkTable (ai_records t ++ [data]) (clock t) (N.succ (issued t)))
  end.

End Dates.

(** [getUserAIRecords(userId)] in the session of [auth]:
    [select("*").eq("user_id", userId).order("ai_date", { ascending:
    false })] over the rows the select policy shows. *)
Definition getUserAIRecords (auth : option string) (userId : string)
    (t : Table) : Result (list AIRecord) :=
  let visible := List.filter (fun r => owns auth (user_id r)) (ai_records t) in
  let data := List.filter (fun r => String.eqb (user_id r) userId) visible in
  Resolved (merge_sort laterFirst data).

(** [deleteAIRecord(id)] in the session of [auth]: [delete().eq("id",
    id)] removes the rows with that identifier among those the delete
    policy lets the caller touch; removing no row is not an error. *)
Definition deleteAIRecord (auth : option string) (ident : string) (t : Table)
  : Result unit * Table :=
  (Resolved tt,
   mkTable (List.filter
              (fun r => negb (owns auth (user_id r) && String.eqb (id r) ident))
              (ai_records t))
           (clock t) (issued t)).

End AIRecordService.

(** ** Vocabulary of the statements *)

Section ExtractionVocabulary.
Import App.

(** A text has a brace span when an opening brace is followed, somewhere
    later, by a closing brace. *)
Definition hasJsonSpan (text : string) : Prop :=
  exists a b c : list ascii,
    JS.chars text = a ++ "{"%char :: b ++ "}"%char :: c.

Definition pad2 (n : Z) : list ascii :=
  JS.chars (JS.padStart (JS.StringOfInt n) 2 "0").

(** The alternatives of the day and of the month in the date pattern. *)
Definition dayPart (d1 d2 : ascii) : bool :=
  (Ascii.eqb d1 "0" && inRange "1" "9" d2) ||
  (inRange "1" "2" d1 && inRange "0" "9" d2) ||
  (Ascii.eqb d1 "3" && inRange "0" "1" d2).

Definition monthPart (m1 m2 : ascii) : bool :=
  (Ascii.eqb m1 "0" && inRange "1" "9" m2) ||
  (Ascii.eqb m1 "1" && inRange "0" "2" m2).

Definition twoDigits (part : ascii -> ascii -> bool) (n : Z) : bool :=
  match pad2 n with
  | [a; b] =>
      JS.isDigit a && JS.isDigit b &&
      (10 * JS.digitValue a + JS.digitValue b =? n) && part a b
  | _ => false
  end.

Definition fourDigits (y : Z) : bool :=
  match JS.chars (JS.StringOfInt y) with
  | [a; b; c; d] => JS.isDigit a && JS.isDigit b && JS.isDigit c && JS.isDigit d
  | _ => false
  end.

End ExtractionVocabulary.

Section FormVocabulary.

Definition snf_3_2_fat_4_0 : JS.Object :=
  list_to_map
    [ ("date", JS.JStr "2024-01-05"); ("quantity", JS.JStr "12.5");
      ("fat", JS.JStr "4.0"); ("snfKg", JS.JStr "3.2");
      ("rate", JS.JStr "45"); ("amount", JS.JStr "562") ].

(** The table of the specification: field, lower and upper bound. *)
Definition specRanges (baseRateMax : Q) : list (string * (Q * Q)) :=
  [ ("quantity", (1 # 10, 500)%Q);
    ("fat", (2, 11)%Q);
    ("clr", (15, 40)%Q);
    ("fatKg", (1 # 100, 50)%Q);
    ("snfKg", (1 # 100, 50)%Q);
    ("baseRate", (1 # 10, baseRateMax)%Q);
    ("rate", (1, 200)%Q);
    ("amount", (1, 100000)%Q) ].

(** The same table with each bound as the binary64 number its literal
    denotes: 0.1 and 0.01 are not binary64 numbers, the other bounds
    are. *)
Definition binary64Ranges (baseRateMax : Q) : list (string * (Q * Q)) :=
  [ ("quantity", (3602879701896397 # 36028797018963968, 500)%Q);
    ("fat", (2, 11)%Q);
    ("clr", (15, 40)%Q);
    ("fatKg", (5764607523034235 # 576460752303423488, 50)%Q);
    ("snfKg", (5764607523034235 # 576460752303423488, 50)%Q);
    ("baseRate", (3602879701896397 # 36028797018963968, baseRateMax)%Q);
    ("rate", (1, 200)%Q);
    ("amount", (1, 100000)%Q) ].

(** A number is within a range when it is finite and between the
    bounds; [NaN] compares false with every bound. *)
Definition within (lo hi : Q) (n : JS.Num) : Prop :=
  match n with
  | JS.NaN => True
  | JS.Inf _ => False
  | JS.Fin q => (lo <= q <= hi)%Q
  end.

(** The manual form filled in with the given solids-not-fat and fat. *)
Definition manualReading (snf fat : string) : JS.Object :=
  list_to_map
    [ ("date", JS.JStr "2024-01-05"); ("quantity", JS.JStr "12.5");
      ("fat", JS.JStr fat); ("snfKg", JS.JStr snf);
      ("rate", JS.JStr "45"); ("amount", JS.JStr "562") ].

(** An extraction result with solids-not-fat and fat and without a
    lactometer reading. *)
Definition extractedReading : JS.Object :=
  list_to_map [ ("snfKg", JS.JStr "3.2"); ("fat", JS.JStr "4.0") ].

(** A decimal numeral with two fraction digits: an optional minus sign,
    the digits [ds] of the integer part, the point and the digits [d1]
    and [d2]. *)
Definition twoPlaces (negative : bool) (ds : list ascii) (d1 d2 : ascii)
  : string :=
  JS.str ((if negative then ["-"%char] else []) ++ ds ++ "."%char :: [d1; d2]).

(** The component while the extracted data is being edited, in the
    entry mode [m]. *)
Definition editing (m : App.EntryMode) : App.State :=
  App.mkState None App.upload m None None (Some ∅) false true false [].

End FormVocabulary.

Section StoreVocabulary.
Import Supabase ReceiptService.

(** The path [saveReceipt] uploads the image to. *)
Definition imagePath (userId : string) (b : Backend) : string :=
  userId +:+ "/" +:+ JS.StringOfInt (clock b) +:+ ".jpg".

Definition pathTaken (path : string) (b : Backend) : bool :=
  existsb (fun o => String.eqb (fst o) path) (bucket b).

(** The fields of a record under the names the edit form gives them, and
    the errors the edit form would report for them. *)
Definition fieldsOf (rd : ReceiptData) : JS.Object :=
  list_to_map
    [ ("date", d_date rd); ("quantity", d_quantity rd); ("fat", d_fat rd);
      ("clr", d_clr rd); ("fatKg", d_fat_kg rd); ("snfKg", d_snf_kg rd);
      ("baseRate", d_base_rate rd); ("rate", d_rate rd);
      ("amount", d_amount rd) ].

Definition violations (rd : ReceiptData) : list Form.FieldError :=
  Form.validate App.editRules (fieldsOf rd).

(** The row [saveReceipt] adds and the backend it leaves. *)
Definition savedRow (userId : string) (rd : ReceiptData)
    (imageBlob : option Blob) (b : Backend) (d q f c br r a : string) : Row :=
  mkRow ("receipt-" +:+ pretty (issued b)) userId None d q f c
        (column (d_fat_kg rd)) (column (d_snf_kg rd)) br r a
        (match imageBlob with
         | Some _ => getPublicUrl (imagePath userId b)
         | None => ""
         end)
        (clock b) (clock b).

Definition afterSave (userId : string) (imageBlob : option Blob)
    (b : Backend) (row : Row) : Backend :=
  mkBackend (profiles b) (receipts b ++ [row])
            (bucket b ++ match imageBlob with
                         | Some blob => [(imagePath userId b, blob)]
                         | None => []
                         end)
            (clock b) (N.succ (issued b)).

(** A backend with two members and one receipt of each. *)
Definition alice : Profile := mkProfile "alice" "alice@example.com" member.
Definition bob : Profile := mkProfile "bob" "bob@example.com" member.

Definition rowOfAlice : Row :=
  mkRow "receipt-0" "alice" None "05/01/2024" "12.5" "4.0" "28" None None
        "70.50" "45" "562" "https://example.com/alice.jpg"
        1704412800000 1704412800000.

Definition rowOfBob : Row :=
  mkRow "receipt-1" "bob" None "06/01/2024" "9.0" "3.8" "27" None None
        "68.00" "43" "387" "https://example.com/bob.jpg"
        1704499200000 1704499200000.

Definition twoOwners : Backend :=
  mkBackend [alice; bob] [rowOfAlice; rowOfBob] [] 1704585600000 2.

(** A record whose quantity is below the range of the edit form. *)
Definition tooSmallQuantity : ReceiptData :=
  mkData (JS.JStr "07/01/2024") (JS.JStr "0.099") (JS.JStr "4.0")
         (JS.JStr "28") JS.JUndefined JS.JUndefined (JS.JStr "70.50")
         (JS.JStr "45") (JS.JStr "562") (JS.JStr "").

(** The text stored for [v || '']. *)
Definition orEmpty (v : JS.Value) : string :=
  match v with
  | JS.JStr s => s
  | _ => ""
  end.

(** The seven required text columns, under the names of the parsed
    data. *)
Definition requiredColumns : list (string * (Row -> string)) :=
  [ ("date", date); ("quantity", quantity); ("fat", fat); ("clr", clr);
    ("baseRate", base_rate); ("rate", rate); ("amount", amount) ].

End StoreVocabulary.

Section FilterVocabulary.
Import Records.

(** The capital letters with their small letters: [A] to [Z], and the
    accented capitals of the code units below 256. *)
Definition casePairs : list (ascii * ascii) :=
  combine (JS.chars "ABCDEFGHIJKLMNOPQRSTUVWXYZ")
          (JS.chars "abcdefghijklmnopqrstuvwxyz") ++
  map (fun k => (ascii_of_nat k, ascii_of_nat (k + 32)))
      (seq 192 23 ++ seq 216 7).

(** Two characters that are the same letter, in whatever case. *)
Definition sameLetter (x y : ascii) : Prop :=
  x = y \/ In (x, y) casePairs \/ In (y, x) casePairs.

Definition isPair (x y : ascii) : bool :=
  existsb (fun p => Ascii.eqb (fst p) x && Ascii.eqb (snd p) y) casePairs.

(** The text [t] contains the text [f], letter case apart: some run of
    characters of [t] spells [f]. *)
Definition containsIgnoringCase (t f : string) : Prop :=
  exists a m c, JS.chars t = a ++ m ++ c /\ Forall2 sameLetter m (JS.chars f).

(** A receipt has a field whose rendered text contains [f], letter case
    apart. *)
Definition someFieldContains (f : string) (r : Receipt) : Prop :=
  exists v, In v (Object_values r) /\ containsIgnoringCase (Form.toString v) f.

(** The amount of a receipt reads as the integer [a]. *)
Definition amountIs (r : Receipt) (a : Z) : Prop :=
  JS.parseFloat (Form.toString (prop r "amount")) = JS.Fin (inject_Z a).

End FilterVocabulary.

Section GroupingVocabulary.
Import Records.

Variable monthYear : string -> option string.

(** The receipts filed under the label [k]. *)
Definition groupOf (k : string) (groups : Grouped) : list Receipt :=
  default [] (snd <$> List.find (fun kv => String.eqb (fst kv) k) groups).

(** The receipts of [l] whose label is [k], in the order of [l]. *)
Definition withLabel (k : string) (l : list Receipt) : list Receipt :=
  List.filter (fun r => bool_decide (labelOf monthYear r = Some k)) l.

End GroupingVocabulary.

Section ExampleReceipts.

(** A receipt as the table returns it: the columns in their order. *)
Definition receiptObject (ident owner day qty fatv clrv base ratev amt url
                          created : string) : Records.Receipt :=
  [ ("id", JS.JStr ident); ("user_id", JS.JStr owner);
    ("uploaded_by_name", JS.JNull); ("date", JS.JStr day);
    ("quantity", JS.JStr qty); ("fat", JS.JStr fatv); ("clr", JS.JStr clrv);
    ("fat_kg", JS.JNull); ("snf_kg", JS.JNull); ("base_rate", JS.JStr base);
    ("rate", JS.JStr ratev); ("amount", JS.JStr amt);
    ("image_url", JS.JStr url); ("created_at", JS.JStr created);
    ("updated_at", JS.JStr created) ].

Definition jan05 : Records.Receipt :=
  receiptObject "7d1f" "alice" "05/01/2024" "2.5" "4.0" "28" "70.50" "40" "100"
                "https://example.com/a.jpg" "2024-01-06T08:00:00+00:00".
Definition jan20 : Records.Receipt :=
  receiptObject "8e2a" "alice" "20/01/2024" "5.0" "4.0" "28" "70.50" "40" "200"
                "https://example.com/b.jpg" "2024-01-21T08:00:00+00:00".
Definition feb01 : Records.Receipt :=
  receiptObject "9f3b" "bob" "01/02/2024" "7.5" "4.0" "28" "70.50" "40" "300"
                "https://example.com/c.jpg" "2024-02-02T08:00:00+00:00".

End ExampleReceipts.

Section FurtherVocabulary.

(** The fields of the manual entry form. *)
Definition manualFields : list string :=
  [ "date"; "quantity"; "fat"; "snfKg"; "rate"; "amount" ].

(** The constraints of the table hold for a record of [userId]: the
    owner is an account and the seven required columns are strings. *)
Definition insertable (userId : string) (rd : ReceiptService.ReceiptData)
    (b : Supabase.Backend) : bool :=
  Supabase.isAccount userId b &&
  forallb (fun v => bool_decide (is_Some (Supabase.column v)))
          [ ReceiptService.d_date rd; ReceiptService.d_quantity rd;
            ReceiptService.d_fat rd; ReceiptService.d_clr rd;
            ReceiptService.d_base_rate rd; ReceiptService.d_rate rd;
            ReceiptService.d_amount rd ].

(** The rows a listing resolves to. *)
Definition listed (auth : option string) (userId : string)
    (b : Supabase.Backend) : list Supabase.Row :=
  match ReceiptService.getUserReceipts auth userId b with
  | Resolved rows => rows
  | Rejected _ => []
  end.

(** A table of insemination records with one record of each of two
    users. *)
Definition aiOfAlice : AIRecordService.AIRecord :=
  AIRecordService.mkAIRecord "ai-0" "alice" "COW-123" 19727
                             1704412800000 1704412800000.
Definition aiOfBob : AIRecordService.AIRecord :=
  AIRecordService.mkAIRecord "ai-1" "bob" "A001" 19730
                             1704499200000 1704499200000.
Definition aiTable : AIRecordService.Table :=
  AIRecordService.mkTable [aiOfAlice; aiOfBob] 1704585600000 2.

(** The text of a year is four digits that read as the year. *)
Definition yearDigits (y : Z) : bool :=
  match JS.chars (JS.StringOfInt y) with
  | [a; b; c; d] =>
      JS.isDigit a && JS.isDigit b && JS.isDigit c && JS.isDigit d &&
      (JS.digitsValue [a; b; c; d] =? y)
  | _ => false
  end.

End FurtherVocabulary.

(** * Properties *)

(** ** Sanity checks of the JavaScript primitives *)

Example parseFloat_3_2 :
  JS.parseFloat "3.2" = JS.Fin (3602879701896397 # 1125899906842624).
Proof. vm_compute. reflexivity. Qed.
Example parseFloat_exp : JS.parseFloat "  -12.5e-1xyz" = JS.Fin (- 5 # 4).
Proof. vm_compute. reflexivity. Qed.
Example parseFloat_dot : JS.parseFloat ".e5" = JS.NaN.
Proof. vm_compute. reflexivity. Qed.
Example parseFloat_5dot : JS.parseFloat "5.e" = JS.Fin 5.
Proof. vm_compute. reflexivity. Qed.
Example toFixed_ex : JS.toFixed (JS.parseFloat "4.2") 2 = "4.20".
Proof. vm_compute. reflexivity. Qed.
Example toFixed_neg : JS.toFixed (JS.parseFloat "-0.001") 2 = "-0.00".
Proof. vm_compute. reflexivity. Qed.
Example toFixed_1_005 : JS.toFixed (JS.parseFloat "1.005") 2 = "1.00".
Proof. vm_compute. reflexivity. Qed.
Example toFixed_8_325 :
  JS.toFixed (JS.add (JS.parseFloat "7.5")
                     (JS.mul (JS.Fin (1 # 4)) (JS.parseFloat "3.3"))) 2
  = "8.32".
Proof. vm_compute. reflexivity. Qed.
Example add_tenths :
  JS.add (JS.parseFloat "0.1") (JS.parseFloat "0.2")
  = JS.Fin (1351079888211149 # 4503599627370496) /\
  JS.parseFloat "0.3" = JS.Fin (5404319552844595 # 18014398509481984).
Proof. vm_compute. split; reflexivity. Qed.
Example round64_tie_to_even :
  JS.round64 (inject_Z (2 ^ 53 + 1)) = JS.Fin (inject_Z (2 ^ 53)) /\
  JS.round64 (inject_Z (2 ^ 53 + 3)) = JS.Fin (inject_Z (2 ^ 53 + 4)).
Proof. vm_compute. split; reflexivity. Qed.
Example round64_overflow :
  JS.parseFloat "1.7976931348623157e308"
  = JS.Fin (inject_Z (2 ^ 1024 - 2 ^ 971)) /\
  JS.parseFloat "1.7976931348623159e308" = JS.Inf false /\
  JS.parseFloat "-1e400" = JS.Inf true.
Proof. vm_compute. repeat split; reflexivity. Qed.
Example round64_subnormal :
  JS.parseFloat "5e-324" = JS.Fin (1 # Z.to_pos (2 ^ 1074)) /\
  JS.parseFloat "2e-324" = JS.Fin 0.
Proof. vm_compute. split; reflexivity. Qed.
Example toLowerCase_ex : JS.toLowerCase "ALICE 42" = "alice 42".
Proof. vm_compute. reflexivity. Qed.
Example toFixed_0 : JS.toFixed (JS.Fin (5 # 2)) 0 = "3".
Proof. vm_compute. reflexivity. Qed.
Example Number_ex : JS.Number " 12.25 " = JS.Fin (49 # 4).
Proof. vm_compute. reflexivity. Qed.
Example Number_hex :
  JS.Number "0x1F4" = JS.Fin 500 /\ JS.Number " 0B101 " = JS.Fin 5 /\
  JS.Number "0o17" = JS.Fin 15 /\ JS.Number "0x" = JS.NaN /\
  JS.Number "-0x10" = JS.NaN /\ JS.Number "0x1g" = JS.NaN /\
  JS.Number "" = JS.Fin 0 /\ JS.Number "12px" = JS.NaN /\
  JS.Number "-Infinity" = JS.Inf true.
Proof. vm_compute. repeat split; reflexivity. Qed.
Example includes_ex : JS.includes (JS.toLowerCase "January 2024") "uary" = true.
Proof. vm_compute. reflexivity. Qed.

(** ** Rounding to binary64 *)

Lemma roundHalfEven_close (a : Z) (b : positive) :
  0 <= a ->
  2 * Z.abs (JS.roundHalfEven a b * Zpos b - a) <= Zpos b.
Proof.
  intros Ha. unfold JS.roundHalfEven.
  pose proof (Z.div_mod a (Zpos b) ltac:(lia)) as E.
  pose proof (Z.mod_pos_bound a (Zpos b) ltac:(lia)) as B.
  set (k := a / Zpos b) in *. set (r := a mod Zpos b) in *.
  clearbody k r.
  destruct (Z.compare_spec (2 * r) (Zpos b)) as [C|C|C].
  - destruct (Z.even k); nia.
  - nia.
  - nia.
Qed.

Lemma roundHalfEven_close_Q (a : Z) (b : positive) :
  0 <= a ->
  (Qabs (inject_Z (JS.roundHalfEven a b) - (a # b)) <= 1 # 2)%Q.
Proof.
  intros Ha. pose proof (roundHalfEven_close a b Ha) as H.
  set (m := JS.roundHalfEven a b) in *. clearbody m.
  apply Qabs_Qle_condition.
  unfold Qle, Qminus, Qplus, Qopp, inject_Z; simpl.
  split; nia.
Qed.

Lemma Zpos_pow2 (e : Z) : 0 <= e -> Zpos (Z.to_pos (2 ^ e)) = 2 ^ e.
Proof. intros H. apply Z2Pos.id. apply Z.pow_pos_nonneg; lia. Qed.

Lemma inv_pos_Q (p : positive) : (/ inject_Z (Zpos p) == 1 # p)%Q.
Proof. reflexivity. Qed.

Lemma scaleBy_Q (n : Z) (d : positive) (e : Z) :
  (fst (JS.scaleBy n d e) # snd (JS.scaleBy n d e) == (n # d) * 2 ^ (- e))%Q.
Proof.
  unfold JS.scaleBy. destruct (Z.leb_spec 0 e) as [H|H]; simpl fst; simpl snd.
  - rewrite Qpower_opp, <- (Zpower_Qpower 2 e) by assumption.
    rewrite <- (Zpos_pow2 e H), inv_pos_Q.
    unfold Qeq, Qmult; simpl. lia.
  - rewrite <- (Zpower_Qpower 2 (- e)) by lia.
    unfold Qeq, Qmult, inject_Z; simpl. lia.
Qed.

Lemma dyadic_Q (m x : Z) : (JS.dyadic m x == inject_Z m * 2 ^ x)%Q.
Proof.
  unfold JS.dyadic. destruct (Z.leb_spec 0 x) as [H|H].
  - rewrite inject_Z_mult, (Zpower_Qpower 2 x) by assumption. reflexivity.
  - rewrite Qred_correct.
    replace x with (- - x) at 2 by lia.
    rewrite Qpower_opp, <- (Zpower_Qpower 2 (- x)) by lia.
    rewrite <- (Zpos_pow2 (- x)) by lia. rewrite inv_pos_Q.
    unfold Qeq, Qmult, inject_Z; simpl. lia.
Qed.

Lemma pow2_pos (x : Z) : (0 < 2 ^ x)%Q.
Proof. apply Qpower_0_lt. reflexivity. Qed.

Lemma pow2_add (x y : Z) : (2 ^ (x + y) == 2 ^ x * 2 ^ y)%Q.
Proof. apply Qpower_plus. discriminate. Qed.

Lemma pow2_opp (x : Z) : (2 ^ (- x) * 2 ^ x == 1)%Q.
Proof.
  rewrite <- pow2_add. replace (- x + x) with 0 by lia. reflexivity.
Qed.

Lemma exponentOf_le (n : Z) (d : positive) :
  0 < n -> (2 ^ JS.exponentOf n d <= n # d)%Q.
Proof.
  intros Hn. unfold JS.exponentOf.
  set (e0 := Z.log2 n - Z.log2 (Zpos d)).
  pose proof (scaleBy_Q n d e0) as S.
  destruct (JS.scaleBy n d e0) as [a0 b0]; simpl fst in S; simpl snd in S.
  destruct (Z.ltb_spec a0 (Zpos b0)) as [L|L].
  - (* below 2^e0 *)
    destruct (Z.log2_spec n Hn) as [Ln _].
    destruct (Z.log2_spec (Zpos d) ltac:(lia)) as [_ Ld].
    pose proof (Z.log2_nonneg n) as N0. pose proof (Z.log2_nonneg (Zpos d)) as D0.
    assert (A : (2 ^ Z.log2 n <= inject_Z n)%Q).
    { rewrite <- (Zpower_Qpower 2) by assumption. rewrite <- Zle_Qle. exact Ln. }
    assert (B : (inject_Z (Zpos d) <= 2 ^ (Z.log2 (Zpos d) + 1))%Q).
    { rewrite <- (Zpower_Qpower 2) by lia. rewrite <- Zle_Qle.
      replace (Z.log2 (Zpos d) + 1) with (Z.succ (Z.log2 (Zpos d))) by lia. lia. }
    replace (e0 - 1) with (Z.log2 n + - (Z.log2 (Zpos d) + 1)) by (unfold e0; lia).
    rewrite pow2_add.
    pose proof (pow2_opp (Z.log2 (Zpos d) + 1)) as O.
    pose proof (pow2_pos (- (Z.log2 (Zpos d) + 1))) as P1.
    pose proof (pow2_pos (Z.log2 n)) as P2.
    assert (E : (n # d == inject_Z n * / inject_Z (Zpos d))%Q).
    { rewrite inv_pos_Q. unfold Qeq, Qmult, inject_Z; simpl. lia. }
    rewrite E.
    assert (Dp : (0 < inject_Z (Zpos d))%Q) by (rewrite <- (Zlt_Qlt 0); lia).
    apply Qle_shift_div_l; [exact Dp|].
    set (u := (2 ^ Z.log2 n)%Q) in *. set (v := (2 ^ (- (Z.log2 (Zpos d) + 1)))%Q) in *.
    set (w := (2 ^ (Z.log2 (Zpos d) + 1))%Q) in *.
    set (dd := inject_Z (Zpos d)) in *. set (nn := inject_Z n) in *.
    clearbody u v w dd nn. clear - O P1 P2 A B Dp.
    assert (UV : (0 <= u * v)%Q) by nra.
    assert (T : (u * v * dd <= u * v * w)%Q) by nra.
    assert (U : (u * v * w == u)%Q).
    { transitivity (u * (v * w))%Q; [ring|]. rewrite O. ring. }
    rewrite U in T. lra.
  - (* at least 2^e0 *)
    assert (One : (1 <= (n # d) * 2 ^ (- e0))%Q).
    { rewrite <- S. unfold Qle; simpl. lia. }
    pose proof (pow2_opp e0) as O. pose proof (pow2_pos e0) as P.
    set (q := (n # d)%Q) in *. set (u := (2 ^ e0)%Q) in *.
    set (v := (2 ^ (- e0))%Q) in *. clearbody q u v. clear - One O P.
    assert (U : (q * v * u == q)%Q).
    { transitivity (q * (v * u))%Q; [ring|]. rewrite O. ring. }
    assert (T : (1 * u <= q * v * u)%Q) by nra.
    rewrite U in T. lra.
Qed.

Lemma round64pos_unfold (n : Z) (d : positive) :
  JS.round64pos n d =
  let x := Z.max (JS.exponentOf n d - 52) (-1074) in
  let m := JS.roundHalfEven (fst (JS.scaleBy n d x)) (snd (JS.scaleBy n d x)) in
  if 1024 <=? Z.log2 m + x then None else Some (JS.dyadic m x).
Proof.
  unfold JS.round64pos. cbv zeta.
  destruct (JS.scaleBy n d _) as [a b]; reflexivity.
Qed.

Lemma scaleBy_nonneg (n : Z) (d : positive) (e : Z) :
  0 <= n -> 0 <= fst (JS.scaleBy n d e).
Proof.
  intros H. unfold JS.scaleBy. destruct (0 <=? e); simpl; [assumption|].
  apply Z.mul_nonneg_nonneg; [assumption|]. apply Z.pow_nonneg. lia.
Qed.

Lemma round64pos_close (n : Z) (d : positive) (y : Q) :
  0 < n -> JS.round64pos n d = Some y ->
  (Qabs (y - (n # d)) <= (n # d) * 2 ^ (-53) + 2 ^ (-1075))%Q.
Proof.
  intros Hn. rewrite round64pos_unfold. cbv zeta.
  set (e := JS.exponentOf n d). set (x := Z.max (e - 52) (-1074)).
  set (a := fst (JS.scaleBy n d x)). set (b := snd (JS.scaleBy n d x)).
  destruct (1024 <=? _); [discriminate|]. intros [= <-].
  pose proof (roundHalfEven_close_Q a b (scaleBy_nonneg n d x ltac:(lia))) as R.
  pose proof (scaleBy_Q n d x) as S. fold a b in S.
  pose proof (exponentOf_le n d Hn) as E. fold e in E.
  set (m := JS.roundHalfEven a b) in *. clearbody m.
  rewrite dyadic_Q. rewrite S in R.
  pose proof (pow2_opp x) as O. pose proof (pow2_pos x) as Px.
  assert (X : (2 ^ x <= (n # d) * 2 ^ (-52) + 2 ^ (-1074))%Q).
  { pose proof (pow2_pos (-1074)) as P1. pose proof (pow2_pos (-52)) as P2.
    assert (Q0 : (0 < n # d)%Q) by (unfold Qlt; simpl; lia).
    unfold x. destruct (Z.max_spec (e - 52) (-1074)) as [[_ ->]|[_ ->]].
    - set (u := (2 ^ (-1074))%Q) in *. set (v := (2 ^ (-52))%Q) in *.
      clearbody u v. nra.
    - replace (e - 52) with (e + -52) by lia. rewrite pow2_add.
      set (u := (2 ^ (-1074))%Q) in *. set (v := (2 ^ (-52))%Q) in *.
      set (w := (2 ^ e)%Q) in *. clearbody u v w. nra. }
  assert (H53 : (2 ^ (-53) == 2 ^ (-52) * (1 # 2))%Q) by reflexivity.
  assert (H1075 : (2 ^ (-1075) == 2 ^ (-1074) * (1 # 2))%Q) by reflexivity.
  rewrite H53, H1075.
  set (q := (n # d)%Q) in *.
  set (u := (2 ^ (-1074))%Q) in *. set (v := (2 ^ (-52))%Q) in *.
  set (p := (2 ^ x)%Q) in *. set (p' := (2 ^ (- x))%Q) in *.
  set (z := inject_Z m) in *.
  clearbody q u v p p' z. clear - R X O Px.
  apply Qabs_Qle_condition in R. destruct R as [R1 R2].
  assert (T : (z * p - q == (z - q * p') * p)%Q).
  { transitivity (z * p - q * (p' * p))%Q; [rewrite O|]; ring. }
  rewrite T. apply Qabs_Qle_condition. split; nra.
Qed.

Lemma round64_close (q y : Q) :
  JS.round64 q = JS.Fin y ->
  (Qabs (y - q) <= Qabs q * 2 ^ (-53) + 2 ^ (-1075))%Q.
Proof.
  destruct q as [n d]. unfold JS.round64; simpl Qnum; simpl Qden.
  destruct n as [|n|n].
  - intros [= <-]. vm_compute. discriminate.
  - destruct (JS.round64pos (Zpos n) d) as [v|] eqn:E; [|discriminate].
    intros [= <-]. rewrite (Qabs_pos (Zpos n # d)) by (unfold Qle; simpl; lia).
    apply round64pos_close; [lia | exact E].
  - destruct (JS.round64pos (Zpos n) d) as [v|] eqn:E; [|discriminate].
    intros [= <-].
    assert (A : (Qabs (Zneg n # d) == Zpos n # d)%Q) by reflexivity.
    rewrite A.
    assert (B : (- v - (Zneg n # d) == - (v - (Zpos n # d)))%Q).
    { change (Zneg n # d) with (- (Zpos n # d))%Q. ring. }
    rewrite B, Qabs_opp.
    apply round64pos_close; [lia | exact E].
Qed.

Lemma exponentOf_int (n : Z) : 0 < n -> JS.exponentOf n 1 = Z.log2 n.
Proof.
  intros Hn. unfold JS.exponentOf. change (Z.log2 1) with 0. rewrite Z.sub_0_r.
  pose proof (Z.log2_nonneg n) as L0.
  unfold JS.scaleBy. destruct (Z.leb_spec 0 (Z.log2 n)); [|lia]. simpl fst; simpl snd.
  rewrite Pos.mul_1_l, Zpos_pow2 by assumption.
  destruct (Z.log2_spec n Hn) as [L _].
  destruct (Z.ltb_spec n (2 ^ Z.log2 n)); [lia|reflexivity].
Qed.

Lemma roundHalfEven_int (a : Z) : JS.roundHalfEven a 1 = a.
Proof.
  unfold JS.roundHalfEven. rewrite Z.mod_1_r, Z.div_1_r. reflexivity.
Qed.

Lemma Qred_int (a : Z) (p : positive) : Qred (a * Zpos p # p) = inject_Z a.
Proof.
  rewrite <- (Qcanon.Qred_identity (inject_Z a)) by (simpl; apply Z.gcd_1_r).
  apply Qred_complete. unfold Qeq, inject_Z; simpl. lia.
Qed.

Lemma round64pos_int (n : Z) :
  0 < n < 2 ^ 53 -> JS.round64pos n 1 = Some (inject_Z n).
Proof.
  intros [Hn Hb]. rewrite round64pos_unfold. cbv zeta.
  rewrite exponentOf_int by assumption.
  pose proof (Z.log2_nonneg n) as L0.
  assert (L52 : Z.log2 n < 53) by (apply Z.log2_lt_pow2; lia).
  rewrite Z.max_l by lia.
  unfold JS.scaleBy, JS.dyadic.
  destruct (Z.leb_spec 0 (Z.log2 n - 52)) as [H|H]; simpl fst; simpl snd.
  - assert (E : Z.log2 n - 52 = 0) by lia. rewrite E.
    change (1 * Z.to_pos (2 ^ 0))%positive with 1%positive.
    rewrite roundHalfEven_int.
    destruct (Z.leb_spec 1024 (Z.log2 n + 0)); [lia|].
    change (2 ^ 0) with 1. rewrite Z.mul_1_r. reflexivity.
  - rewrite roundHalfEven_int.
    rewrite Z.log2_mul_pow2 by lia.
    destruct (Z.leb_spec 1024 (- (Z.log2 n - 52) + Z.log2 n + (Z.log2 n - 52))); [lia|].
    f_equal.
    rewrite <- (Zpos_pow2 (- (Z.log2 n - 52))) at 1 by lia.
    apply Qred_int.
Qed.

Lemma round64_int (k : Z) :
  Z.abs k < 2 ^ 53 -> JS.round64 (inject_Z k) = JS.Fin (inject_Z k).
Proof.
  intros H. unfold JS.round64, inject_Z; simpl Qnum; simpl Qden.
  destruct k as [|p|p]; [reflexivity| |].
  - rewrite round64pos_int by lia. reflexivity.
  - rewrite round64pos_int by lia. reflexivity.
Qed.

Lemma add_int (a b : Z) :
  Z.abs (a + b) < 2 ^ 53 ->
  JS.add (JS.Fin (inject_Z a)) (JS.Fin (inject_Z b)) = JS.Fin (inject_Z (a + b)).
Proof.
  intros H. unfold JS.add.
  replace (inject_Z a + inject_Z b)%Q with (inject_Z (a + b)).
  - apply round64_int, H.
  - unfold Qplus, inject_Z; simpl. rewrite !Z.mul_1_r. reflexivity.
Qed.

(** ** Texts *)

Lemma chars_app (a b : string) :
  JS.chars (a +:+ b) = JS.chars a ++ JS.chars b.
Proof.
  unfold JS.chars. induction a as [|c a IH]; simpl; [reflexivity|].
  f_equal. exact IH.
Qed.

Lemma str_chars (s : string) : JS.str (JS.chars s) = s.
Proof. apply string_of_list_ascii_of_string. Qed.

Lemma chars_str (l : list ascii) : JS.chars (JS.str l) = l.
Proof. apply list_ascii_of_string_of_list_ascii. Qed.

Lemma check_range (P : Z -> bool) (lo len : Z) :
  forallb P (map (fun k => lo + Z.of_nat k) (seq 0 (Z.to_nat len))) = true ->
  forall n, lo <= n < lo + len -> P n = true.
Proof.
  intros H n Hn. rewrite forallb_forall in H. apply H.
  apply in_map_iff. exists (Z.to_nat (n - lo)). split; [lia|].
  apply in_seq. lia.
Qed.

(** *** Decimal numerals *)

Lemma digitsValue_snoc (ds : list ascii) (c : ascii) :
  JS.digitsValue (ds ++ [c]) = 10 * JS.digitsValue ds + JS.digitValue c.
Proof. unfold JS.digitsValue. rewrite fold_left_app. reflexivity. Qed.

Lemma pretty_N_char_digit (r : N) :
  (r < 10)%N ->
  JS.isDigit (pretty_N_char r) = true /\
  JS.digitValue (pretty_N_char r) = Z.of_N r.
Proof.
  intros H.
  assert (C : forallb (fun k => JS.isDigit (pretty_N_char (Z.to_N k)) &&
                                (JS.digitValue (pretty_N_char (Z.to_N k)) =? k))
                (map (fun k => 0 + Z.of_nat k) (seq 0 (Z.to_nat 10))) = true)
    by (vm_compute; reflexivity).
  pose proof (check_range _ 0 10 C (Z.of_N r) ltac:(lia)) as P.
  cbv beta in P. rewrite N2Z.id in P. apply andb_prop in P as [P1 P2].
  split; [exact P1 | lia].
Qed.

Lemma pretty_N_go_digits (x : N) (s : string) :
  exists ds,
    JS.chars (pretty_N_go x s) = ds ++ JS.chars s /\
    forallb JS.isDigit ds = true /\
    JS.digitsValue ds = Z.of_N x /\
    ((0 < x)%N -> ds <> []).
Proof.
  revert s. induction (N.lt_wf_0 x) as [x _ IH]. intros s.
  destruct (N.eq_dec x 0%N) as [->|Hx].
  - exists []. rewrite pretty_N_go_0. repeat split; [lia].
  - rewrite pretty_N_go_step by lia.
    assert (Hd : (x `div` 10 < x)%N) by (apply N.div_lt; lia).
    destruct (IH _ Hd (String (pretty_N_char (x `mod` 10)) s))
      as (ds & E & D & V & _).
    destruct (pretty_N_char_digit (x `mod` 10)%N) as [D1 V1].
    { apply N.mod_lt. lia. }
    exists (ds ++ [pretty_N_char (x `mod` 10)]). repeat split.
    + rewrite E. rewrite <- app_assoc. reflexivity.
    + rewrite forallb_app, D. simpl. rewrite D1. reflexivity.
    + rewrite digitsValue_snoc, V, V1.
      pose proof (N.div_mod x 10 ltac:(lia)). lia.
    + intros _ N. apply app_eq_nil in N as [_ N]. discriminate.
Qed.

(** [String(n)] of a non-negative integer is its decimal numeral. *)
Lemma StringOfInt_digits (n : Z) :
  0 <= n ->
  JS.chars (JS.StringOfInt n) <> [] /\
  forallb JS.isDigit (JS.chars (JS.StringOfInt n)) = true /\
  JS.digitsValue (JS.chars (JS.StringOfInt n)) = n.
Proof.
  intros Hn. unfold JS.StringOfInt.
  destruct (Z.ltb_spec n 0); [lia|].
  unfold pretty, pretty_N.
  destruct (decide (Z.to_N n = 0%N)) as [E|E].
  - repeat split; [discriminate|]. simpl. vm_compute. lia.
  - destruct (pretty_N_go_digits (Z.to_N n) "") as (ds & C & D & V & N).
    simpl in C. rewrite app_nil_r in C. rewrite C.
    repeat split; [apply N; lia | exact D | lia].
Qed.

(** *** Substrings and letter case *)

Lemma isPair_In (x y : ascii) : isPair x y = true <-> In (x, y) casePairs.
Proof.
  unfold isPair. rewrite existsb_exists. split.
  - intros ([a b] & I & E). simpl in E. apply andb_prop in E as [E1 E2].
    apply Ascii.eqb_eq in E1, E2. subst. exact I.
  - intros I. exists (x, y). split; [exact I|]. simpl.
    rewrite !Ascii.eqb_refl. reflexivity.
Qed.

Lemma all_ascii (P : ascii -> bool) :
  forallb P (map ascii_of_nat (seq 0 256)) = true -> forall c, P c = true.
Proof.
  intros H c. rewrite forallb_forall in H. apply H.
  apply in_map_iff. exists (nat_of_ascii c). split.
  - apply ascii_nat_embedding.
  - apply in_seq. pose proof (nat_ascii_bounded c). lia.
Qed.

Lemma lowerChar_sameLetter (x y : ascii) :
  JS.lowerChar x = JS.lowerChar y <-> sameLetter x y.
Proof.
  assert (C : Ascii.eqb (JS.lowerChar x) (JS.lowerChar y)
              = Ascii.eqb x y || isPair x y || isPair y x).
  { pose proof (all_ascii (fun x => forallb (fun y =>
        Bool.eqb (Ascii.eqb (JS.lowerChar x) (JS.lowerChar y))
                 (Ascii.eqb x y || isPair x y || isPair y x))
        (map ascii_of_nat (seq 0 256))) ltac:(vm_compute; reflexivity) x) as H.
    cbv beta in H. apply Bool.eqb_prop. apply (all_ascii _ H y). }
  unfold sameLetter. rewrite <- !isPair_In, <- (Ascii.eqb_eq x y).
  rewrite <- Ascii.eqb_eq, C.
  rewrite !Bool.orb_true_iff. tauto.
Qed.

Lemma isPrefix_spec (p l : list ascii) :
  JS.isPrefix p l = true <-> exists c, l = p ++ c.
Proof.
  revert l. induction p as [|a p IH]; intros l; simpl.
  - split; [intros _; exists l; reflexivity | reflexivity].
  - destruct l as [|b l].
    + split; [discriminate | intros (c & E); discriminate].
    + destruct (Ascii.eqb_spec a b) as [->|N].
      * rewrite IH. split; intros (c & E); exists c; [rewrite E; reflexivity|].
        injection E as E. exact E.
      * split; [discriminate|]. intros (c & E). injection E as E _. congruence.
Qed.

Lemma occursIn_spec (p l : list ascii) :
  JS.occursIn p l = true <-> exists a c, l = a ++ p ++ c.
Proof.
  induction l as [|b l IH].
  - simpl. rewrite Bool.orb_false_r, isPrefix_spec. split.
    + intros (c & E). exists [], c. exact E.
    + intros (a & c & E). destruct a; [exists c; exact E | discriminate].
  - change (JS.occursIn p (b :: l))
      with (JS.isPrefix p (b :: l) || JS.occursIn p l).
    rewrite Bool.orb_true_iff, IH, isPrefix_spec. split.
    + intros [(c & E)|(a & c & E)].
      * exists [], c. exact E.
      * exists (b :: a), c. rewrite E. reflexivity.
    + intros (a & c & E). destruct a as [|b' a].
      * left. exists c. exact E.
      * right. injection E as _ E. exists a, c. exact E.
Qed.

Lemma map_lower_Forall2 (m f : list ascii) :
  map JS.lowerChar m = map JS.lowerChar f <-> Forall2 sameLetter m f.
Proof.
  revert f. induction m as [|x m IH]; intros [|y f]; simpl.
  - split; [constructor | reflexivity].
  - split; [discriminate | intros H; inversion H].
  - split; [discriminate | intros H; inversion H].
  - split.
    + intros [= E1 E2]. constructor; [apply lowerChar_sameLetter, E1 | apply IH, E2].
    + intros H. inversion H as [|? ? ? ? S F]; subst. f_equal.
      * apply lowerChar_sameLetter, S.
      * apply IH, F.
Qed.

(** [t.toLowerCase().includes(f.toLowerCase())]: some run of characters
    of [t] spells [f], letter case apart. *)
Lemma includes_lower_spec (t f : string) :
  JS.includes (JS.toLowerCase t) (JS.toLowerCase f) = true <->
  exists a m c, JS.chars t = a ++ m ++ c /\ Forall2 sameLetter m (JS.chars f).
Proof.
  unfold JS.includes, JS.toLowerCase. rewrite !chars_str, occursIn_spec. split.
  - intros (A & C & E).
    apply List.map_eq_app in E as (a & r & -> & <- & E).
    apply List.map_eq_app in E as (m & c & -> & E & <-).
    exists a, m, c. split; [reflexivity|]. apply map_lower_Forall2, E.
  - intros (a & m & c & E & F). rewrite E, !List.map_app.
    exists (map JS.lowerChar a), (map JS.lowerChar c).
    apply map_lower_Forall2 in F. rewrite F. reflexivity.
Qed.

(** ** Properties of [compressImage] *)

Section ImageNormalizerFacts.
Import ImageNormalizer.

Lemma Qfloor_scale (a b c : Z) :
  0 < c -> Qfloor (inject_Z a * inject_Z b / inject_Z c) = a * b / c.
Proof.
  intros Hc. destruct c as [|p|p]; try lia.
  unfold Qfloor, Qdiv, Qmult, Qinv, inject_Z; simpl.
  rewrite Z.mul_1_r. reflexivity.
Qed.

Lemma canvasOf_wide (img : Image) :
  width img > height img -> width img > maxSize ->
  canvasOf img = mkCanvas maxSize (height img * maxSize / width img).
Proof.
  intros H1 H2. unfold canvasOf, newDimensions.
  assert (E1 : (width img >? height img) = true) by (apply Z.gtb_lt; lia).
  assert (E2 : (width img >? maxSize) = true) by (apply Z.gtb_lt; lia).
  rewrite E1, E2. simpl andb. cbv iota.
  rewrite Qfloor_scale by (unfold maxSize in *; lia).
  rewrite Qfloor_Z. reflexivity.
Qed.

Lemma canvasOf_tall (img : Image) :
  ~ (width img > height img /\ width img > maxSize) ->
  height img > maxSize ->
  canvasOf img = mkCanvas (width img * maxSize / height img) maxSize.
Proof.
  intros H1 H2. unfold canvasOf, newDimensions.
  assert (E1 : (width img >? height img) && (width img >? maxSize) = false).
  { apply andb_false_iff.
    destruct (Z.gtb_spec (width img) (height img));
      destruct (Z.gtb_spec (width img) maxSize); auto; lia. }
  assert (E2 : (height img >? maxSize) = true) by (apply Z.gtb_lt; lia).
  rewrite E1, E2.
  rewrite Qfloor_scale by (unfold maxSize in *; lia).
  rewrite Qfloor_Z. reflexivity.
Qed.

Lemma canvasOf_small (img : Image) :
  ~ (width img > height img /\ width img > maxSize) ->
  height img <= maxSize ->
  canvasOf img = mkCanvas (width img) (height img).
Proof.
  intros H1 H2. unfold canvasOf, newDimensions.
  assert (E1 : (width img >? height img) && (width img >? maxSize) = false).
  { apply andb_false_iff.
    destruct (Z.gtb_spec (width img) (height img));
      destruct (Z.gtb_spec (width img) maxSize); auto; lia. }
  assert (E2 : (height img >? maxSize) = false).
  { destruct (Z.gtb_spec (height img) maxSize); auto; lia. }
  rewrite E1, E2, !Qfloor_Z. reflexivity.
Qed.

(** C5.  For every decodable input picture the canvas that
    [compressImage] encodes is at most 1600 px wide and high, its sides
    are proportional to the input's up to the dropped fraction of a
    pixel, a picture that is within 1600 px on both sides keeps its
    size, and the result is the canvas encoded as [image/jpeg] at
    quality 0.85 (a canvas with an empty side has no encoding and the
    promise is rejected). *)
Theorem compressImage_normalizes (file : File) (img : Image) :
  picture file = Some img ->
  0 <= width img -> 0 <= height img ->
  let c := canvasOf img in
  canvas_width c <= 1600 /\ canvas_height c <= 1600 /\
  Z.abs (canvas_width c * height img - canvas_height c * width img)
    < Z.max 1 (Z.max (width img) (height img)) /\
  (width img <= 1600 -> height img <= 1600 ->
   c = mkCanvas (width img) (height img)) /\
  compressImage file =
    (if (canvas_width c <=? 0) || (canvas_height c <=? 0)
     then Rejected "Compression failed"
     else Resolved (mkBlob (canvas_width c) (canvas_height c)
                           "image/jpeg" (85 # 100))).
Proof.
  intros Hp Hw Hh c.
  assert (Hout : compressImage file =
    (if (canvas_width c <=? 0) || (canvas_height c <=? 0)
     then Rejected "Compression failed"
     else Resolved (mkBlob (canvas_width c) (canvas_height c)
                           "image/jpeg" (85 # 100)))).
  { unfold compressImage, toBlob. rewrite Hp. fold c.
    destruct ((canvas_width c <=? 0) || (canvas_height c <=? 0));
      reflexivity. }
  destruct (Z_gt_dec (width img) (height img)) as [G1|G1];
    [destruct (Z_gt_dec (width img) maxSize) as [G2|G2]|].
  - (* landscape, wider than the cap *)
    pose proof (canvasOf_wide img G1 G2) as E. fold c in E.
    unfold maxSize in *. rewrite E in *; simpl.
    pose proof (Z.div_mod (height img * 1600) (width img) ltac:(lia)).
    pose proof (Z.mod_pos_bound (height img * 1600) (width img) ltac:(lia)).
    assert (height img * 1600 / width img <= 1600).
    { apply Z.div_le_upper_bound; lia. }
    repeat split; try lia; try exact Hout.
  - (* landscape within the cap *)
    assert (E : c = mkCanvas (width img) (height img)).
    { apply canvasOf_small; unfold maxSize in *; lia. }
    unfold maxSize in *. rewrite E in *; simpl.
    repeat split; try lia; try exact Hout.
  - destruct (Z_gt_dec (height img) maxSize) as [G3|G3].
    + (* portrait or square, higher than the cap *)
      assert (E : c = mkCanvas (width img * maxSize / height img) maxSize).
      { apply canvasOf_tall; lia. }
      unfold maxSize in *. rewrite E in *; simpl.
      pose proof (Z.div_mod (width img * 1600) (height img) ltac:(lia)).
      pose proof (Z.mod_pos_bound (width img * 1600) (height img) ltac:(lia)).
      assert (width img * 1600 / height img <= 1600).
      { apply Z.div_le_upper_bound; lia. }
      repeat split; try lia; try exact Hout.
    + assert (E : c = mkCanvas (width img) (height img)).
      { apply canvasOf_small; unfold maxSize in *; lia. }
      unfold maxSize in *. rewrite E in *; simpl.
      repeat split; try lia; try exact Hout.
Qed.

Lemma compressImage_normalizes_witness :
  let file := mkFile "IMG_0001.jpg" 1704412800000 (Some (mkImage 4000 3000)) in
  compressImage file = Resolved (mkBlob 1600 1200 "image/jpeg" (85 # 100)) /\
  canvasOf (mkImage 4000 3000) = mkCanvas 1600 1200.
Proof.
  intros file.
  pose proof (compressImage_normalizes file (mkImage 4000 3000)
                eq_refl ltac:(simpl; lia) ltac:(simpl; lia)) as H.
  simpl in H. destruct H as (_ & _ & _ & _ & H).
  split; [exact H | reflexivity].
Defined.

End ImageNormalizerFacts.

(** ** Merging the edited values: [onSubmit] *)

Lemma spread_again (a b : JS.Object) :
  JS.spread (JS.spread a b) b = JS.spread a b.
Proof.
  unfold JS.spread.
  rewrite (assoc_L (∪)). rewrite (idemp_L (∪)). reflexivity.
Qed.

(** C9.  Merging the same edited values a second time changes nothing:
    the merge [{ ...parsedData, ...data }] is idempotent in [data], and
    so is [onSubmit] on the state of the component. *)
Theorem onSubmit_idempotent (data : JS.Object) :
  (forall parsed : JS.Object,
     JS.spread (JS.spread parsed data) data = JS.spread parsed data) /\
  (forall st : App.State,
     App.onSubmit data (App.onSubmit data st) = App.onSubmit data st).
Proof.
  split.
  - intros parsed. apply spread_again.
  - intros st. unfold App.onSubmit; simpl.
    unfold App.setIsEditing, App.setParsedData; simpl.
    rewrite spread_again. reflexivity.
Qed.

(** ** Extraction: [handleImageUpload] *)

Section ExtractionFacts.
Import App.

Variable apiKey : JS.Value.
Variable JSON_parse : string -> option JS.Object.
Variable newDate : Z -> JSDate.
Variable createObjectURL : Blob -> string.

Lemma upToLastBrace_None (l : list ascii) :
  upToLastBrace l = None <-> ~ In "}"%char l.
Proof.
  induction l as [|x l IH]; simpl.
  - tauto.
  - destruct (upToLastBrace l) as [p|].
    + split; [discriminate|]. intros H. exfalso. apply H. right.
      destruct (in_dec ascii_dec "}"%char l) as [i|n]; [exact i|].
      apply IH in n. discriminate.
    + destruct (Ascii.eqb_spec x "}").
      * subst. split; [discriminate|]. intros H; exfalso; apply H; now left.
      * split; [|reflexivity]. intros _ [E|E]; [congruence|].
        revert E. apply IH. reflexivity.
Qed.

Lemma fromFirstBrace_span (l : list ascii) :
  match fromFirstBrace l with
  | Some r =>
      (exists a b c, l = a ++ "{"%char :: b ++ "}"%char :: c) <-> In "}"%char r
  | None => ~ exists a b c, l = a ++ "{"%char :: b ++ "}"%char :: c
  end.
Proof.
  induction l as [|x l IH]; simpl.
  - intros (a & b & c & E). destruct a; discriminate.
  - destruct (Ascii.eqb_spec x "{") as [->|Hx].
    + split.
      * intros (a & b & c & E). destruct a as [|y a]; simpl in E.
        -- injection E as ->. apply in_or_app. right. now left.
        -- injection E as _ ->. apply in_or_app. right. right.
           apply in_or_app. right. now left.
      * intros Hin. apply in_split in Hin as (b & c & ->).
        exists [], b, c. reflexivity.
    + assert (Hshift :
        (exists a b c, x :: l = a ++ "{"%char :: b ++ "}"%char :: c) <->
        (exists a b c, l = a ++ "{"%char :: b ++ "}"%char :: c)).
      { split.
        - intros (a & b & c & E). destruct a as [|y a]; simpl in E.
          + congruence.
          + injection E as _ ->. eauto.
        - intros (a & b & c & ->). exists (x :: a), b, c. reflexivity. }
      destruct (fromFirstBrace l) as [r|].
      * rewrite Hshift. exact IH.
      * rewrite Hshift. exact IH.
Qed.

Lemma jsonMatch_None (text : string) :
  jsonMatch text = None <-> ~ hasJsonSpan text.
Proof.
  unfold jsonMatch, hasJsonSpan.
  pose proof (fromFirstBrace_span (JS.chars text)) as H.
  destruct (fromFirstBrace (JS.chars text)) as [r|].
  - pose proof (upToLastBrace_None r) as U.
    destruct (upToLastBrace r) as [p|].
    + split; [discriminate|]. intros N. exfalso. apply N, H.
      destruct (in_dec ascii_dec "}"%char r) as [i|n]; [exact i|].
      apply U in n. discriminate.
    + split; [|reflexivity]. intros _ S. apply H in S.
      revert S. apply U. reflexivity.
  - split; [|reflexivity]. intros _. exact H.
Qed.

Lemma extract_malformed (file : File) (text : string) :
  ~ hasJsonSpan text \/
  (exists span, jsonMatch text = Some span /\ JSON_parse span = None) ->
  extract JSON_parse newDate file text = None.
Proof.
  unfold extract. intros [H|(span & -> & ->)]; [|reflexivity].
  apply jsonMatch_None in H. rewrite H. reflexivity.
Qed.

(** C4.  A response text without a brace span, or whose span
    [JSON.parse] rejects, yields no parsed data: the extraction step
    fails as a whole, the state holds no record afterwards (whatever it
    held before), processing has ended and the failure is reported. *)
Theorem malformed_response_yields_no_record
    (file : File) (text : string) (st : State) :
  ~ hasJsonSpan text \/
  (exists span, jsonMatch text = Some span /\ JSON_parse span = None) ->
  extract JSON_parse newDate file text = None /\
  (JS.truthy apiKey = true ->
   let st' := handleImageUpload apiKey JSON_parse newDate createObjectURL
                (Some file) (Resolved text) st in
   parsedData st' = None /\ isProcessing st' = false /\
   last (alerts st') = Some processingFailed).
Proof.
  intros H. pose proof (extract_malformed file text H) as E.
  split; [exact E|]. intros K st'. subst st'.
  unfold handleImageUpload. rewrite K. simpl negb. cbv iota.
  destruct (ImageNormalizer.compressImage file) as [blob|reason].
  - rewrite E. simpl. rewrite last_snoc. auto.
  - simpl. rewrite last_snoc. auto.
Qed.

(** *** The capture date *)


Lemma day_two_digits (n : Z) : 1 <= n <= 31 -> twoDigits dayPart n = true.
Proof.
  intros H. apply (check_range (twoDigits dayPart) 1 31); [|lia].
  vm_compute. reflexivity.
Qed.

Lemma month_two_digits (n : Z) : 1 <= n <= 12 -> twoDigits monthPart n = true.
Proof.
  intros H. apply (check_range (twoDigits monthPart) 1 12); [|lia].
  vm_compute. reflexivity.
Qed.

Lemma year_four_digits (y : Z) : 1000 <= y <= 9999 -> fourDigits y = true.
Proof.
  intros H. apply (check_range fourDigits 1000 9000); [|lia].
  vm_compute. reflexivity.
Qed.

Lemma twoDigits_inv (part : ascii -> ascii -> bool) (n : Z) :
  twoDigits part n = true ->
  exists a b, pad2 n = [a; b] /\ JS.isDigit a = true /\ JS.isDigit b = true /\
              10 * JS.digitValue a + JS.digitValue b = n /\ part a b = true.
Proof.
  unfold twoDigits. destruct (pad2 n) as [|a [|b [|c l]]]; try discriminate.
  intros H. apply andb_prop in H as [H Hp]. apply andb_prop in H as [H He].
  apply andb_prop in H as [Ha Hb].
  exists a, b. repeat split; auto. now apply Z.eqb_eq.
Qed.

Lemma getImageCaptureDate_chars (file : File) :
  JS.chars (getImageCaptureDate newDate file) =
  pad2 (getDate (newDate (lastModified file))) ++ "/"%char ::
  pad2 (getMonth (newDate (lastModified file)) + 1) ++ "/"%char ::
  JS.chars (JS.StringOfInt (getFullYear (newDate (lastModified file)))).
Proof.
  unfold getImageCaptureDate, pad2. rewrite !chars_app. reflexivity.
Qed.

Lemma datePattern_capture (file : File) :
  let d := newDate (lastModified file) in
  1 <= getDate d <= 31 -> 0 <= getMonth d <= 11 ->
  (exists d1 d2 m1 m2,
     JS.chars (getImageCaptureDate newDate file) =
       d1 :: d2 :: "/"%char :: m1 :: m2 :: "/"%char ::
       JS.chars (JS.StringOfInt (getFullYear d)) /\
     JS.isDigit d1 = true /\ JS.isDigit d2 = true /\
     JS.isDigit m1 = true /\ JS.isDigit m2 = true /\
     10 * JS.digitValue d1 + JS.digitValue d2 = getDate d /\
     10 * JS.digitValue m1 + JS.digitValue m2 = getMonth d + 1) /\
  (1000 <= getFullYear d <= 9999 ->
   datePattern (getImageCaptureDate newDate file) = true).
Proof.
  intros d Hd Hm.
  destruct (twoDigits_inv _ _ (day_two_digits _ Hd))
    as (d1 & d2 & Ed & Hd1 & Hd2 & Vd & Pd).
  assert (Hm' : 1 <= getMonth d + 1 <= 12) by lia.
  destruct (twoDigits_inv _ _ (month_two_digits _ Hm'))
    as (m1 & m2 & Em & Hm1 & Hm2 & Vm & Pm).
  pose proof (getImageCaptureDate_chars file) as E.
  fold d in E. rewrite Ed, Em in E. simpl in E.
  split.
  - exists d1, d2, m1, m2. repeat split; assumption.
  - intros Hy. apply year_four_digits in Hy. unfold fourDigits in Hy.
    unfold datePattern. rewrite E.
    destruct (JS.chars (JS.StringOfInt (getFullYear d)))
      as [|y1 [|y2 [|y3 [|y4 [|y5 l]]]]]; try discriminate.
    apply andb_prop in Hy as [Hy Y4]. apply andb_prop in Hy as [Hy Y3].
    apply andb_prop in Hy as [Y1 Y2].
    fold (dayPart d1 d2). fold (monthPart m1 m2).
    rewrite Pd, Pm, Y1, Y2, Y3, Y4. reflexivity.
Qed.

(** C6.  When the parsed object has no [date] property, the record built
    by the extraction step carries the capture date of the file: the
    day and the month of its last-modified time, each as two digits, and
    the year, separated by slashes; for a four-digit year the text fits
    the [DD/MM/YYYY] pattern of the edit form.  With the API key set and
    the picture compressed, this record becomes the parsed data. *)
Theorem missing_date_falls_back_to_capture_date
    (file : File) (text span : string) (obj : JS.Object) :
  jsonMatch text = Some span ->
  JSON_parse span = Some obj ->
  obj !! "date" = None ->
  let d := newDate (lastModified file) in
  1 <= getDate d <= 31 -> 0 <= getMonth d <= 11 ->
  exists data,
    extract JSON_parse newDate file text = Some data /\
    JS.get data "date" = JS.JStr (getImageCaptureDate newDate file) /\
    (exists d1 d2 m1 m2,
       JS.chars (getImageCaptureDate newDate file) =
         d1 :: d2 :: "/"%char :: m1 :: m2 :: "/"%char ::
         JS.chars (JS.StringOfInt (getFullYear d)) /\
       JS.isDigit d1 = true /\ JS.isDigit d2 = true /\
       JS.isDigit m1 = true /\ JS.isDigit m2 = true /\
       10 * JS.digitValue d1 + JS.digitValue d2 = getDate d /\
       10 * JS.digitValue m1 + JS.digitValue m2 = getMonth d + 1) /\
    (1000 <= getFullYear d <= 9999 ->
     datePattern (getImageCaptureDate newDate file) = true) /\
    (forall st blob,
       JS.truthy apiKey = true ->
       ImageNormalizer.compressImage file = Resolved blob ->
       parsedData (handleImageUpload apiKey JSON_parse newDate createObjectURL
                     (Some file) (Resolved text) st) = Some data).
Proof.
  intros Hmatch Hparse Hdate d Hd Hm.
  destruct (datePattern_capture file Hd Hm) as [Shape Pat].
  eexists. split; [|split; [|split; [exact Shape|split; [exact Pat|]]]].
  - unfold extract. rewrite Hmatch, Hparse. reflexivity.
  - unfold JS.get, JS.spread. rewrite lookup_union_r by exact Hdate.
    simpl. rewrite lookup_insert_ne by discriminate.
    rewrite lookup_insert_eq. simpl.
    unfold JS.get. rewrite Hdate. reflexivity.
  - intros st blob K C. unfold handleImageUpload.
    rewrite K, C. simpl negb. cbv iota.
    unfold extract. rewrite Hmatch, Hparse. reflexivity.
Qed.

End ExtractionFacts.

Lemma malformed_response_yields_no_record_witness :
  let text := "I am sorry, the picture is too blurry to read." in
  let file := mkFile "IMG_0002.jpg" 1704412800000 (Some (mkImage 800 600)) in
  let st' :=
    App.handleImageUpload (JS.JStr "key") (fun _ => None)
      (fun _ => mkDate 5 0 2024) (fun _ => "blob:preview")
      (Some file) (Resolved text) (App.initial None) in
  ~ hasJsonSpan text /\ App.parsedData st' = None /\
  last (App.alerts st') = Some App.processingFailed.
Proof.
  intros text file st'.
  assert (H : ~ hasJsonSpan text) by (apply jsonMatch_None; reflexivity).
  split; [exact H|].
  pose proof (malformed_response_yields_no_record (JS.JStr "key")
                (fun _ => None) (fun _ => mkDate 5 0 2024)
                (fun _ => "blob:preview") file text (App.initial None)
                (or_introl H)) as (_ & K).
  destruct (K eq_refl) as (P & _ & A). split; assumption.
Defined.

Lemma missing_date_falls_back_to_capture_date_witness :
  let text := "Here it is: {quantity 12.5} as asked" in
  let file := mkFile "IMG_0003.jpg" 1704412800000 (Some (mkImage 800 600)) in
  let parse := fun _ : string =>
    Some ({[ "quantity" := JS.JStr "12.5" ]} : JS.Object) in
  exists data,
    App.extract parse (fun _ => mkDate 5 0 2024) file text = Some data /\
    JS.get data "date" = JS.JStr "05/01/2024".
Proof.
  intros text file parse.
  destruct (missing_date_falls_back_to_capture_date (JS.JStr "key") parse
              (fun _ => mkDate 5 0 2024) (fun _ => "blob:preview")
              file text "{quantity 12.5}" {[ "quantity" := JS.JStr "12.5" ]}
              eq_refl eq_refl eq_refl ltac:(simpl; lia) ltac:(simpl; lia))
    as (data & E & D & _).
  exists data. split; [exact E | exact D].
Defined.

(** ** The manual entry form: the derived lactometer reading *)

Lemma scaled_close (d : nat) (a : Q) :
  (Qabs (inject_Z (JS.scaled d a) / inject_Z (10 ^ Z.of_nat d) - a)
   <= (1 # 2) / inject_Z (10 ^ Z.of_nat d))%Q.
Proof.
  unfold JS.scaled.
  set (p := inject_Z (10 ^ Z.of_nat d)).
  assert (Hp : (0 < p)%Q).
  { unfold p. rewrite <- (Zlt_Qlt 0). apply Z.pow_pos_nonneg; lia. }
  pose proof (Qfloor_le (a * p + (1 # 2))) as L.
  pose proof (Qlt_floor (a * p + (1 # 2))) as U.
  rewrite inject_Z_plus in U. change (inject_Z 1) with 1%Q in U.
  generalize dependent (Qfloor (a * p + (1 # 2))). intros n L U.
  assert (E : (inject_Z n / p - a == (inject_Z n - a * p) / p)%Q).
  { field. intros Z0. rewrite Z0 in Hp. discriminate. }
  rewrite E. unfold Qdiv. rewrite Qabs_Qmult.
  rewrite (Qabs_pos (/ p)) by (apply Qlt_le_weak, Qinv_lt_0_compat, Hp).
  apply Qmult_le_compat_r; [|apply Qlt_le_weak, Qinv_lt_0_compat, Hp].
  apply Qabs_Qle_condition. clear E.
  set (y := (a * p)%Q) in *. clearbody y.
  set (z := inject_Z n) in *. clearbody z.
  split; lra.
Qed.

Lemma scaled_nonneg (d : nat) (a : Q) : (0 <= a)%Q -> 0 <= JS.scaled d a.
Proof.
  intros Ha. unfold JS.scaled.
  change 0 with (Qfloor 0). apply Qfloor_resp_le.
  assert (P : (0 <= inject_Z (10 ^ Z.of_nat d))%Q).
  { rewrite <- (Zle_Qle 0). apply Z.pow_nonneg. lia. }
  set (p := inject_Z (10 ^ Z.of_nat d)) in *. clearbody p. nra.
Qed.

Lemma fraction_two_digits (k : Z) :
  0 <= k < 100 -> twoDigits (fun _ _ => true) k = true.
Proof.
  intros H. apply (check_range (twoDigits (fun _ _ => true)) 0 100); [|lia].
  vm_compute. reflexivity.
Qed.

(** [toFixed(2)] of a finite number: a minus sign when the number is
    negative, then the decimal numeral of the hundredths nearest to its
    magnitude, with the point before the last two digits. *)
Lemma toFixed_two_places (y : Q) :
  exists ds d1 d2,
    JS.toFixed (JS.Fin y) 2 = twoPlaces (negb (Qle_bool 0 y)) ds d1 d2 /\
    ds <> [] /\
    forallb JS.isDigit (ds ++ [d1; d2]) = true /\
    JS.digitsValue (ds ++ [d1; d2]) = Qfloor (Qabs y * 100 + (1 # 2)).
Proof.
  unfold JS.toFixed, JS.numeral.
  change (Qfloor (Qabs y * 100 + (1 # 2))) with (JS.scaled 2 (Qabs y)).
  pose proof (scaled_nonneg 2 (Qabs y) (Qabs_nonneg y)) as N.
  set (n := JS.scaled 2 (Qabs y)) in *. clearbody n.
  change (10 ^ Z.of_nat 2) with 100.
  pose proof (Z.div_mod n 100 ltac:(lia)) as DM.
  pose proof (Z.mod_pos_bound n 100 ltac:(lia)) as MB.
  assert (D0 : 0 <= n / 100) by (apply Z.div_pos; lia).
  destruct (StringOfInt_digits (n / 100) D0) as (Ne & Dg & Dv).
  destruct (twoDigits_inv _ _ (fraction_two_digits (n mod 100) MB))
    as (d1 & d2 & P & I1 & I2 & V & _).
  exists (JS.chars (JS.StringOfInt (n / 100))), d1, d2.
  split; [|split; [exact Ne|split]].
  - unfold twoPlaces.
    assert (B : JS.StringOfInt (n / 100) +:+ "." +:+
                JS.padStart (JS.StringOfInt (n mod 100)) 2 "0"
                = JS.str (JS.chars (JS.StringOfInt (n / 100)) ++ "."%char :: [d1; d2])).
    { rewrite <- (str_chars (_ +:+ _)). f_equal.
      rewrite !chars_app. fold (pad2 (n mod 100)). rewrite P. reflexivity. }
    rewrite B. destruct (negb (Qle_bool 0 y)); [|reflexivity].
    rewrite <- (str_chars (_ +:+ _)). f_equal.
    rewrite chars_app, chars_str. reflexivity.
  - rewrite forallb_app, Dg. simpl. rewrite I1, I2. reflexivity.
  - change (JS.chars (JS.StringOfInt (n / 100)) ++ [d1; d2])
      with (JS.chars (JS.StringOfInt (n / 100)) ++ [d1] ++ [d2]).
    rewrite app_assoc, !digitsValue_snoc, Dv. lia.
Qed.

(** The rounding error of [a + 0.25 * b]. *)
Lemma quarter_sum_close (qs qf y : Q) :
  JS.add (JS.Fin qs) (JS.mul (JS.Fin (1 # 4)) (JS.Fin qf)) = JS.Fin y ->
  (Qabs (y - (qs + (1 # 4) * qf))
   <= (Qabs qs + Qabs qf) * 2 ^ (-53) + 3 * 2 ^ (-1075))%Q.
Proof.
  unfold JS.mul.
  destruct (JS.round64 ((1 # 4) * qf)) as [|neg|t] eqn:M; try discriminate.
  unfold JS.add. intros S.
  apply round64_close in M, S.
  rewrite Qabs_Qmult in M. change (Qabs (1 # 4)) with (1 # 4)%Q in M.
  pose proof (Qabs_triangle (t - (1 # 4) * qf) ((1 # 4) * qf)) as T1.
  assert (E1 : (t - (1 # 4) * qf + (1 # 4) * qf == t)%Q) by ring.
  rewrite E1 in T1. rewrite Qabs_Qmult in T1.
  change (Qabs (1 # 4)) with (1 # 4)%Q in T1.
  pose proof (Qabs_triangle qs t) as T2.
  pose proof (Qabs_triangle (y - (qs + t)) (t - (1 # 4) * qf)) as T3.
  assert (E3 : (y - (qs + t) + (t - (1 # 4) * qf) == y - (qs + (1 # 4) * qf))%Q)
    by ring.
  rewrite E3 in T3.
  assert (U : (2 ^ (-53) == 1 # 9007199254740992)%Q) by reflexivity.
  rewrite U in *.
  pose proof (pow2_pos (-1075)) as Eta.
  pose proof (Qabs_nonneg qs) as A0. pose proof (Qabs_nonneg qf) as B0.
  set (eta := (2 ^ (-1075))%Q) in *.
  set (A := Qabs qs) in *. set (B := Qabs qf) in *.
  set (D1 := Qabs (t - (1 # 4) * qf)) in *.
  set (D2 := Qabs (y - (qs + t))) in *.
  set (T := Qabs t) in *. set (Sm := Qabs (qs + t)) in *.
  set (G := Qabs (y - (qs + (1 # 4) * qf))) in *.
  clearbody eta A B D1 D2 T Sm G. lra.
Qed.




(** ** The ranges of the edit form *)

Lemma range_accepts (name : string) (lo hi : Q) (lm hm : string)
    (lo64 hi64 : Q) (v : JS.Value) :
  JS.round64 lo = JS.Fin lo64 -> JS.round64 hi = JS.Fin hi64 ->
  Form.validateField name (App.range lo lm hi hm) v = None <->
  Form.isEmpty v = true \/ within lo64 hi64 (JS.Number (Form.toString v)).
Proof.
  intros Hlo Hhi. unfold Form.validateField, App.range; simpl.
  rewrite Hlo, Hhi.
  destruct (Form.isEmpty v); simpl; [tauto|].
  destruct (JS.Number (Form.toString v)) as [|neg|q]; simpl.
  - tauto.
  - unfold JS.gt, JS.lt. destruct neg; simpl;
      (split; [discriminate | intros [H|[]]; discriminate]).
  - unfold JS.gt, JS.lt.
    destruct (Qle_bool q hi64) eqn:Ehi; destruct (Qle_bool lo64 q) eqn:Elo; simpl.
    + apply Qle_bool_iff in Ehi, Elo. tauto.
    + split; [discriminate|]. intros [H|[H _]]; [discriminate|].
      apply Qle_bool_iff in H. congruence.
    + split; [discriminate|]. intros [H|[_ H]]; [discriminate|].
      apply Qle_bool_iff in H. congruence.
    + split; [discriminate|]. intros [H|[_ H]]; [discriminate|].
      apply Qle_bool_iff in H. congruence.
Qed.

Lemma errorOf_find (fields : list (string * Form.Rules)) (name : string)
    (r : Form.Rules) (v : JS.Value) :
  List.find (fun f => String.eqb (fst f) name) fields = Some (name, r) ->
  Form.errorOf fields name v = Form.validateField name r v.
Proof. unfold Form.errorOf. intros ->. reflexivity. Qed.

Lemma editRules_accept (name : string) (lo64 hi64 : Q) (v : JS.Value) :
  In (name, (lo64, hi64)) (binary64Ranges 100) ->
  Form.errorOf App.editRules name v = None <->
  Form.isEmpty v = true \/ within lo64 hi64 (JS.Number (Form.toString v)).
Proof.
  intros Hin. simpl in Hin.
  repeat (destruct Hin as [[= <- <- <-]|Hin];
          [apply range_accepts; vm_compute; reflexivity|]).
  destruct Hin.
Qed.

Lemma editRulesLegacy_accept (name : string) (lo64 hi64 : Q) (v : JS.Value) :
  In (name, (lo64, hi64)) (binary64Ranges 5) ->
  Form.errorOf App.editRulesLegacy name v = None <->
  Form.isEmpty v = true \/ within lo64 hi64 (JS.Number (Form.toString v)).
Proof.
  intros Hin. simpl in Hin.
  repeat (destruct Hin as [[= <- <- <-]|Hin];
          [apply range_accepts; vm_compute; reflexivity|]).
  destruct Hin.
Qed.

(** The edit form is not the table of the specification.  Base rate 50
    is accepted under either entry mode, so no entry mode has the range
    0.1 to 5.  A field left empty is accepted, whether it holds the empty
    text, [null] or nothing, and so is a text that is not a number.  And
    the bounds are compared as binary64 numbers: the quantities
    500.00000000000000001 and 0.09999999999999999999 are accepted, the
    first above 500 and the second below 0.1. *)
Lemma edit_form_departs_from_the_ranges :
  Form.errorOf (App.mountedRules (editing App.camera)) "baseRate"
               (JS.JStr "50") = None /\
  Form.errorOf (App.mountedRules (editing App.manual)) "baseRate"
               (JS.JStr "50") = None /\
  ~ (exists m : App.EntryMode,
       forall (s : string) (q : Q),
         s <> "" -> JS.Number s = JS.Fin q ->
         (Form.errorOf (App.mountedRules (editing m)) "baseRate" (JS.JStr s)
            = None <-> (1 # 10 <= q <= 5)%Q)) /\
  Form.errorOf App.editRules "quantity" (JS.JStr "") = None /\
  Form.errorOf App.editRules "quantity" JS.JNull = None /\
  Form.errorOf App.editRules "quantity" JS.JUndefined = None /\
  Form.errorOf App.editRules "quantity" (JS.JStr "abc") = None /\
  Form.errorOf App.editRules "quantity" (JS.JStr "500.00000000000000001")
    = None /\
  (500 < 50000000000000000001 # 100000000000000000)%Q /\
  Form.errorOf App.editRules "quantity" (JS.JStr "0.09999999999999999999")
    = None /\
  (9999999999999999999 # 100000000000000000000 < 1 # 10)%Q.
Proof.
  split; [vm_compute; reflexivity|]. split; [vm_compute; reflexivity|].
  split.
  - intros (m & H).
    assert (E : Form.errorOf (App.mountedRules (editing m)) "baseRate"
                             (JS.JStr "50") = None)
      by (destruct m; vm_compute; reflexivity).
    apply (H "50" 50%Q) in E; [|discriminate|vm_compute; reflexivity].
    destruct E as [_ E]. vm_compute in E. apply E. reflexivity.
  - repeat split; vm_compute; reflexivity.
Qed.

(** C3, as the code has it.  While the extracted data is being edited
    the mounted rules are those of the edit form, whatever the entry
    mode.  The bounds of the table are compared as binary64 numbers:
    these are the bounds themselves except for 0.1 and 0.01, from which
    they differ by less than one part in 2^53.  For each of the eight
    numeric fields a value is accepted exactly when it is empty, or its
    text does not read as a number, or the binary64 number it reads as
    lies between the binary64 bounds of the field, with base rate 0.1 to
    100; in the earlier revision of the component, which has no entry
    modes, the base rate range is 0.1 to 5.  Quantity 0.1 and 500 pass,
    0.099 and 500.01 fail with an error on the quantity field. *)
Theorem edit_form_accepts_exactly_the_ranges :
  (forall (st : App.State) (pd : JS.Object),
     App.currentView st = App.upload -> App.parsedData st = Some pd ->
     App.isProcessing st = false -> App.isEditing st = true ->
     App.mountedRules st = App.editRules) /\
  (forall (m : Q) (name : string) (lo hi : Q),
     In (name, (lo, hi)) (specRanges m) ->
     exists lo64,
       In (name, (lo64, hi)) (binary64Ranges m) /\
       (Qabs (lo64 - lo) <= lo * 2 ^ (-53))%Q) /\
  (forall (name : string) (lo64 hi64 : Q) (v : JS.Value),
     In (name, (lo64, hi64)) (binary64Ranges 100) ->
     (Form.errorOf App.editRules name v = None <->
      Form.isEmpty v = true \/
      within lo64 hi64 (JS.Number (Form.toString v)))) /\
  (forall (name : string) (lo64 hi64 : Q) (v : JS.Value),
     In (name, (lo64, hi64)) (binary64Ranges 5) ->
     (Form.errorOf App.editRulesLegacy name v = None <->
      Form.isEmpty v = true \/
      within lo64 hi64 (JS.Number (Form.toString v)))) /\
  Form.errorOf App.editRules "quantity" (JS.JStr "0.1") = None /\
  Form.errorOf App.editRules "quantity" (JS.JStr "500") = None /\
  Form.errorOf App.editRules "quantity" (JS.JStr "0.099")
    = Some (Form.mkError "quantity" "min" "Min 0.1") /\
  Form.errorOf App.editRules "quantity" (JS.JStr "500.01")
    = Some (Form.mkError "quantity" "max" "Max 500").
Proof.
  split; [|split; [|split; [|split]]].
  - intros st pd V P I E. unfold App.mountedRules, App.hasData.
    rewrite V, P, I, E. rewrite Bool.andb_false_r. reflexivity.
  - intros m name lo hi Hin. simpl in Hin.
    repeat (destruct Hin as [[= <- <- <-]|Hin];
            [eexists; split;
             [simpl; auto 10 | vm_compute; discriminate]|]).
    destruct Hin.
  - intros name lo hi v Hin. apply editRules_accept, Hin.
  - intros name lo hi v Hin. apply editRulesLegacy_accept, Hin.
  - repeat split; vm_compute; reflexivity.
Qed.

Lemma edit_form_accepts_exactly_the_ranges_witness :
  App.mountedRules (editing App.manual) = App.editRules /\
  (Form.errorOf App.editRules "baseRate" (JS.JStr "70.50") = None <->
   Form.isEmpty (JS.JStr "70.50") = true \/
   within (3602879701896397 # 36028797018963968) 100 (JS.Number "70.50")).
Proof.
  destruct edit_form_accepts_exactly_the_ranges as (M & _ & R & _).
  split.
  - apply (M (editing App.manual) ∅); reflexivity.
  - apply (R "baseRate" (3602879701896397 # 36028797018963968) 100%Q
             (JS.JStr "70.50")).
    simpl. do 5 right. left. reflexivity.
Defined.

(** ** Persistence: [saveReceipt] and [getUserReceipts] *)

Section StoreFacts.
Import Supabase ReceiptService.

Lemma saveReceipt_ok (caller userId : string) (rd : ReceiptData)
    (imageBlob : option Blob) (b : Backend) (d q f c br r a : string) :
  canInsert (Some caller) b = true ->
  isAccount userId b = true ->
  (is_Some imageBlob -> pathTaken (imagePath userId b) b = false) ->
  d_date rd = JS.JStr d -> d_quantity rd = JS.JStr q ->
  d_fat rd = JS.JStr f -> d_clr rd = JS.JStr c ->
  d_base_rate rd = JS.JStr br -> d_rate rd = JS.JStr r ->
  d_amount rd = JS.JStr a ->
  let row := savedRow userId rd imageBlob b d q f c br r a in
  saveReceipt (Some caller) userId rd imageBlob b
  = (Resolved (id row), afterSave userId imageBlob b row).
Proof.
  intros Hrole Hacc Hfree Ed Eq_ Ef Ec Ebr Er Ea row.
  unfold saveReceipt.
  destruct imageBlob as [blob|].
  - unfold upload. fold (imagePath userId b).
    change (canUpload (Some caller) b) with (canInsert (Some caller) b).
    rewrite Hrole. simpl negb. cbv iota.
    fold (pathTaken (imagePath userId b) b).
    rewrite Hfree by eauto. 
    unfold insert. simpl p_user_id.
    change (canInsert (Some caller) (mkBackend (profiles b) (receipts b)
              (bucket b ++ [(imagePath userId b, blob)]) (clock b) (issued b)))
      with (canInsert (Some caller) b).
    change (isAccount userId (mkBackend (profiles b) (receipts b)
              (bucket b ++ [(imagePath userId b, blob)]) (clock b) (issued b)))
      with (isAccount userId b).
    rewrite Hrole, Hacc. simpl. rewrite Ed, Eq_, Ef, Ec, Ebr, Er, Ea. simpl.
    reflexivity.
  - unfold insert. simpl p_user_id. rewrite Hrole, Hacc. simpl.
    rewrite Ed, Eq_, Ef, Ec, Ebr, Er, Ea. simpl.
    unfold afterSave. rewrite app_nil_r. reflexivity.
Qed.

(** A record whose quantity the edit form rejects is stored by
    [saveReceipt]. *)
Lemma save_accepts_field_violation :
  violations tooSmallQuantity
    = [Form.mkError "quantity" "min" "Min 0.1"] /\
  exists b',
    saveReceipt (Some "alice") "alice" tooSmallQuantity
                (Some (mkBlob 1600 1200 "image/jpeg" (85 # 100))) twoOwners
      = (Resolved "receipt-2", b') /\
    map (fun r => (user_id r, quantity r)) (receipts b')
      = [("alice", "12.5"); ("bob", "9.0"); ("alice", "0.099")].
Proof.
  split; [vm_compute; reflexivity|].
  eexists. split; vm_compute; reflexivity.
Qed.

(** C1, as the code has it.  [saveReceipt] does not look at the values
    of the fields: for a caller whose role is admin or member, an
    existing account, a free image path and a record whose seven
    required columns are strings, the record is stored with every field
    as given and the promise resolves to the identifier of the new row,
    whether or not the edit form would report an error for the record.
    The ranges and the date pattern are checked by the edit form alone. *)
Theorem saveReceipt_stores_the_record_as_given
    (caller userId : string) (rd : ReceiptData) (imageBlob : option Blob)
    (b : Backend) (d q f c br r a : string) :
  canInsert (Some caller) b = true ->
  isAccount userId b = true ->
  (is_Some imageBlob -> pathTaken (imagePath userId b) b = false) ->
  d_date rd = JS.JStr d -> d_quantity rd = JS.JStr q ->
  d_fat rd = JS.JStr f -> d_clr rd = JS.JStr c ->
  d_base_rate rd = JS.JStr br -> d_rate rd = JS.JStr r ->
  d_amount rd = JS.JStr a ->
  exists row b',
    saveReceipt (Some caller) userId rd imageBlob b = (Resolved (id row), b') /\
    receipts b' = receipts b ++ [row] /\
    user_id row = userId /\
    date row = d /\ quantity row = q /\ fat row = f /\ clr row = c /\
    fat_kg row = column (d_fat_kg rd) /\ snf_kg row = column (d_snf_kg rd) /\
    base_rate row = br /\ rate row = r /\ amount row = a.
Proof.
  intros Hrole Hacc Hfree Ed Eq_ Ef Ec Ebr Er Ea.
  exists (savedRow userId rd imageBlob b d q f c br r a).
  eexists. split.
  - apply saveReceipt_ok; assumption.
  - simpl. repeat split; reflexivity.
Qed.

Lemma saveReceipt_stores_the_record_as_given_witness :
  exists row b',
    saveReceipt (Some "alice") "alice" tooSmallQuantity None twoOwners
      = (Resolved (id row), b') /\
    receipts b' = receipts twoOwners ++ [row] /\ quantity row = "0.099".
Proof.
  destruct (saveReceipt_stores_the_record_as_given "alice" "alice"
              tooSmallQuantity None twoOwners
              "07/01/2024" "0.099" "4.0" "28" "70.50" "45" "562"
              eq_refl eq_refl
              (fun H => match is_Some_None H with end)
              eq_refl eq_refl eq_refl eq_refl eq_refl eq_refl eq_refl)
    as (row & b' & S & R & _ & _ & Q & _).
  exists row, b'. repeat split; assumption.
Defined.

(** *** Listing *)

#[local] Instance newerFirst_total : Total newerFirst.
Proof. intros x y. unfold newerFirst. lia. Qed.

#[local] Instance newerFirst_trans : Transitive newerFirst.
Proof. intros x y z. unfold newerFirst. lia. Qed.

(** C2, at a backend with two owners.  Both receipts are stored and the
    select policy shows both to alice, yet [getUserReceipts] in her
    session returns her own receipt only: the receipt of bob is
    missing from the listing. *)
Theorem listing_omits_other_owners :
  getUserReceipts (Some "alice") "alice" twoOwners = Resolved [rowOfAlice] /\
  In rowOfBob (receipts twoOwners) /\
  canSelect (Some "alice") rowOfBob = true /\
  ~ (forall r, In r (receipts twoOwners) ->
       exists rs, getUserReceipts (Some "alice") "alice" twoOwners
                    = Resolved rs /\ In r rs).
Proof.
  assert (E : getUserReceipts (Some "alice") "alice" twoOwners
              = Resolved [rowOfAlice]) by (vm_compute; reflexivity).
  split; [exact E|]. split; [right; left; reflexivity|].
  split; [reflexivity|].
  intros H. destruct (H rowOfBob) as (rs & R & I).
  - right; left; reflexivity.
  - rewrite E in R. injection R as <-.
    destruct I as [I|[]]. discriminate I.
Qed.

(** What the listing returns in general: for an authenticated caller
    the select policy shows every row of the table, and
    [getUserReceipts(userId)] returns exactly the rows whose owner is
    [userId], the newest first. *)
Lemma getUserReceipts_lists_the_rows_of_the_user
    (caller userId : string) (b : Backend) :
  exists rs,
    getUserReceipts (Some caller) userId b = Resolved rs /\
    (forall r, In r rs <-> In r (receipts b) /\ user_id r = userId) /\
    StronglySorted newerFirst rs /\
    (forall r, In r (receipts b) -> canSelect (Some caller) r = true).
Proof.
  eexists. split; [reflexivity|]. split; [|split].
  - intros r. rewrite <- list_elem_of_In.
    rewrite merge_sort_Permutation. rewrite list_elem_of_In.
    rewrite !filter_In. simpl. rewrite String.eqb_eq. tauto.
  - apply StronglySorted_merge_sort; apply _.
  - reflexivity.
Qed.

(** *** Saving from the component *)

Lemma or_empty (v : JS.Value) : JS.or v (JS.JStr "") = JS.JStr (orEmpty v).
Proof.
  destruct v as [| |s]; try reflexivity.
  unfold JS.or, JS.truthy. destruct (String.eqb_spec s ""); simpl; congruence.
Qed.

Lemma canInsert_isAccount (uid : string) (b : Backend) :
  canInsert (Some uid) b = true -> isAccount uid b = true.
Proof.
  unfold canInsert, hasRole, isAccount. rewrite !existsb_exists.
  intros (p & I & H). apply andb_prop in H as [H _]. eauto.
Qed.

Lemma saveAndReport_ok (u : App.User) (data : JS.Object)
    (imageBlob : option Blob) (st : App.State) (b : Backend) :
  canInsert (Some (App.id u)) b = true ->
  (is_Some imageBlob -> pathTaken (imagePath (App.id u) b) b = false) ->
  let row :=
    savedRow (App.id u) (App.receiptData data) imageBlob b
      (orEmpty (JS.get data "date")) (orEmpty (JS.get data "quantity"))
      (orEmpty (JS.get data "fat")) (orEmpty (JS.get data "clr"))
      (orEmpty (JS.get data "baseRate")) (orEmpty (JS.get data "rate"))
      (orEmpty (JS.get data "amount")) in
  App.saveAndReport u data imageBlob st b
  = (App.setIsSaving false
       (App.handleReset (App.alert App.savedMessage (App.setIsSaving true st))),
     afterSave (App.id u) imageBlob b row).
Proof.
  intros Hrole Hfree row. unfold App.saveAndReport.
  rewrite (saveReceipt_ok (App.id u) (App.id u) (App.receiptData data)
             imageBlob b _ _ _ _ _ _ _ Hrole
             (canInsert_isAccount _ _ Hrole) Hfree
             (or_empty _) (or_empty _) (or_empty _) (or_empty _)
             (or_empty _) (or_empty _) (or_empty _)).
  reflexivity.
Qed.

(** C10.  When the signed-in user saves the parsed data (manual entry,
    or a capture with its compressed image), holds the admin or member
    role and the image path is free, one row is added to the table and
    the save is reported as successful; in that row each of date,
    quantity, fat, clr, base_rate, rate and amount that is unset in the
    parsed data holds the empty string, and each that is set holds its
    text. *)
Theorem unset_fields_are_saved_as_empty_strings
    (st : App.State) (b : Backend) (u : App.User) (data : JS.Object) :
  App.user st = Some u -> App.parsedData st = Some data ->
  App.entryMode st = App.manual \/ is_Some (App.compressedBlob st) ->
  canInsert (Some (App.id u)) b = true ->
  pathTaken (imagePath (App.id u) b) b = false ->
  exists row,
    receipts (snd (App.handleSaveReceipt st b)) = receipts b ++ [row] /\
    last (App.alerts (fst (App.handleSaveReceipt st b)))
      = Some App.savedMessage /\
    user_id row = App.id u /\
    forall (k : string) (col : Row -> string),
      In (k, col) requiredColumns ->
      (JS.get data k = JS.JUndefined -> col row = "") /\
      (forall s, JS.get data k = JS.JStr s -> col row = s).
Proof.
  intros Hu Hd Hmode Hrole Hfree.
  assert (S : exists imageBlob,
            App.handleSaveReceipt st b = App.saveAndReport u data imageBlob st b).
  { unfold App.handleSaveReceipt. rewrite Hu, Hd.
    destruct (App.compressedBlob st) as [blob|] eqn:Eb.
    - exists (Some blob). destruct (App.entryMode st); reflexivity.
    - destruct Hmode as [->|[x Hx]]; [|discriminate].
      exists App.manualBlob. reflexivity. }
  destruct S as (imageBlob & ->).
  rewrite saveAndReport_ok by auto.
  eexists. split; [reflexivity|]. split; [|split; [reflexivity|]].
  - simpl. rewrite last_snoc. reflexivity.
  - intros k col Hin. simpl in Hin.
    repeat (destruct Hin as [Hin|Hin];
            [injection Hin as <- <-; simpl; split;
             [intros ->; reflexivity | intros s ->; reflexivity]|]).
    contradiction.
Qed.

Lemma unset_fields_are_saved_as_empty_strings_witness :
  let st := App.mkState (Some (App.mkUser "alice" "alice@example.com"))
              App.upload App.manual None None
              (Some {[ "date" := JS.JStr "07/01/2024" ]})
              false false false [] in
  exists row,
    receipts (snd (App.handleSaveReceipt st twoOwners))
      = [rowOfAlice; rowOfBob; row] /\
    date row = "07/01/2024" /\ quantity row = "" /\ base_rate row = "".
Proof.
  intros st.
  destruct (unset_fields_are_saved_as_empty_strings st twoOwners
              (App.mkUser "alice" "alice@example.com")
              {[ "date" := JS.JStr "07/01/2024" ]}
              eq_refl eq_refl (or_introl eq_refl) eq_refl eq_refl)
    as (row & R & _ & _ & C).
  exists row. split; [exact R|]. split; [|split].
  - apply (proj2 (C "date" date ltac:(left; reflexivity))). reflexivity.
  - apply (proj1 (C "quantity" quantity ltac:(right; left; reflexivity))).
    reflexivity.
  - apply (proj1 (C "baseRate" base_rate ltac:(do 4 right; left; reflexivity))).
    reflexivity.
Defined.

End StoreFacts.

(** ** Grouping by month: [groupReceiptsByMonth] *)

Section GroupingFacts.
Import Records.

Variable monthYear : string -> option string.

Lemma groupOf_push (k lab : string) (r : Receipt) (groups : Grouped) :
  groupOf k (push lab r groups) =
  if String.eqb lab k then groupOf k groups ++ [r] else groupOf k groups.
Proof.
  unfold groupOf. induction groups as [|[k0 rs] rest IH]; simpl.
  - destruct (String.eqb lab k); reflexivity.
  - destruct (String.eqb_spec k0 lab) as [->|N]; simpl.
    + destruct (String.eqb lab k); reflexivity.
    + destruct (String.eqb_spec k0 k) as [->|N']; simpl.
      * apply String.eqb_neq in N. rewrite String.eqb_sym in N.
        rewrite N. reflexivity.
      * exact IH.
Qed.

Lemma keys_push (lab : string) (r : Receipt) (groups : Grouped) :
  map fst (push lab r groups) =
  if existsb (String.eqb lab) (map fst groups) then map fst groups
  else map fst groups ++ [lab].
Proof.
  induction groups as [|[k0 rs] rest IH]; simpl; [reflexivity|].
  rewrite (String.eqb_sym lab k0).
  destruct (String.eqb k0 lab); simpl; [reflexivity|].
  rewrite IH. destruct (existsb (String.eqb lab) (map fst rest)); reflexivity.
Qed.

Lemma NoDup_push (lab : string) (r : Receipt) (groups : Grouped) :
  NoDup (map fst groups) -> NoDup (map fst (push lab r groups)).
Proof.
  intros H. rewrite keys_push.
  destruct (existsb (String.eqb lab) (map fst groups)) eqn:E; [exact H|].
  apply NoDup_app. split; [exact H|]. split; [|apply NoDup_singleton].
  intros x Hx Hl. apply list_elem_of_In in Hx. apply list_elem_of_In in Hl.
  destruct Hl as [<-|[]].
  assert (existsb (String.eqb lab) (map fst groups) = true); [|congruence].
  apply existsb_exists. exists lab. split; [exact Hx|apply String.eqb_refl].
Qed.

Lemma groupOf_fold (k : string) (l : list Receipt) (acc : Grouped) :
  groupOf k (fold_left (step monthYear) l acc)
  = groupOf k acc ++ withLabel monthYear k l.
Proof.
  revert acc. induction l as [|r l IH]; intros acc; simpl.
  - rewrite app_nil_r. reflexivity.
  - rewrite IH. unfold step.
    destruct (labelOf monthYear r) as [lab|] eqn:E.
    + rewrite groupOf_push.
      destruct (String.eqb_spec lab k) as [->|N].
      * rewrite bool_decide_eq_true_2 by reflexivity.
        rewrite <- app_assoc. reflexivity.
      * rewrite bool_decide_eq_false_2 by congruence. reflexivity.
    + rewrite bool_decide_eq_false_2 by discriminate. reflexivity.
Qed.

Lemma NoDup_fold (l : list Receipt) (acc : Grouped) :
  NoDup (map fst acc) -> NoDup (map fst (fold_left (step monthYear) l acc)).
Proof.
  revert acc. induction l as [|r l IH]; intros acc H; simpl; [exact H|].
  apply IH. unfold step. destruct (labelOf monthYear r); [|exact H].
  apply NoDup_push, H.
Qed.

Lemma keys_fold (k : string) (l : list Receipt) (acc : Grouped) :
  In k (map fst (fold_left (step monthYear) l acc)) <->
  In k (map fst acc) \/ exists r, In r l /\ labelOf monthYear r = Some k.
Proof.
  revert acc. induction l as [|r l IH]; intros acc; simpl.
  - split; [auto|]. intros [H|(r & [] & _)]. exact H.
  - rewrite IH. unfold step.
    destruct (labelOf monthYear r) as [lab|] eqn:E.
    + rewrite keys_push.
      destruct (existsb (String.eqb lab) (map fst acc)) eqn:X.
      * apply existsb_exists in X as (x & Hx & Ex).
        apply String.eqb_eq in Ex. subst x. split.
        -- intros [H|(r' & H1 & H2)]; [auto|right; eauto].
        -- intros [H|(r' & [<-|H1] & H2)]; [auto| |right; eauto].
           left. congruence.
      * rewrite in_app_iff. simpl. split.
        -- intros [[H|[<-|[]]]|(r' & H1 & H2)]; [auto|right; eauto|right; eauto].
        -- intros [H|(r' & [<-|H1] & H2)]; [auto| |right; eauto].
           left. right. left. congruence.
    + split.
      * intros [H|(r' & H1 & H2)]; [auto|right; eauto].
      * intros [H|(r' & [<-|H1] & H2)]; [auto|congruence|right; eauto].
Qed.

Lemma groupOf_In (k : string) (g : list Receipt) (groups : Grouped) :
  NoDup (map fst groups) -> In (k, g) groups -> groupOf k groups = g.
Proof.
  unfold groupOf. induction groups as [|[k0 rs] rest IH]; simpl; [tauto|].
  intros ND [E|I].
  - injection E as -> ->. rewrite String.eqb_refl. reflexivity.
  - apply NoDup_cons in ND as [Nin ND].
    destruct (String.eqb_spec k0 k) as [->|N].
    + exfalso. apply Nin. apply list_elem_of_In.
      apply in_map_iff. exists (k, g). auto.
    + apply IH; assumption.
Qed.

End GroupingFacts.

(** *** The filter and the totals *)

(** The predicate of the filter: some field of the receipt, rendered as
    text, contains the filter text, letter case apart. *)
Lemma matchesFilter_spec (f : string) (r : Records.Receipt) :
  Records.matchesFilter f r = true <-> someFieldContains f r.
Proof.
  unfold Records.matchesFilter, someFieldContains, containsIgnoringCase.
  rewrite existsb_exists.
  split; intros (v & I & H); exists v; (split; [exact I|]);
    apply includes_lower_spec; exact H.
Qed.

Lemma filtered_spec (f : string) (receipts : list Records.Receipt)
    (r : Records.Receipt) :
  f <> "" ->
  In r (Records.filtered f receipts) <-> In r receipts /\ someFieldContains f r.
Proof.
  intros Hf. unfold Records.filtered.
  apply String.eqb_neq in Hf. rewrite Hf.
  rewrite filter_In, matchesFilter_spec. reflexivity.
Qed.

Lemma sumAmounts_snoc (g : list Records.Receipt) (r : Records.Receipt) :
  Records.sumAmounts (g ++ [r])
  = JS.add (Records.sumAmounts g)
           (JS.parseFloat (Form.toString (Records.prop r "amount"))).
Proof. unfold Records.sumAmounts. rewrite fold_left_app. reflexivity. Qed.

Lemma sum_nonneg (amounts : list Z) :
  Forall (fun a => 0 <= a) amounts -> 0 <= fold_right Z.add 0 amounts.
Proof. intros P. induction P; simpl; lia. Qed.

Lemma fold_add_int (g : list Records.Receipt) (amounts : list Z) (acc : Z) :
  Forall2 amountIs g amounts -> Forall (fun a => 0 <= a) amounts ->
  0 <= acc -> acc + fold_right Z.add 0 amounts < 2 ^ 53 ->
  fold_left (fun sum r =>
               JS.add sum (JS.parseFloat (Form.toString (Records.prop r "amount"))))
            g (JS.Fin (inject_Z acc))
  = JS.Fin (inject_Z (acc + fold_right Z.add 0 amounts)).
Proof.
  intros F. revert acc.
  induction F as [|r a g amounts A F IH]; intros acc P Hacc B;
    cbn [fold_left fold_right] in *.
  - rewrite Z.add_0_r. reflexivity.
  - inversion P as [|? ? Pa Ps]; subst.
    pose proof (sum_nonneg amounts Ps) as S0.
    unfold amountIs in A. rewrite A.
    rewrite add_int by lia.
    rewrite IH by (try assumption; lia).
    f_equal. f_equal. lia.
Qed.

Lemma sumAmounts_int (g : list Records.Receipt) (amounts : list Z) :
  Forall2 amountIs g amounts -> Forall (fun a => 0 <= a) amounts ->
  fold_right Z.add 0 amounts < 2 ^ 53 ->
  Records.sumAmounts g = JS.Fin (inject_Z (fold_right Z.add 0 amounts)).
Proof.
  intros F P B. unfold Records.sumAmounts.
  change (JS.Fin 0) with (JS.Fin (inject_Z 0)).
  rewrite (fold_add_int g amounts 0 F P); [reflexivity | lia | lia].
Qed.

(** [toFixed(2)] of a non-negative integer below 2^53 is its decimal
    numeral followed by [.00]. *)
Lemma toFixed_int (n : Z) :
  0 <= n ->
  JS.toFixed (JS.Fin (inject_Z n)) 2
  = twoPlaces false (JS.chars (JS.StringOfInt n)) "0" "0".
Proof.
  intros Hn. unfold JS.toFixed, JS.numeral, twoPlaces.
  assert (S : JS.scaled 2 (Qabs (inject_Z n)) = 100 * n).
  { unfold JS.scaled, Qabs, inject_Z, Qfloor, Qmult, Qplus; simpl.
    rewrite Z.abs_eq by assumption.
    change (10 ^ Z.of_nat 2) with 100.
    symmetry. apply Z.div_unique with (r := 1); lia. }
  rewrite S.
  assert (L : Qle_bool 0 (inject_Z n) = true).
  { apply Qle_bool_iff. rewrite <- (Zle_Qle 0). exact Hn. }
  rewrite L. simpl negb. cbv iota.
  change (10 ^ Z.of_nat 2) with 100.
  replace (100 * n / 100) with n by (apply Z.div_unique with (r := 0); lia).
  replace ((100 * n) mod 100) with 0 by (apply Z.mod_unique with (q := n); lia).
  rewrite <- (str_chars (_ +:+ _)). f_equal.
  rewrite !chars_app. reflexivity.
Qed.



(** * Further properties of the code *)

(** ** [compressImage]: size and failure *)

Section CompressionFacts.
Import ImageNormalizer.

(** X1.  The canvas is never larger than the picture on either side,
    keeps the orientation of the picture, and has its longer side at
    exactly 1600 px whenever the picture's longer side exceeds 1600. *)
Theorem compressImage_never_enlarges (img : Image) :
  0 <= width img -> 0 <= height img ->
  let c := canvasOf img in
  canvas_width c <= width img /\ canvas_height c <= height img /\
  (height img <= width img -> canvas_height c <= canvas_width c) /\
  (width img <= height img -> canvas_width c <= canvas_height c) /\
  (1600 < Z.max (width img) (height img) ->
   Z.max (canvas_width c) (canvas_height c) = 1600).
Proof.
  intros Hw Hh c.
  destruct (Z_gt_dec (width img) (height img)) as [G1|G1];
    [destruct (Z_gt_dec (width img) maxSize) as [G2|G2]|].
  - pose proof (canvasOf_wide img G1 G2) as E. fold c in E.
    unfold maxSize in *. rewrite E; simpl.
    assert (height img * 1600 / width img <= height img).
    { apply Z.div_le_upper_bound; nia. }
    assert (height img * 1600 / width img <= 1600).
    { apply Z.div_le_upper_bound; nia. }
    repeat split; try lia.
  - assert (E : c = mkCanvas (width img) (height img)).
    { apply canvasOf_small; unfold maxSize in *; lia. }
    unfold maxSize in *. rewrite E; simpl. repeat split; lia.
  - destruct (Z_gt_dec (height img) maxSize) as [G3|G3].
    + assert (E : c = mkCanvas (width img * maxSize / height img) maxSize).
      { apply canvasOf_tall; lia. }
      unfold maxSize in *. rewrite E; simpl.
      assert (width img * 1600 / height img <= width img).
      { apply Z.div_le_upper_bound; nia. }
      assert (width img * 1600 / height img <= 1600).
      { apply Z.div_le_upper_bound; nia. }
      assert (height img <= width img ->
              width img * 1600 / height img = 1600).
      { intros Hle. assert (Heq : width img = height img) by lia.
        rewrite Heq, Z.mul_comm. apply Z.div_mul. lia. }
      repeat split; try lia.
    + assert (E : c = mkCanvas (width img) (height img)).
      { apply canvasOf_small; unfold maxSize in *; lia. }
      unfold maxSize in *. rewrite E; simpl. repeat split; lia.
Qed.

Lemma compressImage_never_enlarges_witness :
  canvasOf (mkImage 3000 4000) = mkCanvas 1200 1600 /\
  Z.max (canvas_width (canvasOf (mkImage 3000 4000)))
        (canvas_height (canvasOf (mkImage 3000 4000))) = 1600.
Proof.
  split; [reflexivity|].
  apply (compressImage_never_enlarges (mkImage 3000 4000));
    simpl; lia.
Defined.

(** X2.  A picture with positive sides fails to compress exactly when
    one side is more than 1600 times the other: the scaled short side
    then has no pixel.  Every other such picture is encoded. *)
Theorem compressImage_fails_on_slivers (file : File) (img : Image) :
  picture file = Some img -> 0 < width img -> 0 < height img ->
  (compressImage file = Rejected "Compression failed" <->
   1600 * height img < width img \/ 1600 * width img < height img) /\
  (~ (1600 * height img < width img \/ 1600 * width img < height img) ->
   exists blob, compressImage file = Resolved blob).
Proof.
  intros Hp Hw Hh.
  assert (Hout : compressImage file =
    (if (canvas_width (canvasOf img) <=? 0) || (canvas_height (canvasOf img) <=? 0)
     then Rejected "Compression failed"
     else Resolved (mkBlob (canvas_width (canvasOf img))
                           (canvas_height (canvasOf img))
                           "image/jpeg" (85 # 100)))).
  { unfold compressImage, toBlob. rewrite Hp.
    destruct ((canvas_width (canvasOf img) <=? 0)
              || (canvas_height (canvasOf img) <=? 0)); reflexivity. }
  assert (Hzero : (canvas_width (canvasOf img) <=? 0)
                  || (canvas_height (canvasOf img) <=? 0) = true <->
                  1600 * height img < width img \/ 1600 * width img < height img).
  { destruct (Z_gt_dec (width img) (height img)) as [G1|G1];
      [destruct (Z_gt_dec (width img) maxSize) as [G2|G2]|].
    - rewrite (canvasOf_wide img G1 G2). unfold maxSize in *. simpl.
      rewrite Z.leb_le.
      pose proof (Z.div_mod (height img * 1600) (width img) ltac:(lia)).
      pose proof (Z.mod_pos_bound (height img * 1600) (width img) ltac:(lia)).
      assert (0 <= height img * 1600 / width img)
        by (apply Z.div_pos; lia).
      split; intros; nia.
    - rewrite canvasOf_small by (unfold maxSize in *; lia).
      unfold maxSize in *. simpl.
      rewrite Bool.orb_true_iff, !Z.leb_le. lia.
    - destruct (Z_gt_dec (height img) maxSize) as [G3|G3].
      + rewrite canvasOf_tall by lia. unfold maxSize in *. simpl.
        rewrite Bool.orb_false_r, Z.leb_le.
        pose proof (Z.div_mod (width img * 1600) (height img) ltac:(lia)).
        pose proof (Z.mod_pos_bound (width img * 1600) (height img) ltac:(lia)).
        assert (0 <= width img * 1600 / height img)
          by (apply Z.div_pos; lia).
        split; intros; nia.
      + rewrite canvasOf_small by (unfold maxSize in *; lia).
        unfold maxSize in *. simpl.
        rewrite Bool.orb_true_iff, !Z.leb_le. lia. }
  rewrite Hout.
  destruct ((canvas_width (canvasOf img) <=? 0)
            || (canvas_height (canvasOf img) <=? 0)) eqn:Z0.
  - split; [tauto|]. intros N. exfalso. apply N. apply Hzero. reflexivity.
  - split.
    + split; [discriminate|]. intros H. apply Hzero in H. discriminate.
    + intros _. eexists. reflexivity.
Qed.

Lemma compressImage_fails_on_slivers_witness :
  compressImage (mkFile "strip.png" 0 (Some (mkImage 4000 2)))
    = Rejected "Compression failed".
Proof.
  apply (proj1 (compressImage_fails_on_slivers
                  (mkFile "strip.png" 0 (Some (mkImage 4000 2)))
                  (mkImage 4000 2) eq_refl
                  ltac:(simpl; lia) ltac:(simpl; lia))).
  left. simpl. lia.
Defined.

End CompressionFacts.

(** ** The brace span and the extracted record *)

Section SpanFacts.
Import App.

Lemma fromFirstBrace_split (l r : list ascii) :
  fromFirstBrace l = Some r ->
  exists a, l = a ++ "{"%char :: r /\ ~ In "{"%char a.
Proof.
  revert r. induction l as [|x l IH]; intros r; simpl; [discriminate|].
  destruct (Ascii.eqb_spec x "{") as [->|N].
  - intros [= ->]. exists []. split; [reflexivity|]. intros [].
  - intros H. destruct (IH r H) as (a & -> & Na).
    exists (x :: a). split; [reflexivity|].
    intros [E|I]; [congruence|tauto].
Qed.

Lemma upToLastBrace_split (l p : list ascii) :
  upToLastBrace l = Some p ->
  exists b c, l = b ++ "}"%char :: c /\ p = b ++ ["}"%char] /\
              ~ In "}"%char c.
Proof.
  revert p. induction l as [|x l IH]; intros p; simpl; [discriminate|].
  destruct (upToLastBrace l) as [q|] eqn:E.
  - intros [= <-]. destruct (IH q eq_refl) as (b & c & -> & -> & Nc).
    exists (x :: b), c. repeat split; auto.
  - destruct (Ascii.eqb_spec x "}") as [->|N]; [|discriminate].
    intros [= <-]. exists [], l. repeat split.
    apply upToLastBrace_None. exact E.
Qed.

Lemma upToLastBrace_snoc (b : list ascii) :
  upToLastBrace (b ++ ["}"%char]) = Some (b ++ ["}"%char]).
Proof.
  induction b as [|x b IH]; simpl; [reflexivity|].
  rewrite IH. reflexivity.
Qed.

(** X3.  The span taken from a response runs from the first opening
    brace of the text to its last closing brace, and matching the span
    again returns the span itself. *)
Theorem jsonMatch_is_first_to_last_brace (text span : string) :
  jsonMatch text = Some span ->
  (exists a b c,
     JS.chars text = a ++ "{"%char :: b ++ "}"%char :: c /\
     JS.chars span = "{"%char :: b ++ ["}"%char] /\
     ~ In "{"%char a /\ ~ In "}"%char c) /\
  jsonMatch span = Some span.
Proof.
  unfold jsonMatch.
  destruct (fromFirstBrace (JS.chars text)) as [r|] eqn:F; [|discriminate].
  destruct (upToLastBrace r) as [p|] eqn:U; [|discriminate].
  intros [= <-].
  destruct (fromFirstBrace_split _ _ F) as (a & Et & Na).
  destruct (upToLastBrace_split _ _ U) as (b & c & -> & -> & Nc).
  assert (Es : JS.chars (JS.str ("{"%char :: b ++ ["}"%char]))
               = "{"%char :: b ++ ["}"%char]).
  { unfold JS.chars, JS.str. apply list_ascii_of_string_of_list_ascii. }
  split.
  - exists a, b, c. repeat split; assumption.
  - change (String "{" (JS.str (b ++ ["}"%char])))
      with (JS.str ("{"%char :: b ++ ["}"%char])).
    rewrite Es. simpl. rewrite upToLastBrace_snoc. reflexivity.
Qed.

Lemma jsonMatch_is_first_to_last_brace_witness :
  jsonMatch "Here you go: {a} and {b}. Bye" = Some "{a} and {b}" /\
  jsonMatch "{a} and {b}" = Some "{a} and {b}".
Proof.
  split; [reflexivity|].
  apply (jsonMatch_is_first_to_last_brace "Here you go: {a} and {b}. Bye").
  reflexivity.
Defined.

Variable apiKey : JS.Value.
Variable JSON_parse : string -> option JS.Object.
Variable newDate : Z -> JSDate.
Variable createObjectURL : Blob -> string.

(** X4.  In the extracted record every property of the parsed object
    is kept as it is, a date that is present is kept even when it is
    empty (the capture date does not replace it), [rawText] is the
    response text unless the object has its own, and no other property
    is invented: a field the object lacks stays unset. *)
Theorem extract_keeps_the_parsed_object
    (file : File) (text span : string) (obj : JS.Object) :
  jsonMatch text = Some span -> JSON_parse span = Some obj ->
  exists data,
    extract JSON_parse newDate file text = Some data /\
    (forall k v, obj !! k = Some v -> data !! k = Some v) /\
    (forall v, obj !! "date" = Some v -> JS.get data "date" = v) /\
    (obj !! "rawText" = None -> JS.get data "rawText" = JS.JStr text) /\
    (forall k, obj !! k = None -> k <> "rawText" -> k <> "date" ->
               data !! k = None).
Proof.
  intros Hm Hp. eexists. split.
  - unfold extract. rewrite Hm, Hp. reflexivity.
  - unfold JS.spread. split; [|split; [|split]].
    + intros k v H. apply lookup_union_Some_l. exact H.
    + intros v H. unfold JS.get.
      rewrite (lookup_union_Some_l _ _ _ _ H). reflexivity.
    + intros H. unfold JS.get. rewrite lookup_union_r by exact H.
      simpl. rewrite lookup_insert_eq. reflexivity.
    + intros k H N1 N2. rewrite lookup_union_r by exact H.
      simpl. rewrite !lookup_insert_ne by congruence.
      apply lookup_empty.
Qed.

End SpanFacts.

Lemma extract_keeps_the_parsed_object_witness :
  let obj : JS.Object :=
    {[ "date" := JS.JStr ""; "quantity" := JS.JStr "12.5" ]} in
  exists data,
    App.extract (fun _ => Some obj) (fun _ => mkDate 5 0 2024)
                (mkFile "IMG_0004.jpg" 0 None) "{...}" = Some data /\
    JS.get data "date" = JS.JStr "" /\
    data !! "amount" = None.
Proof.
  intros obj.
  destruct (extract_keeps_the_parsed_object (fun _ => Some obj)
              (fun _ => mkDate 5 0 2024) (mkFile "IMG_0004.jpg" 0 None)
              "{...}" "{...}" obj eq_refl eq_refl)
    as (data & E & _ & D & _ & N).
  exists data. split; [exact E|]. split.
  - apply D. reflexivity.
  - apply N; [reflexivity | discriminate | discriminate].
Defined.

(** ** [handleImageUpload]: what an attempt leaves behind *)

Section UploadFacts.
Import App.

Variable apiKey : JS.Value.
Variable JSON_parse : string -> option JS.Object.
Variable newDate : Z -> JSDate.
Variable createObjectURL : Blob -> string.

Local Abbreviation upload_step :=
  (handleImageUpload apiKey JSON_parse newDate createObjectURL).

(** X5.  With the API key set, parsed data is present after an attempt
    only when the whole chain succeeded: the picture was compressed,
    the model answered, and the answer held a span that parsed.  The
    state then holds the compressed image and its preview, processing
    has ended and nothing was reported as failed. *)
Theorem parsed_data_only_after_full_success
    (file : File) (response : Result string) (st : State) (data : JS.Object) :
  JS.truthy apiKey = true ->
  parsedData (upload_step (Some file) response st) = Some data ->
  exists blob text,
    ImageNormalizer.compressImage file = Resolved blob /\
    response = Resolved text /\
    extract JSON_parse newDate file text = Some data /\
    compressedBlob (upload_step (Some file) response st) = Some blob /\
    selectedImage (upload_step (Some file) response st)
      = Some (createObjectURL blob) /\
    isProcessing (upload_step (Some file) response st) = false /\
    alerts (upload_step (Some file) response st) = alerts st.
Proof.
  intros K. unfold handleImageUpload. rewrite K. simpl negb. cbv iota.
  destruct (ImageNormalizer.compressImage file) as [blob|e]; [|discriminate].
  destruct response as [text|e]; [|discriminate].
  destruct (extract JSON_parse newDate file text) as [d|] eqn:E; [|discriminate].
  simpl. intros [= <-]. exists blob, text. auto 10.
Qed.

(** X6.  A failed attempt with the API key set always clears the
    parsed data of the previous receipt.  When the compression itself
    failed the stored image and preview are those of before; when the
    model call or the parsing failed they are already those of the new
    picture.  Without the API key nothing but the alert list changes,
    so the previous record stays. *)
Theorem failed_attempt_effects (file : File) (response : Result string)
    (st : State) :
  (JS.truthy apiKey = false ->
   upload_step (Some file) response st = alert apiKeyMissing st) /\
  (JS.truthy apiKey = true ->
   forall e, ImageNormalizer.compressImage file = Rejected e ->
   let st' := upload_step (Some file) response st in
   parsedData st' = None /\ compressedBlob st' = compressedBlob st /\
   selectedImage st' = selectedImage st /\ isProcessing st' = false /\
   alerts st' = alerts st ++ [processingFailed]) /\
  (JS.truthy apiKey = true ->
   forall blob, ImageNormalizer.compressImage file = Resolved blob ->
   (match response with
    | Rejected _ => True
    | Resolved text => extract JSON_parse newDate file text = None
    end) ->
   let st' := upload_step (Some file) response st in
   parsedData st' = None /\ compressedBlob st' = Some blob /\
   selectedImage st' = Some (createObjectURL blob) /\
   isProcessing st' = false /\
   alerts st' = alerts st ++ [processingFailed]).
Proof.
  unfold handleImageUpload. split; [|split].
  - intros ->. reflexivity.
  - intros -> e ->. simpl. auto.
  - intros -> blob -> H. destruct response as [text|e].
    + rewrite H. simpl. auto.
    + simpl. auto.
Qed.

End UploadFacts.

Lemma parsed_data_only_after_full_success_witness :
  let file := mkFile "IMG_0005.jpg" 0 (Some (mkImage 3200 2400)) in
  let obj : JS.Object := {[ "amount" := JS.JStr "562" ]} in
  let st' := App.handleImageUpload (JS.JStr "key") (fun _ => Some obj)
               (fun _ => mkDate 5 0 2024) (fun _ => "blob:preview")
               (Some file) (Resolved "{}") (App.initial None) in
  App.compressedBlob st' = Some (mkBlob 1600 1200 "image/jpeg" (85 # 100)) /\
  App.alerts st' = [].
Proof.
  intros file obj st'.
  destruct (parsed_data_only_after_full_success (JS.JStr "key")
              (fun _ => Some obj) (fun _ => mkDate 5 0 2024)
              (fun _ => "blob:preview") file (Resolved "{}")
              (App.initial None) _ eq_refl eq_refl)
    as (blob & text & C & _ & _ & B & _ & _ & A).
  split; [|exact A].
  subst st'. rewrite B.
  assert (H : Resolved blob = Resolved (mkBlob 1600 1200 "image/jpeg" (85 # 100)))
    by (rewrite <- C; reflexivity).
  injection H as ->. reflexivity.
Defined.

Lemma failed_attempt_effects_witness :
  let file := mkFile "IMG_0006.jpg" 0 (Some (mkImage 3200 2400)) in
  let st' := App.handleImageUpload (JS.JStr "key") (fun _ => None)
               (fun _ => mkDate 5 0 2024) (fun _ => "blob:preview")
               (Some file) (Rejected "503") (App.initial None) in
  App.parsedData st' = None /\
  App.compressedBlob st' = Some (mkBlob 1600 1200 "image/jpeg" (85 # 100)).
Proof.
  intros file st'.
  destruct (proj2 (proj2 (failed_attempt_effects (JS.JStr "key")
              (fun _ => None) (fun _ => mkDate 5 0 2024)
              (fun _ => "blob:preview") file (Rejected "503")
              (App.initial None))) eq_refl
              (mkBlob 1600 1200 "image/jpeg" (85 # 100)) eq_refl I)
    as (P & B & _).
  split; assumption.
Defined.

(** ** The two forms: required fields, the date, accepted edits *)

Section FormFacts.
Import App.

Lemma validate_nil (fields : list (string * Form.Rules)) (data : JS.Object) :
  Form.validate fields data = [] <->
  forall name r, In (name, r) fields ->
                 Form.validateField name r (JS.get data name) = None.
Proof.
  unfold Form.validate. induction fields as [|[n r] fields IH]; simpl.
  - split; [intros _ ? ? []|reflexivity].
  - destruct (Form.validateField n r (JS.get data n)) as [e|] eqn:E.
    + split; [discriminate|]. intros H.
      rewrite (H n r) in E by (left; reflexivity). discriminate.
    + rewrite IH. split.
      * intros H name r' [[= <- <-]|I]; [exact E|apply H, I].
      * intros H name r' I. apply H. right. exact I.
Qed.

Lemma required_accepts (name : string) (v : JS.Value) :
  Form.validateField name requiredOnly v = None <-> Form.isEmpty v = false.
Proof.
  unfold Form.validateField, requiredOnly; simpl.
  destruct (Form.isEmpty v); simpl.
  - split; discriminate.
  - destruct v; tauto.
Qed.

Lemma manualRules_fields (name : string) (r : Form.Rules) :
  In (name, r) manualRules <-> In name manualFields /\ r = requiredOnly.
Proof.
  unfold manualRules, manualFields; simpl. split.
  - intros H.
    repeat (destruct H as [[= <- <-]|H]; [split; [tauto|reflexivity]|]).
    destruct H.
  - intros [H ->].
    repeat (destruct H as [<-|H]; [tauto|]). destruct H.
Qed.

(** X7.  On the manual entry form (manual mode, nothing loaded) a
    submission is accepted exactly when each of date, quantity, fat,
    snfKg, rate and amount is non-empty: then the record is built,
    otherwise the state does not change at all. *)
Theorem manual_form_requires_its_six_fields (st : State) (data : JS.Object) :
  currentView st = upload -> entryMode st = manual ->
  hasImage st = false -> parsedData st = None ->
  (Forall (fun k => Form.isEmpty (JS.get data k) = false) manualFields ->
   handleSubmit manualEntry data st = manualEntry data st /\
   is_Some (parsedData (handleSubmit manualEntry data st))) /\
  (Exists (fun k => Form.isEmpty (JS.get data k) = true) manualFields ->
   handleSubmit manualEntry data st = st).
Proof.
  intros V M I P.
  assert (R : mountedRules st = manualRules).
  { unfold mountedRules, hasData. rewrite V, M, I, P. reflexivity. }
  unfold handleSubmit. rewrite R. split.
  - intros F.
    assert (N : Form.validate manualRules data = []).
    { apply validate_nil. intros name r Hin.
      apply manualRules_fields in Hin as [Hin ->].
      apply required_accepts. rewrite Forall_forall in F.
      apply F. apply list_elem_of_In. exact Hin. }
    rewrite N. split; [reflexivity|]. eexists. reflexivity.
  - intros E. apply Exists_exists in E as (k & Hin & Hk).
    apply list_elem_of_In in Hin.
    destruct (Form.validate manualRules data) as [|e l] eqn:N; [|reflexivity].
    exfalso.
    pose proof (proj1 (validate_nil manualRules data) N k requiredOnly) as H.
    rewrite required_accepts in H. rewrite H in Hk; [discriminate|].
    apply manualRules_fields. auto.
Qed.

End FormFacts.

Lemma manual_form_requires_its_six_fields_witness :
  let st := App.mkState None App.upload App.manual None None None
                        false false false [] in
  let data : JS.Object :=
    list_to_map [ ("date", JS.JStr "2024-01-05"); ("quantity", JS.JStr "");
                  ("fat", JS.JStr "4.0"); ("snfKg", JS.JStr "8.5");
                  ("rate", JS.JStr "45"); ("amount", JS.JStr "562") ] in
  App.handleSubmit App.manualEntry data st = st.
Proof.
  intros st data.
  apply (proj2 (manual_form_requires_its_six_fields st data
                  eq_refl eq_refl eq_refl eq_refl)).
  apply Exists_cons_tl, Exists_cons_hd. reflexivity.
Defined.

Section ManualDateFacts.
Import App.

Lemma split_without (sep : ascii) (a : list ascii) :
  ~ In sep a -> split sep a = [a].
Proof.
  induction a as [|x a IH]; simpl; [reflexivity|].
  intros N. destruct (Ascii.eqb_spec x sep) as [->|Nx]; [tauto|].
  rewrite IH by tauto. reflexivity.
Qed.

Lemma split_at (sep : ascii) (a r : list ascii) :
  ~ In sep a -> split sep (a ++ sep :: r) = a :: split sep r.
Proof.
  induction a as [|x a IH]; simpl.
  - intros _. rewrite Ascii.eqb_refl. reflexivity.
  - intros N. destruct (Ascii.eqb_spec x sep) as [->|Nx]; [tauto|].
    rewrite IH by tauto. reflexivity.
Qed.

Lemma occursIn_single (c : ascii) (l : list ascii) :
  JS.occursIn [c] l = true <-> In c l.
Proof.
  induction l as [|x l IH]; simpl.
  - split; [discriminate|tauto].
  - rewrite Bool.orb_true_iff, IH.
    destruct (Ascii.eqb_spec c x) as [->|N]; split; auto.
    + intros [H|H]; [discriminate|auto].
    + intros [H|H]; [congruence|auto].
Qed.


Lemma manualEntry_date (data : JS.Object) (st : State) :
  exists pd,
    parsedData (manualEntry data st) = Some pd /\
    JS.get pd "date" =
    match JS.get data "date" with
    | JS.JStr d =>
        if negb (String.eqb d "") && JS.includes d "-" then
          let parts := map JS.str (split "-" (JS.chars d)) in
          JS.JStr (nth 2 parts "undefined" +:+ "/" +:+
                   nth 1 parts "undefined" +:+ "/" +:+
                   nth 0 parts "undefined")
        else JS.JStr d
    | v => v
    end.
Proof.
  eexists. split; [reflexivity|].
  unfold JS.get at 1. simpl.
  rewrite lookup_insert_ne by discriminate.
  rewrite lookup_insert_eq. reflexivity.
Qed.

(** X8.  The manual entry form turns a date [y-m-d] (three parts
    without a dash, as a date input gives it) into [d/m/y] in the
    record, and leaves a non-empty date without any dash as it is. *)
Theorem manual_date_is_reordered (data : JS.Object) (st : State) :
  (forall y m d : string,
     ~ In "-"%char (JS.chars y) -> ~ In "-"%char (JS.chars m) ->
     ~ In "-"%char (JS.chars d) ->
     data !! "date" = Some (JS.JStr (y +:+ "-" +:+ m +:+ "-" +:+ d)) ->
     exists pd, parsedData (manualEntry data st) = Some pd /\
                JS.get pd "date" = JS.JStr (d +:+ "/" +:+ m +:+ "/" +:+ y)) /\
  (forall s : string,
     ~ In "-"%char (JS.chars s) ->
     data !! "date" = Some (JS.JStr s) ->
     exists pd, parsedData (manualEntry data st) = Some pd /\
                JS.get pd "date" = JS.JStr s).
Proof.
  destruct (manualEntry_date data st) as (pd & E & D).
  split.
  - intros y m d Ny Nm Nd Hd. exists pd. split; [exact E|].
    rewrite D. unfold JS.get. rewrite Hd. simpl.
    assert (C : JS.chars (y +:+ "-" +:+ m +:+ "-" +:+ d)
                = JS.chars y ++ "-"%char :: JS.chars m ++ "-"%char :: JS.chars d).
    { rewrite !chars_app. reflexivity. }
    assert (I : JS.includes (y +:+ "-" +:+ m +:+ "-" +:+ d) "-" = true).
    { unfold JS.includes. apply occursIn_single. rewrite C.
      apply in_or_app. right. left. reflexivity. }
    assert (Ne : String.eqb (y +:+ "-" +:+ m +:+ "-" +:+ d) "" = false).
    { apply String.eqb_neq. intros Z0. rewrite Z0 in C.
      destruct (JS.chars y); discriminate C. }
    rewrite I, Ne. simpl. rewrite C.
    rewrite (split_at _ _ _ Ny), (split_at _ _ _ Nm), (split_without _ _ Nd).
    simpl. rewrite !str_chars. reflexivity.
  - intros s Ns Hs. exists pd. split; [exact E|].
    rewrite D. unfold JS.get. rewrite Hs. simpl.
    assert (I : JS.includes s "-" = false).
    { unfold JS.includes.
      destruct (JS.occursIn (JS.chars "-") (JS.chars s)) eqn:O; [|reflexivity].
      exfalso. apply Ns. apply occursIn_single. exact O. }
    rewrite I, Bool.andb_false_r. reflexivity.
Qed.

Lemma manual_date_is_reordered_witness :
  exists pd,
    parsedData (manualEntry snf_3_2_fat_4_0 (initial None)) = Some pd /\
    JS.get pd "date" = JS.JStr "05/01/2024".
Proof.
  apply (proj1 (manual_date_is_reordered snf_3_2_fat_4_0 (initial None))
               "2024" "01" "05").
  - vm_compute. intuition discriminate.
  - vm_compute. intuition discriminate.
  - vm_compute. intuition discriminate.
  - reflexivity.
Defined.

(** X9.  While the extracted data is being edited, a submission with
    any field error changes nothing; an accepted submission is merged
    over the parsed data, and then every numeric field the submission
    carries is empty, or is not a number, or reads as a binary64 number
    between the binary64 bounds of the field; a non-empty date matches
    the date pattern, every submitted property is in the record and every
    property not submitted keeps its parsed value. *)
Theorem accepted_edit_is_within_the_ranges
    (st : State) (pd data : JS.Object) :
  currentView st = upload -> parsedData st = Some pd ->
  isProcessing st = false -> isEditing st = true ->
  (Form.validate editRules data <> [] ->
   handleSubmit onSubmit data st = st) /\
  (Form.validate editRules data = [] ->
   handleSubmit onSubmit data st = onSubmit data st /\
   parsedData (onSubmit data st) = Some (JS.spread pd data) /\
   (forall name lo64 hi64 v,
      In (name, (lo64, hi64)) (binary64Ranges 100) ->
      data !! name = Some v ->
      Form.isEmpty v = true \/
      within lo64 hi64 (JS.Number (Form.toString v))) /\
   (forall s, data !! "date" = Some (JS.JStr s) -> s <> "" ->
              datePattern s = true) /\
   (forall k v, data !! k = Some v -> JS.spread pd data !! k = Some v) /\
   (forall k, data !! k = None -> JS.spread pd data !! k = pd !! k)).
Proof.
  intros V P I E.
  assert (R : mountedRules st = editRules).
  { unfold mountedRules, hasData. rewrite V, P, I, E.
    rewrite Bool.andb_false_r. reflexivity. }
  unfold handleSubmit. rewrite R. split.
  - intros N. destruct (Form.validate editRules data); [congruence|reflexivity].
  - intros N. rewrite N. split; [reflexivity|].
    split; [unfold onSubmit; simpl; rewrite P; reflexivity|].
    pose proof (proj1 (validate_nil editRules data) N) as Hall.
    split; [|split; [|split]].
    + intros name lo hi v Hin Hv.
      apply (editRules_accept name lo hi v Hin).
      replace v with (JS.get data name) by (unfold JS.get; rewrite Hv; reflexivity).
      simpl in Hin.
      repeat (destruct Hin as [[= <- <- <-]|Hin];
              [match goal with
               | |- Form.errorOf _ ?n _ = _ =>
                   rewrite (errorOf_find editRules n _ _ eq_refl)
               end;
               apply Hall; simpl; tauto|]).
      destruct Hin.
    + intros s Hs Ns.
      pose proof (Hall "date" _ (or_introl eq_refl)) as H.
      unfold JS.get in H. rewrite Hs in H. simpl in H.
      unfold Form.validateField in H. simpl in H.
      apply String.eqb_neq in Ns. rewrite Ns in H. simpl in H.
      destruct (datePattern s); [reflexivity|discriminate].
    + intros k v H. unfold JS.spread. apply lookup_union_Some_l. exact H.
    + intros k H. unfold JS.spread. apply lookup_union_r. exact H.
Qed.

Lemma accepted_edit_is_within_the_ranges_witness :
  let rejected : JS.Object := {[ "quantity" := JS.JStr "1000" ]} in
  let accepted : JS.Object :=
    {[ "quantity" := JS.JStr "500.00000000000000001" ]} in
  handleSubmit onSubmit rejected (editing camera) = editing camera /\
  parsedData (handleSubmit onSubmit accepted (editing camera))
    = Some (JS.spread ∅ accepted) /\
  (Form.isEmpty (JS.JStr "500.00000000000000001") = true \/
   within (3602879701896397 # 36028797018963968) 500
          (JS.Number "500.00000000000000001")).
Proof.
  intros rejected accepted.
  split.
  - apply (proj1 (accepted_edit_is_within_the_ranges (editing camera) ∅
                    rejected eq_refl eq_refl eq_refl eq_refl)).
    vm_compute. discriminate.
  - destruct (proj2 (accepted_edit_is_within_the_ranges (editing camera) ∅
                       accepted eq_refl eq_refl eq_refl eq_refl))
      as (S1 & S2 & W & _).
    + vm_compute. reflexivity.
    + split; [rewrite S1; exact S2|].
      exact (W "quantity" (3602879701896397 # 36028797018963968) 500%Q
               (JS.JStr "500.00000000000000001") (or_introl eq_refl) eq_refl).
Defined.

End ManualDateFacts.

(** ** [saveReceipt]: what it changes and when it fails *)

Section SaveFacts.
Import Supabase ReceiptService.

Ltac failed_with Failed b0 objs :=
  simpl; apply (Failed _ b0 objs); simpl; rewrite ?app_nil_r; auto;
  try lia; try congruence; try (intros _; eexists; reflexivity).

Lemma saveReceipt_denied (auth : option string) (userId : string)
    (rd : ReceiptData) (imageBlob : option Blob) (b : Backend) :
  canInsert auth b = false ->
  saveReceipt auth userId rd imageBlob b
  = (Rejected "new row violates row-level security policy", b).
Proof.
  intros H. unfold saveReceipt. destruct imageBlob as [blob|].
  - unfold upload.
    change (canUpload auth b) with (canInsert auth b). rewrite H. reflexivity.
  - unfold insert. rewrite H. reflexivity.
Qed.

(** X10.  Whatever its arguments and outcome, [saveReceipt] leaves the
    profiles and the clock alone and only ever appends: at most one row
    to the table, exactly when it resolves, and at most one object to
    the bucket.  No stored row or image is changed or removed. *)
Theorem saveReceipt_only_appends (auth : option string) (userId : string)
    (rd : ReceiptData) (imageBlob : option Blob) (b : Backend) :
  let r := fst (saveReceipt auth userId rd imageBlob b) in
  let b' := snd (saveReceipt auth userId rd imageBlob b) in
  profiles b' = profiles b /\ clock b' = clock b /\
  (exists rows, receipts b' = receipts b ++ rows /\ (length rows <= 1)%nat /\
                (rows <> [] <-> exists ident, r = Resolved ident)) /\
  (exists objs, bucket b' = bucket b ++ objs /\ (length objs <= 1)%nat /\
                (objs <> [] -> is_Some imageBlob)).
Proof.
  assert (Failed : forall (e : string) (b0 : Backend) (objs : list (string * Blob)),
            profiles b0 = profiles b -> clock b0 = clock b ->
            receipts b0 = receipts b -> bucket b0 = bucket b ++ objs ->
            (length objs <= 1)%nat -> (objs <> [] -> is_Some imageBlob) ->
            profiles b0 = profiles b /\ clock b0 = clock b /\
            (exists rows, receipts b0 = receipts b ++ rows /\
               (length rows <= 1)%nat /\
               (rows <> [] <-> exists ident, Rejected (A:=string) e = Resolved ident)) /\
            (exists objs, bucket b0 = bucket b ++ objs /\
               (length objs <= 1)%nat /\ (objs <> [] -> is_Some imageBlob))).
  { intros e b0 objs Hp Hc Hr Hb Hl Hi. split; [exact Hp|]. split; [exact Hc|].
    split.
    - exists []. rewrite app_nil_r. split; [exact Hr|]. split; [simpl; lia|].
      split; [congruence|]. intros (i & Hi'). discriminate.
    - exists objs. auto. }
  intros r b'. subst r b'. unfold saveReceipt.
  destruct imageBlob as [blob|].
  - unfold upload. destruct (canUpload auth b); simpl negb; cbv iota;
      [|failed_with Failed b (@nil (string * Blob))].
    destruct (existsb _ (bucket b));
      [failed_with Failed b (@nil (string * Blob))|].
    unfold insert.
    match goal with
    | |- context [mkBackend ?p ?rs ?bk ?c ?i] => set (b1 := mkBackend p rs bk c i)
    end.
    set (obj := (userId +:+ "/" +:+ JS.StringOfInt (clock b) +:+ ".jpg", blob)).
    destruct (canInsert auth b1); simpl negb; cbv iota;
      [|failed_with Failed b1 [obj]].
    destruct (isAccount _ b1); simpl negb; cbv iota;
      [|failed_with Failed b1 [obj]].
    simpl.
    repeat match goal with
           | |- context [match column ?v with _ => _ end] =>
               destruct (column v)
           end;
      try (failed_with Failed b1 [obj]).
    simpl. split; [reflexivity|]. split; [reflexivity|]. split.
    + eexists [_]. split; [reflexivity|]. split; [simpl; lia|].
      split; [intros _; eexists; reflexivity|discriminate].
    + eexists [_]. split; [reflexivity|]. split; [simpl; lia|].
      intros _. eexists. reflexivity.
  - unfold insert. destruct (canInsert auth b); simpl negb; cbv iota;
      [|failed_with Failed b (@nil (string * Blob))].
    destruct (isAccount _ b); simpl negb; cbv iota;
      [|failed_with Failed b (@nil (string * Blob))].
    simpl.
    repeat match goal with
           | |- context [match column ?v with _ => _ end] =>
               destruct (column v)
           end;
      try (failed_with Failed b (@nil (string * Blob))).
    simpl. split; [reflexivity|]. split; [reflexivity|]. split.
    + eexists [_]. split; [reflexivity|]. split; [simpl; lia|].
      split; [intros _; eexists; reflexivity|discriminate].
    + exists []. rewrite app_nil_r. split; [reflexivity|].
      split; [simpl; lia|congruence].
Qed.

Lemma insert_refused (auth : option string) (p : Payload) (b : Backend) :
  canInsert auth b = true ->
  isAccount (p_user_id p) b &&
  forallb (fun v => bool_decide (is_Some (column v)))
          [ p_date p; p_quantity p; p_fat p; p_clr p; p_base_rate p;
            p_rate p; p_amount p ] = false ->
  exists e, insert auth p b = Rejected e.
Proof.
  intros Hrole H. unfold insert. rewrite Hrole. simpl negb. cbv iota.
  destruct (isAccount (p_user_id p) b); simpl in H |- *; [|eauto].
  destruct (column (p_date p)); simpl in H; [|eauto].
  destruct (column (p_quantity p)); simpl in H; [|eauto].
  destruct (column (p_fat p)); simpl in H; [|eauto].
  destruct (column (p_clr p)); simpl in H; [|eauto].
  destruct (column (p_base_rate p)); simpl in H; [|eauto].
  destruct (column (p_rate p)); simpl in H; [|eauto].
  destruct (column (p_amount p)); simpl in H; [discriminate|eauto].
Qed.

(** X11.  The upload is not undone by a refused insert: when the
    caller may write and the image path is free but the record breaks a
    constraint of the table (unknown owner, or a required column that
    is not a string), [saveReceipt] rejects, adds no row, and leaves
    the uploaded image in the bucket. *)
Theorem refused_insert_leaves_the_image (caller userId : string)
    (rd : ReceiptData) (blob : Blob) (b : Backend) :
  canInsert (Some caller) b = true ->
  pathTaken (imagePath userId b) b = false ->
  insertable userId rd b = false ->
  exists e b',
    saveReceipt (Some caller) userId rd (Some blob) b = (Rejected e, b') /\
    receipts b' = receipts b /\
    bucket b' = bucket b ++ [(imagePath userId b, blob)].
Proof.
  intros Hrole Hfree Hins. unfold saveReceipt, upload.
  fold (imagePath userId b).
  change (canUpload (Some caller) b) with (canInsert (Some caller) b).
  rewrite Hrole. simpl negb. cbv iota.
  fold (pathTaken (imagePath userId b) b). rewrite Hfree.
  match goal with
  | |- context [insert ?a ?p ?b1] =>
      destruct (insert_refused a p b1 Hrole Hins) as (e & ->)
  end.
  eexists _, _. split; [reflexivity|]. split; reflexivity.
Qed.

Lemma refused_insert_leaves_the_image_witness :
  exists e b',
    saveReceipt (Some "alice") "nobody" tooSmallQuantity
                (Some (mkBlob 1600 1200 "image/jpeg" (85 # 100))) twoOwners
      = (Rejected e, b') /\
    receipts b' = receipts twoOwners /\
    bucket b' = [("nobody/1704585600000.jpg",
                  mkBlob 1600 1200 "image/jpeg" (85 # 100))].
Proof.
  exact (refused_insert_leaves_the_image "alice" "nobody" tooSmallQuantity
           (mkBlob 1600 1200 "image/jpeg" (85 # 100)) twoOwners
           eq_refl eq_refl eq_refl).
Defined.

Lemma handleSaveReceipt_denied (st : App.State) (b : Backend) (u : App.User) :
  App.user st = Some u ->
  canInsert (Some (App.id u)) b = false ->
  App.handleSaveReceipt st b =
  (match App.parsedData st, App.entryMode st, App.compressedBlob st with
   | Some _, App.manual, _ | Some _, _, Some _ =>
       App.setIsSaving false
         (App.alert App.saveFailed (App.setIsSaving true st))
   | _, _, _ => st
   end, b).
Proof.
  intros Hu Hrole. unfold App.handleSaveReceipt. rewrite Hu.
  assert (S : forall data blob,
            App.saveAndReport u data blob st b
            = (App.setIsSaving false
                 (App.alert App.saveFailed (App.setIsSaving true st)), b)).
  { intros data blob. unfold App.saveAndReport.
    rewrite saveReceipt_denied by exact Hrole. reflexivity. }
  destruct (App.parsedData st) as [data|]; [|reflexivity].
  destruct (App.entryMode st); destruct (App.compressedBlob st) as [blob|];
    rewrite ?S; reflexivity.
Qed.

(** X12.  When the signed-in user lacks the admin or member role,
    [handleSaveReceipt] stores nothing and keeps the session: the
    backend is unchanged and the parsed data, the compressed image and
    the preview stay in the state; when a save was attempted the failure
    is reported and the saving flag is cleared. *)
Theorem rejected_save_keeps_the_session
    (st : App.State) (b : Backend) (u : App.User) :
  App.user st = Some u ->
  canInsert (Some (App.id u)) b = false ->
  let st' := fst (App.handleSaveReceipt st b) in
  snd (App.handleSaveReceipt st b) = b /\
  App.parsedData st' = App.parsedData st /\
  App.compressedBlob st' = App.compressedBlob st /\
  App.selectedImage st' = App.selectedImage st /\
  (is_Some (App.parsedData st) ->
   App.entryMode st = App.manual \/ is_Some (App.compressedBlob st) ->
   App.alerts st' = App.alerts st ++ [App.saveFailed] /\
   App.isSaving st' = false).
Proof.
  intros Hu Hrole st'. subst st'.
  rewrite (handleSaveReceipt_denied st b u Hu Hrole). simpl.
  destruct (App.parsedData st) as [data|] eqn:Hd.
  - destruct (App.entryMode st) eqn:Hm;
      destruct (App.compressedBlob st) as [blob|] eqn:Hb; simpl;
      rewrite ?Hd, ?Hb;
      (split; [reflexivity|]; split; [auto|]; split; [auto|];
       split; [auto|]);
      try (intros _ _; split; reflexivity);
      intros _ [HH|[x HH]]; discriminate.
  - split; [reflexivity|]. split; [auto|]. split; [auto|]. split; [auto|].
    intros [x HH]. discriminate.
Qed.

Lemma rejected_save_keeps_the_session_witness :
  let carol := mkProfile "carol" "carol@example.com" viewer in
  let b := mkBackend [carol] [] [] 1704585600000 0 in
  let st := App.mkState (Some (App.mkUser "carol" "carol@example.com"))
              App.upload App.manual None None
              (Some {[ "date" := JS.JStr "07/01/2024" ]})
              false false false [] in
  snd (App.handleSaveReceipt st b) = b /\
  App.parsedData (fst (App.handleSaveReceipt st b))
    = Some {[ "date" := JS.JStr "07/01/2024" ]}.
Proof.
  intros carol b st.
  destruct (rejected_save_keeps_the_session st b
              (App.mkUser "carol" "carol@example.com") eq_refl eq_refl)
    as (B & P & _).
  split; [exact B | exact P].
Defined.

(** X13.  [handleSaveReceipt] changes the backend only when a user is
    signed in with the admin or member role, parsed data is present, and
    either the entry mode is manual or a compressed image is held. *)
Theorem stores_only_for_authorized_users (st : App.State) (b : Backend) :
  snd (App.handleSaveReceipt st b) <> b ->
  exists u data,
    App.user st = Some u /\ App.parsedData st = Some data /\
    canInsert (Some (App.id u)) b = true /\
    (App.entryMode st = App.manual \/ is_Some (App.compressedBlob st)).
Proof.
  intros H.
  destruct (App.user st) as [u|] eqn:Hu.
  2:{ exfalso. apply H. unfold App.handleSaveReceipt. rewrite Hu. reflexivity. }
  destruct (canInsert (Some (App.id u)) b) eqn:Hrole.
  2:{ exfalso. apply H.
      rewrite (handleSaveReceipt_denied st b u Hu Hrole). reflexivity. }
  destruct (App.parsedData st) as [data|] eqn:Hd.
  2:{ exfalso. apply H. unfold App.handleSaveReceipt. rewrite Hu, Hd. reflexivity. }
  exists u, data. repeat split; auto.
  destruct (App.entryMode st) eqn:Hm; [|left; reflexivity].
  destruct (App.compressedBlob st) as [blob|] eqn:Hb; [right; eauto|].
  exfalso. apply H. unfold App.handleSaveReceipt.
  rewrite Hu, Hd, Hm, Hb. reflexivity.
Qed.

Lemma stores_only_for_authorized_users_witness :
  let st := App.mkState (Some (App.mkUser "alice" "alice@example.com"))
              App.upload App.manual None None
              (Some {[ "date" := JS.JStr "07/01/2024" ]})
              false false false [] in
  exists u data,
    App.user st = Some u /\ App.parsedData st = Some data /\
    canInsert (Some (App.id u)) twoOwners = true /\
    (App.entryMode st = App.manual \/ is_Some (App.compressedBlob st)).
Proof.
  intros st.
  apply (stores_only_for_authorized_users st twoOwners).
  intros H. apply (f_equal (fun b => length (receipts b))) in H.
  vm_compute in H. discriminate H.
Defined.

Section CameraPath.

Variable apiKey : JS.Value.
Variable JSON_parse : string -> option JS.Object.
Variable newDate : Z -> JSDate.
Variable createObjectURL : Blob -> string.

(** X14.  Capture, then save: when the upload step succeeded for a
    signed-in admin or member and the image path is free, saving stores
    the compressed picture (not the original file) at
    [userId/clock.jpg], adds one row of that user whose [image_url] is
    the public address of that object, and resets the session. *)
Theorem capture_then_save_stores_the_compressed_image
    (file : File) (text : string) (data : JS.Object) (blob : Blob)
    (u : App.User) (st : App.State) (b : Backend) :
  JS.truthy apiKey = true ->
  App.user st = Some u ->
  ImageNormalizer.compressImage file = Resolved blob ->
  App.extract JSON_parse newDate file text = Some data ->
  canInsert (Some (App.id u)) b = true ->
  pathTaken (imagePath (App.id u) b) b = false ->
  let st1 := App.handleImageUpload apiKey JSON_parse newDate createObjectURL
               (Some file) (Resolved text) st in
  let st2 := fst (App.handleSaveReceipt st1 b) in
  let b' := snd (App.handleSaveReceipt st1 b) in
  bucket b' = bucket b ++ [(imagePath (App.id u) b, blob)] /\
  (exists row,
     receipts b' = receipts b ++ [row] /\ user_id row = App.id u /\
     image_url row = getPublicUrl (imagePath (App.id u) b)) /\
  App.parsedData st2 = None /\ App.compressedBlob st2 = None /\
  App.selectedImage st2 = None /\ App.isSaving st2 = false /\
  last (App.alerts st2) = Some App.savedMessage.
Proof.
  intros K Hu Hc He Hrole Hfree st1 st2 b'.
  assert (E1 : App.user st1 = Some u /\ App.parsedData st1 = Some data /\
               App.compressedBlob st1 = Some blob).
  { unfold st1, App.handleImageUpload. rewrite K, Hc, He. simpl. auto. }
  destruct E1 as (U1 & P1 & B1).
  assert (S : App.handleSaveReceipt st1 b
              = App.saveAndReport u data (Some blob) st1 b).
  { unfold App.handleSaveReceipt. rewrite U1, P1, B1.
    destruct (App.entryMode st1); reflexivity. }
  unfold st2, b'. rewrite S.
  rewrite saveAndReport_ok by auto. simpl.
  split; [reflexivity|]. split.
  - eexists. split; [reflexivity|]. split; reflexivity.
  - rewrite last_snoc. auto 10.
Qed.

End CameraPath.

Lemma capture_then_save_stores_the_compressed_image_witness :
  let file := mkFile "IMG_0007.jpg" 0 (Some (mkImage 3200 2400)) in
  let obj : JS.Object := {[ "amount" := JS.JStr "562" ]} in
  let st := App.initial (Some (App.mkUser "alice" "alice@example.com")) in
  let st1 := App.handleImageUpload (JS.JStr "key") (fun _ => Some obj)
               (fun _ => mkDate 5 0 2024) (fun _ => "blob:preview")
               (Some file) (Resolved "{}") st in
  bucket (snd (App.handleSaveReceipt st1 twoOwners))
  = [("alice/1704585600000.jpg", mkBlob 1600 1200 "image/jpeg" (85 # 100))].
Proof.
  intros file obj st st1.
  exact (proj1 (capture_then_save_stores_the_compressed_image
                  (JS.JStr "key") (fun _ => Some obj)
                  (fun _ => mkDate 5 0 2024) (fun _ => "blob:preview")
                  file "{}" _ (mkBlob 1600 1200 "image/jpeg" (85 # 100))
                  (App.mkUser "alice" "alice@example.com") st twoOwners
                  eq_refl eq_refl eq_refl eq_refl eq_refl eq_refl)).
Defined.

(** X15.  Manual entry, then save: the row of a manual entry has an
    empty base rate and no fat-kg value, carries the entered SNF in the
    column [snf_kg], and points to a placeholder picture (a 400 x 300
    JPEG at quality 0.8) that is uploaded like a captured image, so its
    [image_url] is an ordinary public address. *)
Theorem manual_entry_is_stored_with_a_placeholder
    (data : JS.Object) (u : App.User) (st : App.State) (b : Backend) :
  App.user st = Some u -> App.entryMode st = App.manual ->
  App.compressedBlob st = None ->
  canInsert (Some (App.id u)) b = true ->
  pathTaken (imagePath (App.id u) b) b = false ->
  let b' := snd (App.handleSaveReceipt (App.manualEntry data st) b) in
  bucket b' = bucket b ++ [(imagePath (App.id u) b,
                            mkBlob 400 300 "image/jpeg" (8 # 10))] /\
  exists row,
    receipts b' = receipts b ++ [row] /\ user_id row = App.id u /\
    base_rate row = "" /\ fat_kg row = None /\
    snf_kg row = column (JS.get data "snfKg") /\
    quantity row = orEmpty (JS.get data "quantity") /\
    image_url row = getPublicUrl (imagePath (App.id u) b).
Proof.
  intros Hu Hm Hb Hrole Hfree b'.
  unfold b', App.handleSaveReceipt, App.manualEntry.
  cbn [App.user App.parsedData App.entryMode App.compressedBlob
       App.setParsedData].
  rewrite Hu, Hm, Hb.
  rewrite saveAndReport_ok by (auto; intros _; exact Hfree).
  simpl. split; [reflexivity|].
  eexists. split; [reflexivity|]. repeat split.
Qed.

Lemma manual_entry_is_stored_with_a_placeholder_witness :
  let st := App.mkState (Some (App.mkUser "alice" "alice@example.com"))
              App.upload App.manual None None None false false false [] in
  exists row,
    receipts (snd (App.handleSaveReceipt
                     (App.manualEntry snf_3_2_fat_4_0 st) twoOwners))
      = [rowOfAlice; rowOfBob; row] /\
    base_rate row = "" /\ snf_kg row = Some "3.2" /\ quantity row = "12.5".
Proof.
  intros st.
  destruct (manual_entry_is_stored_with_a_placeholder snf_3_2_fat_4_0
              (App.mkUser "alice" "alice@example.com") st twoOwners
              eq_refl eq_refl eq_refl eq_refl eq_refl)
    as (_ & row & R & _ & B & _ & S & Q & _).
  exists row. split; [exact R|]. split; [exact B|]. split; [exact S|exact Q].
Defined.

(** *** Saving and listing *)

Lemma listed_In (caller userId : string) (b : Backend) (r : Row) :
  In r (listed (Some caller) userId b) <->
  In r (receipts b) /\ user_id r = userId.
Proof.
  unfold listed.
  destruct (getUserReceipts_lists_the_rows_of_the_user caller userId b)
    as (rs & -> & H & _).
  apply H.
Qed.

Lemma filter_none {A : Type} (l : list A) :
  List.filter (fun _ => false) l = [].
Proof. induction l; simpl; auto. Qed.

(** X16.  A saved receipt can be read back: after a successful
    [saveReceipt] the listing of the owner holds the new row, with the
    fields as given, next to the rows it held before; the listing of
    any other user is the same list as before; and without a session
    the listing is empty. *)
Theorem saved_receipt_is_listed_for_its_owner
    (caller reader userId : string) (rd : ReceiptData)
    (imageBlob : option Blob) (b : Backend) (d q f c br r a : string) :
  canInsert (Some caller) b = true ->
  isAccount userId b = true ->
  (is_Some imageBlob -> pathTaken (imagePath userId b) b = false) ->
  d_date rd = JS.JStr d -> d_quantity rd = JS.JStr q ->
  d_fat rd = JS.JStr f -> d_clr rd = JS.JStr c ->
  d_base_rate rd = JS.JStr br -> d_rate rd = JS.JStr r ->
  d_amount rd = JS.JStr a ->
  let b' := snd (saveReceipt (Some caller) userId rd imageBlob b) in
  let row := savedRow userId rd imageBlob b d q f c br r a in
  (forall x, In x (listed (Some reader) userId b') <->
             In x (listed (Some reader) userId b) \/ x = row) /\
  (forall other, other <> userId ->
     getUserReceipts (Some reader) other b'
     = getUserReceipts (Some reader) other b) /\
  getUserReceipts None userId b' = Resolved [].
Proof.
  intros Hrole Hacc Hfree Ed Eq_ Ef Ec Ebr Er Ea b' row.
  assert (Eb : b' = afterSave userId imageBlob b row).
  { unfold b'. rewrite (saveReceipt_ok caller userId rd imageBlob b
                          d q f c br r a) by assumption. reflexivity. }
  rewrite Eb. split; [|split].
  - intros x. rewrite !listed_In. simpl. rewrite in_app_iff. simpl.
    split.
    + intros [[H | [ <- | [] ]] U]; auto.
    + intros [[H U] | ->]; [auto|]. split; [auto|reflexivity].
  - intros other N. unfold getUserReceipts. simpl.
    rewrite !List.filter_app. simpl.
    apply String.eqb_neq in N. rewrite String.eqb_sym in N. rewrite N.
    rewrite app_nil_r. reflexivity.
  - unfold getUserReceipts. simpl canSelect.
    rewrite filter_none. reflexivity.
Qed.

Lemma saved_receipt_is_listed_for_its_owner_witness :
  let b' := snd (saveReceipt (Some "alice") "alice" tooSmallQuantity None
                             twoOwners) in
  getUserReceipts (Some "alice") "bob" b'
  = getUserReceipts (Some "alice") "bob" twoOwners /\
  getUserReceipts None "alice" b' = Resolved [].
Proof.
  intros b'.
  destruct (saved_receipt_is_listed_for_its_owner "alice" "alice" "alice"
              tooSmallQuantity None twoOwners
              "07/01/2024" "0.099" "4.0" "28" "70.50" "45" "562"
              eq_refl eq_refl
              (fun H => match is_Some_None H with end)
              eq_refl eq_refl eq_refl eq_refl eq_refl eq_refl eq_refl)
    as (_ & O & N).
  split; [apply O; discriminate | exact N].
Defined.

End SaveFacts.

(** ** The [Records] view: what the groups hold and what the filter sees *)

Section RecordsFacts.
Import Records.

Variable monthYear : string -> option string.

Lemma size_push (lab : string) (r : Receipt) (groups : Grouped) :
  length (concat (map snd (push lab r groups)))
  = S (length (concat (map snd groups))).
Proof.
  induction groups as [|[k rs] rest IH]; simpl; [reflexivity|].
  destruct (String.eqb k lab); simpl.
  - rewrite !length_app. simpl. lia.
  - rewrite !length_app, IH. lia.
Qed.

Lemma size_fold (l : list Receipt) (acc : Grouped) :
  length (concat (map snd (fold_left (step monthYear) l acc)))
  = (length (concat (map snd acc))
     + length (List.filter (fun r => bool_decide (is_Some (labelOf monthYear r))) l))%nat.
Proof.
  revert acc. induction l as [|r l IH]; intros acc; simpl; [lia|].
  rewrite IH. unfold step.
  destruct (labelOf monthYear r) as [lab|].
  - rewrite bool_decide_eq_true_2 by eauto. rewrite size_push. simpl. lia.
  - rewrite bool_decide_eq_false_2 by (intros [x H]; discriminate). lia.
Qed.

(** X17.  The groups partition the filtered receipts that have a month
    label: the labels are distinct, no group is empty, a receipt is in
    some group exactly when it passed the filter and its date gave a
    label, and the groups together hold as many receipts as there are
    such receipts.  A receipt whose date does not parse is in no
    group. *)
Theorem groups_partition_the_dated_receipts
    (globalFilter : string) (receipts : list Receipt) :
  let groups := groupReceiptsByMonth monthYear globalFilter receipts in
  let kept := filtered globalFilter receipts in
  NoDup (map fst groups) /\
  (forall k g, In (k, g) groups -> g <> []) /\
  (forall r, (exists k g, In (k, g) groups /\ In r g) <->
             In r kept /\ labelOf monthYear r <> None) /\
  length (concat (map snd groups))
  = length (List.filter
              (fun r => bool_decide (is_Some (labelOf monthYear r))) kept).
Proof.
  intros groups kept.
  assert (ND : NoDup (map fst groups)).
  { apply NoDup_fold. simpl. apply NoDup_nil_2. }
  assert (G : forall k g, In (k, g) groups -> g = withLabel monthYear k kept).
  { intros k g Hin. rewrite <- (groupOf_In monthYear k g groups ND Hin).
    unfold groups, groupReceiptsByMonth. rewrite groupOf_fold. reflexivity. }
  assert (K : forall k, In k (map fst groups) <->
                        exists r, In r kept /\ labelOf monthYear r = Some k).
  { intros k. unfold groups, groupReceiptsByMonth. rewrite keys_fold.
    simpl. tauto. }
  split; [exact ND|]. split; [|split].
  - intros k g Hin Hnil.
    assert (Hk : In k (map fst groups)).
    { apply in_map_iff. exists (k, g). auto. }
    apply K in Hk as (r & Hr & Hl).
    assert (Hg : In r g).
    { rewrite (G k g Hin). apply filter_In. split; [exact Hr|].
      apply bool_decide_eq_true_2. exact Hl. }
    rewrite Hnil in Hg. destruct Hg.
  - intros r. split.
    + intros (k & g & Hin & Hr). rewrite (G k g Hin) in Hr.
      apply filter_In in Hr as [Hr Hl].
      apply bool_decide_eq_true_1 in Hl. split; [exact Hr|congruence].
    + intros [Hr Hl]. destruct (labelOf monthYear r) as [k|] eqn:E; [|congruence].
      assert (Hk : In k (map fst groups)) by (apply K; eauto).
      apply in_map_iff in Hk as ([k' g] & Ek & Hin). simpl in Ek. subst k'.
      exists k, g. split; [exact Hin|].
      rewrite (G k g Hin). apply filter_In. split; [exact Hr|].
      apply bool_decide_eq_true_2. exact E.
  - unfold groups, groupReceiptsByMonth. rewrite size_fold. reflexivity.
Qed.

End RecordsFacts.

Section FilterFacts.
Import Records.


Lemma toLowerCase_empty (s : string) :
  String.eqb (JS.toLowerCase s) "" = String.eqb s "".
Proof.
  destruct s as [|c s]; [reflexivity|].
  unfold JS.toLowerCase. simpl. reflexivity.
Qed.


(** X18.  The text filter ignores letter case on both sides.  Two filter
    texts that spell the same letters, in whatever case, keep the same
    receipts.  A receipt with a field whose rendered text contains the
    filter text, letter case apart, is kept; and under a non-empty filter
    only such receipts are. *)
Theorem filter_ignores_letter_case (f : string) :
  (forall (f' : string) (receipts : list Receipt),
     Forall2 sameLetter (JS.chars f) (JS.chars f') ->
     filtered f receipts = filtered f' receipts) /\
  (forall (receipts : list Receipt) (r : Receipt) (v : JS.Value),
     In r receipts -> In v (Object_values r) ->
     containsIgnoringCase (Form.toString v) f ->
     In r (filtered f receipts)) /\
  (f <> "" ->
   forall (receipts : list Receipt) (r : Receipt),
     In r (filtered f receipts) ->
     exists v, In v (Object_values r) /\
               containsIgnoringCase (Form.toString v) f).
Proof.
  split; [|split].
  - intros f' receipts H.
    apply map_lower_Forall2 in H.
    assert (L : JS.toLowerCase f = JS.toLowerCase f')
      by (unfold JS.toLowerCase; rewrite H; reflexivity).
    unfold filtered.
    rewrite <- (toLowerCase_empty f), <- (toLowerCase_empty f'), L.
    destruct (String.eqb (JS.toLowerCase f') ""); [reflexivity|].
    apply filter_ext. intros r. unfold matchesFilter. rewrite L. reflexivity.
  - intros receipts r v Hr Hv C.
    destruct (String.eqb_spec f "") as [->|Ne].
    + exact Hr.
    + apply filtered_spec; [exact Ne|]. split; [exact Hr|].
      exists v. split; [exact Hv | exact C].
  - intros Ne receipts r H.
    apply filtered_spec in H as [_ H]; [exact H | exact Ne].
Qed.

End FilterFacts.

Lemma filter_ignores_letter_case_witness :
  Records.filtered "ALICE" [jan05; jan20; feb01]
  = Records.filtered "alice" [jan05; jan20; feb01] /\
  In jan05 (Records.filtered "ALICE" [jan05; jan20; feb01]) /\
  exists v, In v (Records.Object_values jan05) /\
            containsIgnoringCase (Form.toString v) "ALICE".
Proof.
  destruct (filter_ignores_letter_case "ALICE") as (Same & Kept & Only).
  split; [|split].
  - apply Same. apply map_lower_Forall2. reflexivity.
  - apply (Kept _ jan05 (JS.JStr "alice")).
    + left. reflexivity.
    + right. left. reflexivity.
    + exists [], (JS.chars "alice"), []. split; [reflexivity|].
      apply map_lower_Forall2. reflexivity.
  - apply (Only ltac:(discriminate) [jan05; jan20; feb01]).
    left. reflexivity.
Defined.

Section NullFacts.
Import Records.

(** X19.  A column that is [NULL] is rendered as the text null by the
    filter, so any non-empty filter text that occurs in that word, in
    any letter case, keeps every receipt that has such a column. *)
Theorem null_column_matches_the_word_null
    (f : string) (r : Receipt) (receipts : list Receipt) :
  f <> "" -> JS.includes "null" (JS.toLowerCase f) = true ->
  In JS.JNull (Object_values r) -> In r receipts ->
  In r (filtered f receipts).
Proof.
  intros Ne Hf Hn Hr. unfold filtered.
  apply String.eqb_neq in Ne. rewrite Ne.
  apply filter_In. split; [exact Hr|].
  unfold matchesFilter. apply existsb_exists.
  exists JS.JNull. split; [exact Hn|exact Hf].
Qed.

Lemma null_column_matches_the_word_null_witness :
  Records.filtered "NUL" [jan05; jan20; feb01] = [jan05; jan20; feb01] /\
  In feb01 (Records.filtered "NUL" [jan05; jan20; feb01]).
Proof.
  split; [vm_compute; reflexivity|].
  apply (null_column_matches_the_word_null "NUL" feb01).
  - discriminate.
  - vm_compute. reflexivity.
  - vm_compute. tauto.
  - vm_compute. tauto.
Defined.

End NullFacts.

(** ** [aiRecordService] *)

Section AIRecordFacts.
Import AIRecordService.

Variable date_in : string -> option Z.

#[local] Instance laterFirst_total : Total laterFirst.
Proof. intros x y. unfold laterFirst. lia. Qed.

#[local] Instance laterFirst_trans : Transitive laterFirst.
Proof. intros x y z. unfold laterFirst. lia. Qed.

Lemma owns_spec (auth : option string) (owner : string) :
  owns auth owner = true <-> auth = Some owner.
Proof.
  destruct auth as [uid|]; simpl; [|split; discriminate].
  rewrite String.eqb_eq. split; congruence.
Qed.

Lemma ai_listing_is_owner_only_aux (auth : option string) (userId : string)
    (t : Table) :
  exists rs,
    getUserAIRecords auth userId t = Resolved rs /\
    (forall r, In r rs <->
               In r (ai_records t) /\ user_id r = userId /\ auth = Some userId) /\
    StronglySorted laterFirst rs.
Proof.
  eexists. split; [reflexivity|]. split.
  - intros r. rewrite <- list_elem_of_In, merge_sort_Permutation,
      list_elem_of_In, !filter_In, String.eqb_eq, owns_spec.
    split.
    + intros [[H O] U]. rewrite U in O. auto.
    + intros (H & U & A). rewrite U. auto.
  - apply StronglySorted_merge_sort; apply _.
Qed.

(** X20.  [getUserAIRecords(userId)] returns exactly the rows of
    [userId] when the session is that of [userId], the latest
    insemination date first, and no row at all for any other session or
    without one: nobody lists another user's records. *)
Theorem ai_listing_is_owner_only (auth : option string) (userId : string)
    (t : Table) :
  exists rs,
    getUserAIRecords auth userId t = Resolved rs /\
    (forall r, In r rs <->
               In r (ai_records t) /\ user_id r = userId /\ auth = Some userId) /\
    StronglySorted laterFirst rs /\
    (auth <> Some userId -> rs = []).
Proof.
  destruct (ai_listing_is_owner_only_aux auth userId t) as (rs & E & M & S).
  exists rs. split; [exact E|]. split; [exact M|]. split; [exact S|].
  intros N. destruct rs as [|x l']; [reflexivity|].
  exfalso. apply N.
  apply (M x). left. reflexivity.
Qed.

(** X21.  [deleteAIRecord(id)] always resolves, and removes exactly the
    rows with that identifier that belong to the caller: the rows of
    other users, and every row with another identifier, stay; deleting
    somebody else's record changes nothing and still reports success. *)
Theorem ai_delete_removes_own_rows_only (auth : option string)
    (ident : string) (t : Table) :
  fst (deleteAIRecord auth ident t) = Resolved tt /\
  (forall r, In r (ai_records (snd (deleteAIRecord auth ident t))) <->
             In r (ai_records t) /\
             ~ (id r = ident /\ auth = Some (user_id r))) /\
  ((forall r, In r (ai_records t) -> id r = ident ->
              auth <> Some (user_id r)) ->
   ai_records (snd (deleteAIRecord auth ident t)) = ai_records t).
Proof.
  split; [reflexivity|]. split.
  - intros r. simpl. rewrite filter_In. split.
    + intros [H N]. split; [exact H|]. intros [E A].
      apply Bool.negb_true_iff in N.
      rewrite (proj2 (owns_spec auth (user_id r)) A) in N.
      rewrite E, String.eqb_refl in N. discriminate.
    + intros [H N]. split; [exact H|]. apply Bool.negb_true_iff.
      destruct (owns auth (user_id r)) eqn:O; [|reflexivity].
      destruct (String.eqb_spec (id r) ident) as [E|E]; [|reflexivity].
      exfalso. apply N. split; [exact E|]. apply owns_spec. exact O.
  - intros H. simpl.
    induction (ai_records t) as [|x l IH]; simpl; [reflexivity|].
    assert (Hx : owns auth (user_id x) && String.eqb (id x) ident = false).
    { apply Bool.andb_false_iff.
      destruct (String.eqb_spec (id x) ident) as [E|N]; [left|right; reflexivity].
      apply Bool.not_true_iff_false. rewrite owns_spec.
      apply (H x); [left; reflexivity|exact E]. }
    rewrite Hx. simpl. f_equal. apply IH.
    intros r Hr. apply H. right. exact Hr.
Qed.

(** X22.  [saveAIRecord] stores a record exactly when the date text
    reads as a date and the record is filed under the caller's own
    identifier; it then resolves, and the listing of that user holds the
    new record, with the tag and the date as given, next to the earlier
    ones.  In every other case it rejects and the table is unchanged. *)
Theorem ai_save_then_list (auth : option string)
    (userId animalTag aiDate : string) (t : Table) :
  (forall day, date_in aiDate = Some day -> auth = Some userId ->
     exists ident t' rs rs',
       saveAIRecord date_in auth userId animalTag aiDate t
         = (Resolved ident, t') /\
       getUserAIRecords auth userId t = Resolved rs /\
       getUserAIRecords auth userId t' = Resolved rs' /\
       forall r, In r rs' <->
                 In r rs \/
                 r = mkAIRecord ident userId animalTag day (clock t) (clock t)) /\
  (date_in aiDate = None \/ auth <> Some userId ->
   exists e, saveAIRecord date_in auth userId animalTag aiDate t
             = (Rejected e, t)).
Proof.
  split.
  - intros day Hd Ha. unfold saveAIRecord. rewrite Hd.
    rewrite (proj2 (owns_spec auth userId) Ha). simpl negb. cbv iota.
    destruct (ai_listing_is_owner_only_aux auth userId t) as (rs & E & M & _).
    match goal with
    | |- context [mkTable ?l ?c ?i] =>
        destruct (ai_listing_is_owner_only_aux auth userId (mkTable l c i))
          as (rs' & E' & M' & _)
    end.
    eexists _, _, rs, rs'. split; [reflexivity|]. split; [exact E|].
    split; [exact E'|].
    intros r. rewrite M, M'. simpl. rewrite in_app_iff. simpl. split.
    + intros ([H | [ <- | [] ]] & U & A); auto.
    + intros [(H & U & A) | ->]; auto.
  - intros [Hd|Ha]; unfold saveAIRecord.
    + rewrite Hd. eauto.
    + destruct (date_in aiDate); [|eauto].
      destruct (owns auth userId) eqn:O; [|eauto].
      apply owns_spec in O. contradiction.
Qed.

End AIRecordFacts.

Lemma ai_listing_is_owner_only_witness :
  AIRecordService.getUserAIRecords (Some "alice") "bob" aiTable = Resolved [] /\
  AIRecordService.getUserAIRecords (Some "alice") "alice" aiTable
    = Resolved [aiOfAlice].
Proof.
  split; [|vm_compute; reflexivity].
  destruct (ai_listing_is_owner_only (Some "alice") "bob" aiTable)
    as (rs & E & _ & _ & Emp).
  rewrite E. f_equal. apply Emp. discriminate.
Defined.

Lemma ai_delete_removes_own_rows_only_witness :
  AIRecordService.ai_records
    (snd (AIRecordService.deleteAIRecord (Some "alice") "ai-1" aiTable))
  = [aiOfAlice; aiOfBob].
Proof.
  apply (proj2 (proj2 (ai_delete_removes_own_rows_only
                         (Some "alice") "ai-1" aiTable))).
  intros r [<- | [<- | []]] E; discriminate.
Defined.

Lemma ai_save_then_list_witness :
  exists e,
    AIRecordService.saveAIRecord (fun _ => Some 19731) (Some "alice") "bob"
                                 "B-7" "2024-01-09" aiTable
    = (Rejected e, aiTable).
Proof.
  apply (proj2 (ai_save_then_list (fun _ => Some 19731) (Some "alice") "bob"
                  "B-7" "2024-01-09" aiTable)).
  right. discriminate.
Defined.

(** ** From the capture date to the month group *)

Section CaptureLabelFacts.
Import App.

Variable newDate : Z -> JSDate.

Lemma year_digits (y : Z) : 1000 <= y <= 9999 -> yearDigits y = true.
Proof.
  intros H. apply (check_range yearDigits 1000 9000); [|lia].
  vm_compute. reflexivity.
Qed.

(** X23.  A receipt whose date is the capture date of its file is
    grouped under the month of the capture: when the reading of the
    time stamp is a calendar date with a four-digit year, the records
    view labels the text of [getImageCaptureDate] with that month and
    year, so the receipt is not dropped from the groups. *)
Theorem capture_date_is_grouped_under_its_month (file : File) :
  let d := newDate (lastModified file) in
  0 <= getMonth d <= 11 ->
  1 <= getDate d <= DateFns.daysInMonth (getFullYear d) (getMonth d + 1) ->
  1000 <= getFullYear d <= 9999 ->
  DateFns.monthYear (getImageCaptureDate newDate file)
  = Some (DateFns.monthName (getMonth d + 1) +:+ " " +:+
          JS.StringOfInt (getFullYear d)).
Proof.
  intros d Hm Hd Hy.
  assert (Hd31 : 1 <= getDate d <= 31).
  { split; [lia|]. destruct Hd as [_ Hd]. revert Hd.
    unfold DateFns.daysInMonth.
    repeat match goal with |- context [if ?c then _ else _] => destruct c end;
      lia. }
  destruct (datePattern_capture newDate file Hd31 Hm)
    as ((d1 & d2 & m1 & m2 & E & D1 & D2 & M1 & M2 & Vd & Vm) & _).
  fold d in E, Vd, Vm.
  pose proof (year_digits _ Hy) as Y. unfold yearDigits in Y.
  destruct (JS.chars (JS.StringOfInt (getFullYear d)))
    as [|y1 [|y2 [|y3 [|y4 [|y5 l]]]]] eqn:Ey; try discriminate.
  apply andb_prop in Y as [Y Vy]. apply andb_prop in Y as [Y Y4].
  apply andb_prop in Y as [Y Y3]. apply andb_prop in Y as [Y1 Y2].
  apply Z.eqb_eq in Vy.
  assert (Sl : JS.isDigit "/" = false) by reflexivity.
  unfold DateFns.monthYear, DateFns.parse. rewrite E.
  cbn [DateFns.digitsUpTo]. rewrite D1, D2.
  cbn [DateFns.literal]. rewrite Ascii.eqb_refl.
  cbn [DateFns.digitsUpTo]. rewrite M1, M2.
  cbn [DateFns.literal]. rewrite Ascii.eqb_refl.
  cbn [DateFns.digitsUpTo]. rewrite Y1, Y2, Y3, Y4.
  rewrite Vy.
  assert (Vd' : JS.digitsValue [d1; d2] = getDate d)
    by (unfold JS.digitsValue; simpl; lia).
  assert (Vm' : JS.digitsValue [m1; m2] = getMonth d + 1)
    by (unfold JS.digitsValue; simpl; lia).
  rewrite Vd', Vm'.
  assert (C : forallb JS.isWhite [] && (0 <? getFullYear d)
              && (1 <=? getMonth d + 1) && (getMonth d + 1 <=? 12)
              && (1 <=? getDate d)
              && (getDate d <=? DateFns.daysInMonth (getFullYear d)
                                                    (getMonth d + 1)) = true).
  { simpl forallb.
    rewrite (proj2 (Z.ltb_lt _ _)) by lia.
    rewrite !(proj2 (Z.leb_le _ _)) by lia. reflexivity. }
  rewrite C. simpl fmap. unfold DateFns.format. f_equal. f_equal. f_equal.
  assert (L : length (JS.chars (JS.StringOfInt (getFullYear d))) = 4%nat)
    by (rewrite Ey; reflexivity).
  unfold JS.padStart. rewrite L. simpl. apply str_chars.
Qed.

End CaptureLabelFacts.

Lemma capture_date_is_grouped_under_its_month_witness :
  DateFns.monthYear
    (App.getImageCaptureDate (fun _ => mkDate 5 0 2024)
                             (mkFile "IMG_0008.jpg" 0 None))
  = Some "January 2024".
Proof.
  exact (capture_date_is_grouped_under_its_month (fun _ => mkDate 5 0 2024)
           (mkFile "IMG_0008.jpg" 0 None)
           ltac:(simpl; lia) ltac:(vm_compute; split; discriminate)
           ltac:(simpl; lia)).
Defined.

Lemma saveReceipt_only_appends_witness :
  Supabase.profiles
    (snd (ReceiptService.saveReceipt (Some "bob") "bob" tooSmallQuantity None
                                     twoOwners))
  = [alice; bob].
Proof.
  exact (proj1 (saveReceipt_only_appends (Some "bob") "bob" tooSmallQuantity
                  None twoOwners)).
Defined.

Lemma groups_partition_the_dated_receipts_witness :
  length (concat (map snd
            (Records.groupReceiptsByMonth DateFns.monthYear ""
                                          [jan05; jan20; feb01])))
  = 3%nat.
Proof.
  rewrite (proj2 (proj2 (proj2 (groups_partition_the_dated_receipts
                                  DateFns.monthYear "" [jan05; jan20; feb01])))).
  vm_compute. reflexivity.
Defined.

(** ** The image path *)

Section PathFacts.
Import Supabase ReceiptService.

Lemma append_cancel_l (p x y : string) : p +:+ x = p +:+ y -> x = y.
Proof.
  induction p as [|c p IH]; simpl; [auto|].
  intros [= H]. apply IH, H.
Qed.

Lemma append_cancel_r (x y s : string) : x +:+ s = y +:+ s -> x = y.
Proof.
  intros H. apply (f_equal JS.chars) in H. rewrite !chars_app in H.
  apply app_inv_tail in H.
  rewrite <- (str_chars x), <- (str_chars y), H. reflexivity.
Qed.

(** X24.  The image path [userId/Date.now().jpg] tells the instants of
    one user apart: two paths of the same user are equal only for the
    same instant.  At one and the same instant the path collides: after
    a successful save with an image, a second save of that user with an
    image at the unchanged clock is rejected because the object already
    exists, and changes nothing. *)
Theorem image_path_collides_only_within_an_instant
    (caller userId : string) (b : Backend) :
  (forall b2 : Backend,
     0 <= clock b -> 0 <= clock b2 ->
     imagePath userId b = imagePath userId b2 -> clock b = clock b2) /\
  (forall (rd rd' : ReceiptData) (blob blob' : Blob) (d q f c br r a : string),
     canInsert (Some caller) b = true -> isAccount userId b = true ->
     pathTaken (imagePath userId b) b = false ->
     d_date rd = JS.JStr d -> d_quantity rd = JS.JStr q ->
     d_fat rd = JS.JStr f -> d_clr rd = JS.JStr c ->
     d_base_rate rd = JS.JStr br -> d_rate rd = JS.JStr r ->
     d_amount rd = JS.JStr a ->
     let b1 := snd (saveReceipt (Some caller) userId rd (Some blob) b) in
     saveReceipt (Some caller) userId rd' (Some blob') b1
     = (Rejected "The resource already exists", b1)).
Proof.
  split.
  - intros b2 H1 H2 E. unfold imagePath in E.
    apply append_cancel_l in E. apply append_cancel_l in E.
    apply append_cancel_r in E. unfold JS.StringOfInt in E.
    rewrite (proj2 (Z.ltb_ge _ _) H1), (proj2 (Z.ltb_ge _ _) H2) in E.
    apply pretty_N_inj in E. lia.
  - intros rd rd' blob blob' d q f c br r a Hrole Hacc Hfree
           Ed Eq_ Ef Ec Ebr Er Ea b1.
    assert (Eb : b1 = afterSave userId (Some blob) b
                        (savedRow userId rd (Some blob) b d q f c br r a)).
    { unfold b1. rewrite (saveReceipt_ok caller userId rd (Some blob) b
                            d q f c br r a); auto. }
    rewrite Eb. unfold saveReceipt, upload.
    match goal with
    | |- context [canUpload ?x ?y] =>
        change (canUpload x y) with (canInsert (Some caller) b)
    end.
    rewrite Hrole. simpl negb. cbv iota.
    match goal with
    | |- context [existsb ?g (bucket ?y)] =>
        assert (T : existsb g (bucket y) = true)
    end.
    { simpl. rewrite existsb_app. simpl.
      fold (imagePath userId b). rewrite String.eqb_refl.
      apply Bool.orb_true_iff. right. reflexivity. }
    rewrite T. reflexivity.
Qed.

Lemma image_path_collides_only_within_an_instant_witness :
  let blob := mkBlob 1600 1200 "image/jpeg" (85 # 100) in
  let b1 := snd (saveReceipt (Some "alice") "alice" tooSmallQuantity
                             (Some blob) twoOwners) in
  saveReceipt (Some "alice") "alice" tooSmallQuantity (Some blob) b1
  = (Rejected "The resource already exists", b1).
Proof.
  intros blob b1.
  exact (proj2 (image_path_collides_only_within_an_instant "alice" "alice"
                  twoOwners)
           tooSmallQuantity tooSmallQuantity blob blob
           "07/01/2024" "0.099" "4.0" "28" "70.50" "45" "562"
           eq_refl eq_refl eq_refl
           eq_refl eq_refl eq_refl eq_refl eq_refl eq_refl eq_refl).
Defined.

End PathFacts.
